(** * muxaudio: byte buffer, LEB128 varints, frame codec, registry, AMR adapter

    A shallow embedding of the parts of muxaudio (C) that the framing
    protocol rests on, followed by the properties established about them.

    Conventions of the embedding.
    - [size_t] and [uint64_t] are 64 bits wide (LP64); a value of either type
      is a [Z], and every C operation that can wrap is written with [u64].
    - [uint8_t] is a [Z] in [0, 256).
    - A C region [(pointer, length)] that is read is an [option (list Z)]
      ([None] is the null pointer) together with the length argument of the
      C function; a destination pointer is a [bool] (non-null or not) and
      the bytes stored through it are part of the function's result.
    - Pointers to the instance itself ([buf], [enc], [dec]) and to scalar
      out-parameters are taken to be non-null, unless a definition says
      otherwise.
    - Where a function reads a region only through its length (the input of
      the varint decoder), the region is the list of exactly those bytes.
    - [malloc]/[realloc] succeed or fail as the predicate [alloc_ok] says for
      the requested size; fresh storage reads as zero bytes. *)

From Stdlib Require Import ZArith List Lia Bool.
From Stdlib Require String.
Import String.StringSyntax.
Delimit Scope string_scope with string.
Import ListNotations.
Local Open Scope Z_scope.

(** ** Return codes and stream types (include/mux.h) *)

Definition MUX_OK : Z := 0.
Definition MUX_ERROR : Z := -1.
Definition MUX_ERROR_NOMEM : Z := -2.
Definition MUX_ERROR_INVAL : Z := -3.
Definition MUX_ERROR_AGAIN : Z := -4.
Definition MUX_ERROR_NOCODEC : Z := -5.
Definition MUX_ERROR_EOF : Z := -6.
Definition MUX_ERROR_ENCODE : Z := -7.
Definition MUX_ERROR_DECODE : Z := -8.
Definition MUX_ERROR_FORMAT : Z := -9.
Definition MUX_ERROR_INIT : Z := -10.

Definition MUX_STREAM_AUDIO : Z := 0.
Definition MUX_STREAM_SIDE_CHANNEL : Z := 1.

(** ** Machine arithmetic *)

Definition U64_MOD : Z := 2 ^ 64.

(** Reduction of a mathematical result to a 64-bit unsigned value. *)
Definition u64 (x : Z) : Z := x mod U64_MOD.

(** Conversion of a value to [int] (32 bits, two's complement). *)
Definition s32 (x : Z) : Z := (x + 2 ^ 31) mod 2 ^ 32 - 2 ^ 31.

(** Conversion of a value to [int16_t]. *)
Definition s16 (x : Z) : Z := (x + 2 ^ 15) mod 2 ^ 16 - 2 ^ 15.

(** [memcpy (dst + off, src, n)] on the contents of the destination. *)
Definition memcpy_at (dst : list Z) (off : Z) (src : list Z) (n : Z) : list Z :=
  firstn (Z.to_nat off) dst ++ firstn (Z.to_nat n) src
    ++ skipn (Z.to_nat (off + n)) dst.

(** The [n] bytes found at [base + off]. *)
Definition bytes_at (base : list Z) (off n : Z) : list Z :=
  firstn (Z.to_nat n) (skipn (Z.to_nat off) base).

(** ** Growable byte buffer (src/mux_internal.h, src/buffer.c) *)

Record mux_buffer : Type := mk_buffer {
  data : option (list Z);        (* [None] is the null pointer *)
  size : Z;
  capacity : Z;
  read_pos : Z
}.

(** The storage behind [buf->data]; nothing when the pointer is null. *)
Definition storage (buf : mux_buffer) : list Z :=
  match data buf with
  | Some bytes => bytes
  | None => []
  end.

Record read_result : Type := mk_read_result {
  rr_ret : Z;
  rr_buf : mux_buffer;
  rr_bytes_read : Z;              (* value stored in *bytes_read *)
  rr_copied : option (list Z)     (* bytes stored through data, if any *)
}.

Section Buffer.

(** The allocator: does a request for this many bytes succeed? *)
Variable alloc_ok : Z -> bool.

Definition zeroed_buffer : mux_buffer := mk_buffer None 0 0 0.

Definition mux_buffer_init (initial_capacity : Z) : Z * mux_buffer :=
  if 0 <? initial_capacity then
    if alloc_ok initial_capacity then
      (MUX_OK,
       mk_buffer (Some (repeat 0 (Z.to_nat initial_capacity)))
                 0 initial_capacity 0)
    else (MUX_ERROR_NOMEM, zeroed_buffer)
  else (MUX_OK, zeroed_buffer).

Definition mux_buffer_deinit (buf : mux_buffer) : mux_buffer := zeroed_buffer.

(** [realloc]: the old contents up to the smaller of the two sizes, then
    fresh bytes. *)
Definition realloc_bytes (old : list Z) (n : Z) : list Z :=
  firstn (Z.to_nat n) (old ++ repeat 0 (Z.to_nat n - length old)).

Definition mux_buffer_ensure_capacity (buf : mux_buffer) (needed : Z)
  : Z * mux_buffer :=
  if needed <=? capacity buf then (MUX_OK, buf)
  else
    let new_capacity := u64 (capacity buf + Z.shiftr (capacity buf) 1) in
    let new_capacity :=
      if new_capacity <? needed then needed else new_capacity in
    if alloc_ok new_capacity then
      (MUX_OK,
       mk_buffer (Some (realloc_bytes (storage buf) new_capacity))
                 (size buf) new_capacity (read_pos buf))
    else (MUX_ERROR_NOMEM, buf).

Definition mux_buffer_write (buf : mux_buffer) (src : option (list Z)) (n : Z)
  : Z * mux_buffer :=
  match src with
  | None => (MUX_ERROR_INVAL, buf)
  | Some bytes =>
      if n =? 0 then (MUX_OK, buf)
      else
        let (ret, buf1) := mux_buffer_ensure_capacity buf (u64 (size buf + n)) in
        if negb (ret =? MUX_OK) then (ret, buf1)
        else
          (MUX_OK,
           mk_buffer (Some (memcpy_at (storage buf1) (size buf1) bytes n))
                     (u64 (size buf1 + n)) (capacity buf1) (read_pos buf1))
  end.

(** The "reset buffer if fully read" tail shared by the readers. *)
Definition reset_if_drained (buf : mux_buffer) : mux_buffer :=
  if read_pos buf =? size buf
  then mk_buffer (data buf) 0 (capacity buf) 0
  else buf.

Definition advance (buf : mux_buffer) (n : Z) : mux_buffer :=
  mk_buffer (data buf) (size buf) (capacity buf) (u64 (read_pos buf + n)).

Definition mux_buffer_read (buf : mux_buffer) (dst : bool) (n : Z)
  : read_result :=
  let available := u64 (size buf - read_pos buf) in
  if available =? 0 then mk_read_result MUX_ERROR_AGAIN buf 0 None
  else
    let n := if available <? n then available else n in
    let copied :=
      if dst then Some (bytes_at (storage buf) (read_pos buf) n) else None in
    mk_read_result MUX_OK (reset_if_drained (advance buf n)) n copied.

Definition mux_buffer_available (buf : mux_buffer) : Z :=
  s32 (u64 (size buf - read_pos buf)).

Definition mux_buffer_clear (buf : mux_buffer) : mux_buffer :=
  mk_buffer (data buf) 0 (capacity buf) 0.

End Buffer.

(** ** LEB128 varints (src/mux_leb128.c) *)

(** The [do ... while (value != 0)] loop of the encoder.  [count] is
    [Z.of_nat (length output)] throughout.  One turn per 7-bit group, so ten
    turns serve any 64-bit value; [None] only when [fuel] runs out. *)
Fixpoint leb128_encode_loop (fuel : nat) (value output_size count : Z)
    (output : list Z) : option (Z * list Z) :=
  match fuel with
  | O => None
  | S fuel' =>
      let byte := Z.land value 0x7f in
      let value := Z.shiftr value 7 in
      let byte := if negb (value =? 0) then Z.lor byte 0x80 else byte in
      if output_size <=? count then Some (MUX_ERROR_INVAL, output)
      else
        let output := output ++ [byte] in
        let count := count + 1 in
        if negb (value =? 0)
        then leb128_encode_loop fuel' value output_size count output
        else Some (count, output)
  end.

(** Returns the [int] result and the bytes stored in [output]. *)
Definition mux_leb128_encode (value : Z) (output : bool) (output_size : Z)
  : option (Z * list Z) :=
  if negb output then Some (MUX_ERROR_INVAL, [])
  else leb128_encode_loop 64 value output_size 0 [].

Record decode_result : Type := mk_decode_result {
  dr_ret : Z;
  dr_value : option Z;        (* value stored in *value, if any *)
  dr_bytes_read : option Z    (* value stored in *bytes_read, if any *)
}.

(** The [do ... while (byte & 0x80)] loop of the decoder; [input] holds the
    bytes from index [count] up to [input_size]. *)
Fixpoint leb128_decode_loop (input : list Z) (result shift count : Z)
  : decode_result :=
  match input with
  | [] => mk_decode_result MUX_ERROR_AGAIN None None
  | byte :: rest =>
      let count := count + 1 in
      let result := Z.lor result (u64 (Z.shiftl (Z.land byte 0x7f) shift)) in
      let shift := shift + 7 in
      if 64 <=? shift then mk_decode_result MUX_ERROR_INVAL None None
      else if negb (Z.land byte 0x80 =? 0)
      then leb128_decode_loop rest result shift count
      else mk_decode_result MUX_OK (Some result) (Some count)
  end.

Definition mux_leb128_decode (input : option (list Z)) : decode_result :=
  match input with
  | None => mk_decode_result MUX_ERROR_INVAL None None
  | Some bytes => leb128_decode_loop bytes 0 0 0
  end.

(** ** Frame codec (src/mux_leb128.c) *)

Record frame_result : Type := mk_frame_result {
  fr_ret : Z;
  fr_buf : mux_buffer;
  fr_payload : option (list Z);    (* bytes stored through payload, if any *)
  fr_payload_size : option Z;      (* value stored in *payload_size, if any *)
  fr_stream_type : option Z        (* value stored in *stream_type, if any *)
}.

Section Frame.

Variable alloc_ok : Z -> bool.

(** [None] only if the varint encoder ran out of fuel. *)
Definition mux_leb128_write_frame (output : mux_buffer)
    (payload : option (list Z)) (payload_size : Z)
    (stream_type num_streams : Z) : option (Z * mux_buffer) :=
  if num_streams =? 1 then
    match payload with
    | Some _ =>
        if 0 <? payload_size
        then Some (mux_buffer_write alloc_ok output payload payload_size)
        else Some (MUX_OK, output)
    | None => Some (MUX_OK, output)
    end
  else
    let length_with_stream :=
      Z.lor (u64 (Z.shiftl payload_size 1)) (Z.land stream_type 1) in
    match mux_leb128_encode length_with_stream true 10 with
    | None => None
    | Some (leb128_len, leb128_buf) =>
        if leb128_len <? 0 then Some (leb128_len, output)
        else
          let (ret, output1) :=
            mux_buffer_write alloc_ok output (Some leb128_buf) leb128_len in
          if negb (ret =? MUX_OK) then Some (ret, output1)
          else
            match payload with
            | Some _ =>
                if 0 <? payload_size
                then Some (mux_buffer_write alloc_ok output1 payload payload_size)
                else Some (MUX_OK, output1)
            | None => Some (MUX_OK, output1)
            end
    end.

(** The pointer [input->data + input->read_pos]: null exactly when the
    buffer has no storage and nothing has been consumed. *)
Definition data_ptr (input : mux_buffer) (n : Z) : option (list Z) :=
  match data input with
  | Some bytes => Some (bytes_at bytes (read_pos input) n)
  | None => if read_pos input =? 0 then None else Some []
  end.

Definition mux_leb128_read_frame (input : mux_buffer) (payload : bool)
    (payload_capacity num_streams : Z) : frame_result :=
  if num_streams =? 1 then
    let available := u64 (size input - read_pos input) in
    if available =? 0
    then mk_frame_result MUX_ERROR_AGAIN input None None None
    else
      let actual_payload_size :=
        if available <? payload_capacity then available
        else payload_capacity in
      let copied :=
        if payload && (0 <? actual_payload_size)
        then Some (bytes_at (storage input) (read_pos input)
                            actual_payload_size)
        else None in
      mk_frame_result MUX_OK
        (reset_if_drained (advance input actual_payload_size))
        copied (Some actual_payload_size) (Some MUX_STREAM_AUDIO)
  else
    let available := u64 (size input - read_pos input) in
    let d := mux_leb128_decode (data_ptr input available) in
    match dr_ret d =? MUX_OK, dr_value d, dr_bytes_read d with
    | true, Some length_with_stream, Some leb128_bytes =>
        let stream := Z.land length_with_stream 1 in
        let actual_payload_size := Z.shiftr length_with_stream 1 in
        if available <? u64 (leb128_bytes + actual_payload_size)
        then mk_frame_result MUX_ERROR_AGAIN input None None None
        else if payload && (payload_capacity <? actual_payload_size)
        then mk_frame_result MUX_ERROR_INVAL input None
               (Some actual_payload_size) (Some stream)
        else
          let input1 := advance input leb128_bytes in
          let copied :=
            if payload && (0 <? actual_payload_size)
            then Some (bytes_at (storage input1) (read_pos input1)
                                actual_payload_size)
            else None in
          mk_frame_result MUX_OK
            (reset_if_drained (advance input1 actual_payload_size))
            copied (Some actual_payload_size) (Some stream)
    | _, _, _ => mk_frame_result (dr_ret d) input None None None
    end.

End Frame.

(** ** Registry and facade (src/core.c) *)

(** Modelled from the spec: the enumerators of [enum mux_codec_type].
    include/mux.h under src/ declares [MUX_CODEC_PCM] .. [MUX_CODEC_MP3]
    only, while core.c registers ten codecs and indexes [codec_info_table] by
    enumerator; the numbering below is the order of that table, which is
    also the order in which the spec lists the codecs. *)
Definition MUX_CODEC_PCM : Z := 0.
Definition MUX_CODEC_OPUS : Z := 1.
Definition MUX_CODEC_VORBIS : Z := 2.
Definition MUX_CODEC_FLAC : Z := 3.
Definition MUX_CODEC_MP3 : Z := 4.
Definition MUX_CODEC_AAC : Z := 5.
Definition MUX_CODEC_ALAW : Z := 6.
Definition MUX_CODEC_MULAW : Z := 7.
Definition MUX_CODEC_AMR : Z := 8.
Definition MUX_CODEC_AMR_WB : Z := 9.
Definition MUX_CODEC_MAX : Z := 10.

(** The addresses of the adapters' static operation tables
    (the [extern const struct mux_codec_ops] objects of mux_internal.h). *)
Inductive ops_addr : Type :=
| mux_codec_pcm_ops | mux_codec_opus_ops | mux_codec_vorbis_ops
| mux_codec_flac_ops | mux_codec_mp3_ops | mux_codec_aac_ops
| mux_codec_alaw_ops | mux_codec_mulaw_ops | mux_codec_amr_ops
| mux_codec_amr_wb_ops.

(** The preprocessor switches that decide which adapters are compiled in. *)
Record build_config : Type := mk_build_config {
  HAVE_MP3 : bool; HAVE_VORBIS : bool; HAVE_OPUS : bool; HAVE_FLAC : bool;
  HAVE_AAC : bool; HAVE_AMR : bool; HAVE_AMR_WB : bool
}.

Definition ifdef (flag : bool) (o : ops_addr) : option ops_addr :=
  if flag then Some o else None.

(** [codec_ops_table], laid out by enumerator value. *)
Definition codec_ops_table (cfg : build_config) : list (option ops_addr) :=
  [ Some mux_codec_pcm_ops;
    ifdef (HAVE_OPUS cfg) mux_codec_opus_ops;
    ifdef (HAVE_VORBIS cfg) mux_codec_vorbis_ops;
    ifdef (HAVE_FLAC cfg) mux_codec_flac_ops;
    ifdef (HAVE_MP3 cfg) mux_codec_mp3_ops;
    ifdef (HAVE_AAC cfg) mux_codec_aac_ops;
    Some mux_codec_alaw_ops;
    Some mux_codec_mulaw_ops;
    ifdef (HAVE_AMR cfg) mux_codec_amr_ops;
    ifdef (HAVE_AMR_WB cfg) mux_codec_amr_wb_ops ].

Definition mux_get_codec_ops (cfg : build_config) (type : Z) : option ops_addr :=
  if (type <? 0) || (MUX_CODEC_MAX <=? type) then None
  else nth (Z.to_nat type) (codec_ops_table cfg) None.

Record mux_error_info : Type := mk_error_info {
  code : Z;
  message : option String.string;
  library_code : Z;
  library_name : option String.string;
  library_msg : option String.string
}.

Definition no_error : mux_error_info := mk_error_info 0 None 0 None None.

(** [struct mux_encoder]; [D] is what [codec_data] points to. *)
Record mux_encoder (D : Type) : Type := mk_encoder {
  enc_codec_type : Z;
  enc_ops : option ops_addr;
  enc_sample_rate : Z;
  enc_num_channels : Z;
  enc_num_streams : Z;
  enc_output : mux_buffer;
  enc_error : mux_error_info;
  enc_codec_data : option D
}.
Arguments mk_encoder {D}.
Arguments enc_codec_type {D}.
Arguments enc_ops {D}.
Arguments enc_sample_rate {D}.
Arguments enc_num_channels {D}.
Arguments enc_num_streams {D}.
Arguments enc_output {D}.
Arguments enc_error {D}.
Arguments enc_codec_data {D}.

(** [struct mux_decoder]. *)
Record mux_decoder (D : Type) : Type := mk_decoder {
  dec_codec_type : Z;
  dec_ops : option ops_addr;
  dec_num_streams : Z;
  audio_output : mux_buffer;
  side_output : mux_buffer;
  dec_error : mux_error_info;
  dec_codec_data : option D
}.
Arguments mk_decoder {D}.
Arguments dec_codec_type {D}.
Arguments dec_ops {D}.
Arguments dec_num_streams {D}.
Arguments audio_output {D}.
Arguments side_output {D}.
Arguments dec_error {D}.
Arguments dec_codec_data {D}.

(** A C computation that may call through a function pointer: it returns,
    or it crashes because the pointer was null. *)
Inductive outcome (A : Type) : Type :=
| Returned (a : A)
| Crashed.
Arguments Returned {A}.
Arguments Crashed {A}.

(** The adapter entry points the facade reaches through the table. *)
Inductive adapter_call : Type :=
| Call_encoder_init (o : ops_addr)
| Call_encoder_deinit (o : ops_addr).

Section Facade.

Variable alloc_ok : Z -> bool.
Variable D : Type.
Variable mux_param : Type.
Variable sizeof_mux_encoder : Z.
Variable cfg : build_config.

(** The encoder half of [struct mux_codec_ops] that the facade uses; a
    field is [None] when the function pointer is null. *)
Record mux_codec_ops : Type := mk_codec_ops {
  encoder_init :
    option (mux_encoder D -> Z -> Z -> list mux_param -> Z * mux_encoder D);
  encoder_deinit : option (mux_encoder D -> mux_encoder D)
}.

(** The contents of the static tables. *)
Variable ops_at : ops_addr -> mux_codec_ops.

(** A call through the function pointer [f]. *)
Definition call_ptr {F A : Type} (f : option F) (k : F -> outcome A)
  : outcome A :=
  match f with
  | Some g => k g
  | None => Crashed
  end.

Definition zeroed_encoder : mux_encoder D :=
  mk_encoder 0 None 0 0 0 zeroed_buffer no_error None.

Record encoder_init_result : Type := mk_encoder_init_result {
  ei_ret : Z;
  ei_enc : option (mux_encoder D);   (* *enc after the call *)
  ei_calls : list adapter_call       (* adapter functions entered *)
}.

Definition mux_encoder_init (enc : option (mux_encoder D))
    (codec_type sample_rate num_channels num_streams : Z)
    (params : list mux_param) : outcome encoder_init_result :=
  match enc with
  | None => Returned (mk_encoder_init_result MUX_ERROR_INVAL None [])
  | Some enc0 =>
      if negb (num_streams =? 1) && negb (num_streams =? 2)
      then Returned (mk_encoder_init_result MUX_ERROR_INVAL (Some enc0) [])
      else
        let enc1 := zeroed_encoder in
        let ops := mux_get_codec_ops cfg codec_type in
        if match ops with
           | None => true
           | Some o =>
               match encoder_init (ops_at o) with
               | None => true
               | Some _ => false
               end
           end
        then Returned (mk_encoder_init_result MUX_ERROR_NOCODEC (Some enc1) [])
        else
          let enc2 :=
            mk_encoder codec_type ops sample_rate num_channels num_streams
                       (enc_output enc1) (enc_error enc1)
                       (enc_codec_data enc1) in
          let (ret, out) := mux_buffer_init alloc_ok 4096 in
          let enc3 :=
            mk_encoder (enc_codec_type enc2) (enc_ops enc2)
                       (enc_sample_rate enc2) (enc_num_channels enc2)
                       (enc_num_streams enc2) out (enc_error enc2)
                       (enc_codec_data enc2) in
          if negb (ret =? MUX_OK)
          then Returned (mk_encoder_init_result ret (Some enc3) [])
          else
            call_ptr ops (fun o =>
            call_ptr (encoder_init (ops_at o)) (fun init =>
              let (ret, enc4) :=
                init enc3 sample_rate num_channels params in
              if negb (ret =? MUX_OK)
              then
                Returned (mk_encoder_init_result ret
                  (Some (mk_encoder (enc_codec_type enc4) (enc_ops enc4)
                           (enc_sample_rate enc4) (enc_num_channels enc4)
                           (enc_num_streams enc4)
                           (mux_buffer_deinit (enc_output enc4))
                           (enc_error enc4) (enc_codec_data enc4)))
                  [Call_encoder_init o])
              else
                Returned (mk_encoder_init_result MUX_OK (Some enc4)
                            [Call_encoder_init o])))
  end.

(** The encoder returned ([None] is the null pointer) and the adapter
    functions entered on the way. *)
Definition mux_encoder_new
    (codec_type sample_rate num_channels num_streams : Z)
    (params : list mux_param)
  : outcome (option (mux_encoder D) * list adapter_call) :=
  if negb (alloc_ok sizeof_mux_encoder) then Returned (None, [])
  else
    match mux_encoder_init (Some zeroed_encoder) codec_type sample_rate
                           num_channels num_streams params with
    | Crashed => Crashed
    | Returned r =>
        if negb (ei_ret r =? MUX_OK) then Returned (None, ei_calls r)
        else Returned (ei_enc r, ei_calls r)
    end.

End Facade.

Arguments mk_codec_ops {D mux_param}.
Arguments encoder_init {D mux_param}.
Arguments encoder_deinit {D mux_param}.
Arguments ei_ret {D}.
Arguments ei_enc {D}.
Arguments ei_calls {D}.

(** ** Draining a decoder (src/codec_pcm.c, src/codec_alaw.c, src/codec_amr.c) *)

Record decoder_read_result (D : Type) : Type := mk_decoder_read_result {
  ddr_ret : Z;
  ddr_dec : mux_decoder D;
  ddr_output : option (list Z);       (* bytes stored through output, if any *)
  ddr_output_written : option Z;      (* value stored in *output_written *)
  ddr_stream_type : option Z          (* value stored in *stream_type *)
}.
Arguments mk_decoder_read_result {D}.
Arguments ddr_ret {D}.
Arguments ddr_dec {D}.
Arguments ddr_output {D}.
Arguments ddr_output_written {D}.
Arguments ddr_stream_type {D}.

Section DecoderRead.

Variable D : Type.

Definition with_audio_output (dec : mux_decoder D) (b : mux_buffer)
  : mux_decoder D :=
  mk_decoder (dec_codec_type dec) (dec_ops dec) (dec_num_streams dec)
             b (side_output dec) (dec_error dec) (dec_codec_data dec).

Definition with_side_output (dec : mux_decoder D) (b : mux_buffer)
  : mux_decoder D :=
  mk_decoder (dec_codec_type dec) (dec_ops dec) (dec_num_streams dec)
             (audio_output dec) b (dec_error dec) (dec_codec_data dec).

Definition pcm_decoder_read (dec : mux_decoder D) (output : bool)
    (output_size : Z) : decoder_read_result D :=
  if negb output
  then mk_decoder_read_result MUX_ERROR_INVAL dec None None None
  else
    (* Try audio buffer first *)
    let r := mux_buffer_read (audio_output dec) output output_size in
    let dec := with_audio_output dec (rr_buf r) in
    if rr_ret r =? MUX_OK
    then mk_decoder_read_result MUX_OK dec (rr_copied r)
           (Some (rr_bytes_read r)) (Some MUX_STREAM_AUDIO)
    else
      (* Try side channel buffer *)
      let r := mux_buffer_read (side_output dec) output output_size in
      let dec := with_side_output dec (rr_buf r) in
      if rr_ret r =? MUX_OK
      then mk_decoder_read_result MUX_OK dec (rr_copied r)
             (Some (rr_bytes_read r)) (Some MUX_STREAM_SIDE_CHANNEL)
      else
        (* No data available *)
        mk_decoder_read_result MUX_ERROR_AGAIN dec None (Some 0) None.

Definition alaw_decoder_read (dec : mux_decoder D) (output : bool)
    (output_size : Z) : decoder_read_result D :=
  if negb output
  then mk_decoder_read_result MUX_ERROR_INVAL dec None None None
  else
    let r := mux_buffer_read (audio_output dec) output output_size in
    let dec := with_audio_output dec (rr_buf r) in
    if rr_ret r =? MUX_OK
    then mk_decoder_read_result MUX_OK dec (rr_copied r)
           (Some (rr_bytes_read r)) (Some MUX_STREAM_AUDIO)
    else
      let r := mux_buffer_read (side_output dec) output output_size in
      let dec := with_side_output dec (rr_buf r) in
      if rr_ret r =? MUX_OK
      then mk_decoder_read_result MUX_OK dec (rr_copied r)
             (Some (rr_bytes_read r)) (Some MUX_STREAM_SIDE_CHANNEL)
      else mk_decoder_read_result MUX_ERROR_AGAIN dec None (Some 0) None.

Definition amr_decoder_read (dec : mux_decoder D) (output : bool)
    (output_size : Z) : decoder_read_result D :=
  if negb output
  then mk_decoder_read_result MUX_ERROR_INVAL dec None None None
  else
    let r := mux_buffer_read (audio_output dec) output output_size in
    let dec := with_audio_output dec (rr_buf r) in
    if rr_ret r =? MUX_OK
    then mk_decoder_read_result MUX_OK dec (rr_copied r)
           (Some (rr_bytes_read r)) (Some MUX_STREAM_AUDIO)
    else
      let r := mux_buffer_read (side_output dec) output output_size in
      let dec := with_side_output dec (rr_buf r) in
      if rr_ret r =? MUX_OK
      then mk_decoder_read_result MUX_OK dec (rr_copied r)
             (Some (rr_bytes_read r)) (Some MUX_STREAM_SIDE_CHANNEL)
      else mk_decoder_read_result MUX_ERROR_AGAIN dec None (Some 0) None.

End DecoderRead.

Arguments pcm_decoder_read {D}.
Arguments alaw_decoder_read {D}.
Arguments amr_decoder_read {D}.

(** ** AMR-NB encoder adapter (src/codec_amr.c) *)

Definition AMR_SAMPLE_RATE : Z := 8000.
Definition AMR_FRAME_SAMPLES : Z := 160.
Definition AMR_MAX_FRAME_SIZE : Z := 32.

(** The bytes of [input] seen through [(const int16_t * )input] on a
    little-endian host. *)
Fixpoint samples_of_bytes (input : list Z) : list Z :=
  match input with
  | lo :: hi :: rest => s16 (lo + 256 * hi) :: samples_of_bytes rest
  | _ => []
  end.

Section Amr.

Variable alloc_ok : Z -> bool.

(** The state behind the opencore-amrnb encoder handle. *)
Variable amr_state : Type.

(** [Encoder_Interface_Encode (state, mode, speech, out, force_speech)]:
    the new state, the returned frame size and the contents of the
    32-byte [out] array after the call. *)
Variable Encoder_Interface_Encode :
  amr_state -> Z -> list Z -> Z -> amr_state * Z * list Z.

Record amr_encoder_data : Type := mk_amr_encoder_data {
  encoder : amr_state;
  mode : Z;
  dtx : Z;
  input_buf : list Z;      (* AMR_FRAME_SAMPLES samples *)
  input_samples : Z
}.

Definition amr_encoder := mux_encoder amr_encoder_data.

Definition with_output (enc : amr_encoder) (b : mux_buffer) : amr_encoder :=
  mk_encoder (enc_codec_type enc) (enc_ops enc) (enc_sample_rate enc)
             (enc_num_channels enc) (enc_num_streams enc) b
             (enc_error enc) (enc_codec_data enc).

Definition with_codec_data (enc : amr_encoder) (d : amr_encoder_data)
  : amr_encoder :=
  mk_encoder (enc_codec_type enc) (enc_ops enc) (enc_sample_rate enc)
             (enc_num_channels enc) (enc_num_streams enc) (enc_output enc)
             (enc_error enc) (Some d).

(** src/error.c, with a non-null [message]. *)
Definition mux_encoder_set_error (enc : amr_encoder) (c : Z)
    (msg : String.string) (lib_name : option String.string) (lib_code : Z)
    (lib_msg : option String.string) : amr_encoder :=
  mk_encoder (enc_codec_type enc) (enc_ops enc) (enc_sample_rate enc)
             (enc_num_channels enc) (enc_num_streams enc) (enc_output enc)
             (mk_error_info c (Some msg) lib_code lib_name lib_msg)
             (enc_codec_data enc).

Record encode_result : Type := mk_encode_result {
  er_ret : Z;
  er_enc : amr_encoder;
  er_input_consumed : option Z     (* value stored in *input_consumed *)
}.

(** The [while (samples_available > 0)] loop of [amr_encoder_encode].
    [samples] is what the moving pointer of that name still has ahead.
    A turn that copies nothing resets [input_samples], so
    [samples_available + 1] turns are enough; [None] only when [fuel]
    runs out or the varint encoder did. *)
Fixpoint amr_encode_loop (fuel : nat) (enc : amr_encoder)
    (d : amr_encoder_data) (samples : list Z)
    (samples_available consumed : Z) : option encode_result :=
  match fuel with
  | O => None
  | S fuel' =>
      if negb (0 <? samples_available)
      then Some (mk_encode_result MUX_OK (with_codec_data enc d)
                                  (Some consumed))
      else
        (* Fill input buffer *)
        let need := u64 (AMR_FRAME_SAMPLES - input_samples d) in
        let copy :=
          if samples_available <? need then samples_available else need in
        let d1 :=
          mk_amr_encoder_data (encoder d) (mode d) (dtx d)
            (memcpy_at (input_buf d) (input_samples d) samples copy)
            (s32 (u64 (input_samples d + copy))) in
        let samples := skipn (Z.to_nat copy) samples in
        let samples_available := u64 (samples_available - copy) in
        let consumed := u64 (consumed + u64 (copy * 2)) in
        (* Encode complete frame *)
        if input_samples d1 =? AMR_FRAME_SAMPLES then
          let '(st, frame_size, frame_buf) :=
            Encoder_Interface_Encode (encoder d1) (mode d1) (input_buf d1) 0 in
          let d2 :=
            mk_amr_encoder_data st (mode d1) (dtx d1) (input_buf d1)
                                (input_samples d1) in
          if frame_size <? 0 then
            Some (mk_encode_result MUX_ERROR_ENCODE
                    (mux_encoder_set_error (with_codec_data enc d2)
                       MUX_ERROR_ENCODE "AMR encoding failed"%string
                       (Some "opencore-amrnb"%string) frame_size None)
                    None)
          else
            (* Write frame *)
            match mux_leb128_write_frame alloc_ok (enc_output enc)
                    (Some frame_buf) (u64 frame_size) MUX_STREAM_AUDIO
                    (enc_num_streams enc) with
            | None => None
            | Some (ret, out) =>
                if negb (ret =? MUX_OK)
                then Some (mk_encode_result ret
                             (with_codec_data (with_output enc out) d2) None)
                else
                  let d3 :=
                    mk_amr_encoder_data (encoder d2) (mode d2) (dtx d2)
                                        (input_buf d2) 0 in
                  amr_encode_loop fuel' (with_output enc out) d3 samples
                                  samples_available consumed
            end
        else
          amr_encode_loop fuel' enc d1 samples samples_available consumed
  end.

Definition amr_encoder_encode (enc : amr_encoder) (input : option (list Z))
    (input_size stream_type : Z) : option encode_result :=
  match input, enc_codec_data enc with
  | None, _ => Some (mk_encode_result MUX_ERROR_INVAL enc None)
  | Some _, None => Some (mk_encode_result MUX_ERROR_INVAL enc None)
  | Some bytes, Some d =>
      if input_size =? 0
      then Some (mk_encode_result MUX_OK enc (Some 0))
      else if negb (stream_type =? MUX_STREAM_AUDIO) then
        (* Side channel: pass through unchanged *)
        match mux_leb128_write_frame alloc_ok (enc_output enc) input
                input_size stream_type (enc_num_streams enc) with
        | None => None
        | Some (ret, out) =>
            if negb (ret =? MUX_OK)
            then Some (mk_encode_result ret (with_output enc out) None)
            else Some (mk_encode_result MUX_OK (with_output enc out)
                                        (Some input_size))
        end
      else
        (* Audio encoding *)
        let samples := samples_of_bytes bytes in
        let samples_available := input_size / 2 in
        amr_encode_loop (S (Z.to_nat samples_available)) enc d samples
                        samples_available 0
  end.

(** Returns the [int] result and the encoder afterwards. *)
Definition amr_encoder_finalize (enc : amr_encoder)
  : option (Z * amr_encoder) :=
  match enc_codec_data enc with
  | None => Some (MUX_ERROR_INVAL, enc)
  | Some d =>
      (* Encode any remaining samples (pad with zeros) *)
      if 0 <? input_samples d then
        let d1 :=
          mk_amr_encoder_data (encoder d) (mode d) (dtx d)
            (memcpy_at (input_buf d) (input_samples d)
               (repeat 0 (Z.to_nat (AMR_FRAME_SAMPLES - input_samples d)))
               (AMR_FRAME_SAMPLES - input_samples d))
            (input_samples d) in
        let '(st, frame_size, frame_buf) :=
          Encoder_Interface_Encode (encoder d1) (mode d1) (input_buf d1) 0 in
        let d2 :=
          mk_amr_encoder_data st (mode d1) (dtx d1) (input_buf d1)
                              (input_samples d1) in
        let d3 :=
          mk_amr_encoder_data (encoder d2) (mode d2) (dtx d2)
                              (input_buf d2) 0 in
        if 0 <? frame_size then
          match mux_leb128_write_frame alloc_ok (enc_output enc)
                  (Some frame_buf) (u64 frame_size) MUX_STREAM_AUDIO
                  (enc_num_streams enc) with
          | None => None
          | Some (ret, out) =>
              if negb (ret =? MUX_OK)
              then Some (ret, with_codec_data (with_output enc out) d2)
              else Some (MUX_OK, with_codec_data (with_output enc out) d3)
          end
        else Some (MUX_OK, with_codec_data enc d3)
      else Some (MUX_OK, enc)
  end.

End Amr.

Arguments mk_amr_encoder_data {amr_state}.
Arguments encoder {amr_state}.
Arguments mode {amr_state}.
Arguments dtx {amr_state}.
Arguments input_buf {amr_state}.
Arguments input_samples {amr_state}.
Arguments er_ret {amr_state}.
Arguments er_enc {amr_state}.
Arguments er_input_consumed {amr_state}.

(** ** Codec names (src/core.c) *)

Record mux_codec_info : Type := mk_codec_info {
  ci_type : Z;
  ci_name : String.string;
  ci_description : String.string
}.

Definition codec_info_table : list mux_codec_info :=
  [ mk_codec_info MUX_CODEC_PCM "pcm" "Raw PCM audio";
    mk_codec_info MUX_CODEC_OPUS "opus" "Opus audio codec";
    mk_codec_info MUX_CODEC_VORBIS "vorbis" "Vorbis audio codec";
    mk_codec_info MUX_CODEC_FLAC "flac" "FLAC lossless audio codec";
    mk_codec_info MUX_CODEC_MP3 "mp3" "MP3 audio codec";
    mk_codec_info MUX_CODEC_AAC "aac" "AAC audio codec";
    mk_codec_info MUX_CODEC_ALAW "alaw" "G.711 A-law codec";
    mk_codec_info MUX_CODEC_MULAW "mulaw" "G.711 mu-law codec";
    mk_codec_info MUX_CODEC_AMR "amr"
      "AMR-NB (Adaptive Multi-Rate Narrowband) codec";
    mk_codec_info MUX_CODEC_AMR_WB "amr-wb"
      "AMR-WB (Adaptive Multi-Rate Wideband) codec" ]%string.

(** The [for (i = 0; i < MUX_CODEC_MAX; i++)] loop of
    [mux_codec_from_name]; [entries] is the table from index [i] on, and
    the table has [MUX_CODEC_MAX] entries. *)
Fixpoint codec_from_name_loop (entries : list mux_codec_info)
    (name : String.string) : Z * option Z :=
  match entries with
  | [] => (MUX_ERROR_INVAL, None)
  | entry :: rest =>
      if String.eqb (ci_name entry) name
      then (MUX_OK, Some (ci_type entry))
      else codec_from_name_loop rest name
  end.

(** The [int] result and the value stored in [*codec], if any. *)
Definition mux_codec_from_name (name : option String.string) (codec : bool)
  : Z * option Z :=
  match name with
  | None => (MUX_ERROR_INVAL, None)
  | Some n =>
      if negb codec then (MUX_ERROR_INVAL, None)
      else codec_from_name_loop codec_info_table n
  end.

(** The name, or [None] for the null pointer. *)
Definition mux_codec_to_name (codec : Z) : option String.string :=
  if (codec <? 0) || (MUX_CODEC_MAX <=? codec) then None
  else
    match nth_error codec_info_table (Z.to_nat codec) with
    | Some entry => Some (ci_name entry)
    | None => None
    end.

(** ** Error strings (src/error.c) *)



(** ** Facade, the rest of the life cycle (src/core.c) *)

(** The adapter entry points the decoder constructor and the destructors
    reach through the table. *)
Inductive lifecycle_call : Type :=
| Run_encoder_deinit (o : ops_addr)
| Run_decoder_init (o : ops_addr)
| Run_decoder_deinit (o : ops_addr).

Section FacadeLifeCycle.

Variable alloc_ok : Z -> bool.

(** What [codec_data] points to, for encoders and for decoders. *)
Variables E D : Type.
Variable mux_param : Type.
Variable sizeof_mux_decoder : Z.
Variable cfg : build_config.

(** The results of the adapter functions the facade forwards to. *)
Record encode_outcome : Type := mk_encode_outcome {
  eo_ret : Z;
  eo_enc : mux_encoder E;
  eo_input_consumed : option Z
}.

Record encoder_read_outcome : Type := mk_encoder_read_outcome {
  ero_ret : Z;
  ero_enc : mux_encoder E;
  ero_output : option (list Z);
  ero_output_written : option Z
}.

Record decode_outcome : Type := mk_decode_outcome {
  do_ret : Z;
  do_dec : mux_decoder D;
  do_input_consumed : option Z
}.

(** The function pointers of [struct mux_codec_ops] that [mux_codec_ops]
    above leaves out; a field is [None] when the pointer is null. *)
Record mux_codec_ops_rest : Type := mk_codec_ops_rest {
  encoder_encode :
    option (mux_encoder E -> option (list Z) -> Z -> Z -> encode_outcome);
  encoder_read :
    option (mux_encoder E -> bool -> Z -> encoder_read_outcome);
  encoder_finalize : option (mux_encoder E -> Z * mux_encoder E);
  decoder_init :
    option (mux_decoder D -> list mux_param -> Z * mux_decoder D);
  decoder_deinit : option (mux_decoder D -> mux_decoder D);
  decoder_decode :
    option (mux_decoder D -> option (list Z) -> Z -> decode_outcome);
  decoder_read :
    option (mux_decoder D -> bool -> Z -> decoder_read_result D);
  decoder_finalize : option (mux_decoder D -> Z * mux_decoder D)
}.

(** The contents of the static tables: the two encoder fields, and the
    rest. *)
Variable ops_at : ops_addr -> mux_codec_ops E mux_param.
Variable rest_at : ops_addr -> mux_codec_ops_rest.

Definition zeroed_decoder : mux_decoder D :=
  mk_decoder 0 None 0 zeroed_buffer zeroed_buffer no_error None.

(** The encoder afterwards and the adapter functions entered. *)
Definition mux_encoder_deinit (enc : mux_encoder E)
  : outcome (mux_encoder E * list lifecycle_call) :=
  match enc_ops enc with
  | Some o =>
      match encoder_deinit (ops_at o) with
      | Some _ =>
          call_ptr (enc_ops enc) (fun o =>
          call_ptr (encoder_deinit (ops_at o)) (fun deinit =>
            let enc1 := deinit enc in
            let enc2 :=
              mk_encoder (enc_codec_type enc1) (enc_ops enc1)
                         (enc_sample_rate enc1) (enc_num_channels enc1)
                         (enc_num_streams enc1)
                         (mux_buffer_deinit (enc_output enc1))
                         (enc_error enc1) (enc_codec_data enc1) in
            Returned (zeroed_encoder E, [Run_encoder_deinit o])))
      | None => Returned (zeroed_encoder E, [])
      end
  | None => Returned (zeroed_encoder E, [])
  end.

Record decoder_init_result : Type := mk_decoder_init_result {
  di_ret : Z;
  di_dec : option (mux_decoder D);   (* *dec after the call *)
  di_calls : list lifecycle_call     (* adapter functions entered *)
}.

Definition mux_decoder_init (dec : option (mux_decoder D))
    (codec_type num_streams : Z) (params : list mux_param)
  : outcome decoder_init_result :=
  match dec with
  | None => Returned (mk_decoder_init_result MUX_ERROR_INVAL None [])
  | Some dec0 =>
      if negb (num_streams =? 1) && negb (num_streams =? 2)
      then Returned (mk_decoder_init_result MUX_ERROR_INVAL (Some dec0) [])
      else
        let dec1 := zeroed_decoder in
        let ops := mux_get_codec_ops cfg codec_type in
        if match ops with
           | None => true
           | Some o =>
               match decoder_init (rest_at o) with
               | None => true
               | Some _ => false
               end
           end
        then Returned (mk_decoder_init_result MUX_ERROR_NOCODEC (Some dec1) [])
        else
          let dec2 :=
            mk_decoder codec_type ops num_streams (audio_output dec1)
                       (side_output dec1) (dec_error dec1)
                       (dec_codec_data dec1) in
          let (ret, audio) := mux_buffer_init alloc_ok 4096 in
          let dec3 :=
            mk_decoder (dec_codec_type dec2) (dec_ops dec2)
                       (dec_num_streams dec2) audio (side_output dec2)
                       (dec_error dec2) (dec_codec_data dec2) in
          if negb (ret =? MUX_OK)
          then Returned (mk_decoder_init_result ret (Some dec3) [])
          else
            let (ret, side) := mux_buffer_init alloc_ok 1024 in
            let dec4 :=
              mk_decoder (dec_codec_type dec3) (dec_ops dec3)
                         (dec_num_streams dec3) (audio_output dec3) side
                         (dec_error dec3) (dec_codec_data dec3) in
            if negb (ret =? MUX_OK)
            then
              Returned (mk_decoder_init_result ret
                (Some (mk_decoder (dec_codec_type dec4) (dec_ops dec4)
                         (dec_num_streams dec4)
                         (mux_buffer_deinit (audio_output dec4))
                         (side_output dec4) (dec_error dec4)
                         (dec_codec_data dec4)))
                [])
            else
              call_ptr ops (fun o =>
              call_ptr (decoder_init (rest_at o)) (fun init =>
                let (ret, dec5) := init dec4 params in
                if negb (ret =? MUX_OK)
                then
                  Returned (mk_decoder_init_result ret
                    (Some (mk_decoder (dec_codec_type dec5) (dec_ops dec5)
                             (dec_num_streams dec5)
                             (mux_buffer_deinit (audio_output dec5))
                             (mux_buffer_deinit (side_output dec5))
                             (dec_error dec5) (dec_codec_data dec5)))
                    [Run_decoder_init o])
                else
                  Returned (mk_decoder_init_result MUX_OK (Some dec5)
                              [Run_decoder_init o])))
  end.

(** The decoder returned ([None] is the null pointer) and the adapter
    functions entered on the way. *)
Definition mux_decoder_new (codec_type num_streams : Z)
    (params : list mux_param)
  : outcome (option (mux_decoder D) * list lifecycle_call) :=
  if negb (alloc_ok sizeof_mux_decoder) then Returned (None, [])
  else
    match mux_decoder_init (Some zeroed_decoder) codec_type num_streams
                           params with
    | Crashed => Crashed
    | Returned r =>
        if negb (di_ret r =? MUX_OK) then Returned (None, di_calls r)
        else Returned (di_dec r, di_calls r)
    end.

(** The null tests of the forwarding functions, then the call. *)
Definition mux_encoder_encode (enc : mux_encoder E)
    (input : option (list Z)) (input_size stream_type : Z)
  : outcome encode_outcome :=
  if match enc_ops enc with
     | None => true
     | Some o =>
         match encoder_encode (rest_at o) with
         | None => true
         | Some _ => false
         end
     end
  then Returned (mk_encode_outcome MUX_ERROR_INVAL enc None)
  else
    call_ptr (enc_ops enc) (fun o =>
    call_ptr (encoder_encode (rest_at o)) (fun encode =>
      Returned (encode enc input input_size stream_type))).

Definition mux_encoder_read (enc : mux_encoder E) (output : bool)
    (output_size : Z) : outcome encoder_read_outcome :=
  if match enc_ops enc with
     | None => true
     | Some o =>
         match encoder_read (rest_at o) with
         | None => true
         | Some _ => false
         end
     end
  then Returned (mk_encoder_read_outcome MUX_ERROR_INVAL enc None None)
  else
    call_ptr (enc_ops enc) (fun o =>
    call_ptr (encoder_read (rest_at o)) (fun read =>
      Returned (read enc output output_size))).

Definition mux_encoder_finalize (enc : mux_encoder E)
  : outcome (Z * mux_encoder E) :=
  match enc_ops enc with
  | None => Returned (MUX_ERROR_INVAL, enc)
  | Some _ =>
      call_ptr (enc_ops enc) (fun o =>
        (* encoder_finalize is optional *)
        match encoder_finalize (rest_at o) with
        | None => Returned (MUX_OK, enc)
        | Some _ =>
            call_ptr (encoder_finalize (rest_at o)) (fun finalize =>
              Returned (finalize enc))
        end)
  end.

End FacadeLifeCycle.

Arguments mk_codec_ops_rest {E D mux_param}.
Arguments encoder_encode {E D mux_param}.
Arguments encoder_read {E D mux_param}.
Arguments encoder_finalize {E D mux_param}.
Arguments decoder_init {E D mux_param}.
Arguments decoder_deinit {E D mux_param}.
Arguments decoder_decode {E D mux_param}.
Arguments decoder_read {E D mux_param}.
Arguments decoder_finalize {E D mux_param}.
Arguments di_ret {D}.
Arguments di_dec {D}.
Arguments di_calls {D}.
Arguments eo_ret {E}.
Arguments eo_enc {E}.
Arguments eo_input_consumed {E}.
Arguments ero_ret {E}.
Arguments ero_enc {E}.
Arguments ero_output {E}.
Arguments ero_output_written {E}.
Arguments mk_decode_outcome {D}.
Arguments do_ret {D}.
Arguments do_dec {D}.
Arguments do_input_consumed {D}.
Arguments mk_encode_outcome {E}.
Arguments mk_encoder_read_outcome {E}.

(** ** AMR frame sizes (src/codec_amr.c) *)

Definition frame_sizes : list Z :=
  [ 13;  (* Mode 0: 4.75 kbps *)
    14;  (* Mode 1: 5.15 kbps *)
    16;  (* Mode 2: 5.90 kbps *)
    18;  (* Mode 3: 6.70 kbps *)
    20;  (* Mode 4: 7.40 kbps *)
    21;  (* Mode 5: 7.95 kbps *)
    27;  (* Mode 6: 10.2 kbps *)
    32;  (* Mode 7: 12.2 kbps *)
    6;   (* Mode 8: SID (comfort noise) *)
    0; 0; 0; 0; 0; 0;  (* Modes 9-14: reserved *)
    1    (* Mode 15: NO_DATA *) ].

(** [mode_byte] is a [uint8_t]. *)
Definition amr_get_frame_size (mode_byte : Z) : Z :=
  let frame_type := Z.land (Z.shiftr mode_byte 3) 0x0F in
  if 15 <? frame_type then -1
  else nth (Z.to_nat frame_type) frame_sizes 0.

(** ** G.711 companding (src/codec_alaw.c, src/codec_mulaw.c) *)

(** Conversion of a value to [uint8_t]. *)
Definition u8 (x : Z) : Z := x mod 2 ^ 8.

(** The [for (exponent = 1; exponent < 8; exponent++)] search of
    [alaw_encode_sample], entered at [exponent]; eight turns reach the
    exit test at [exponent = 8]. *)
Fixpoint alaw_exponent_loop (fuel : nat) (exponent sample : Z) : Z :=
  match fuel with
  | O => exponent
  | S fuel' =>
      if exponent <? 8 then
        if sample <? Z.shiftl 256 exponent then exponent
        else alaw_exponent_loop fuel' (exponent + 1) sample
      else exponent
  end.

(** [pcm] is an [int16_t]; [pcm = -pcm] is computed in [int] and stored
    back into the [int16_t]. *)
Definition alaw_encode_sample (pcm : Z) : Z :=
  (* Get sign bit *)
  let sign := Z.land (Z.shiftr pcm 8) 0x80 in
  let pcm := if negb (sign =? 0) then s16 (- pcm) else pcm in
  (* Clamp to positive range *)
  let pcm := if 32635 <? pcm then 32635 else pcm in
  let sample := pcm in
  (* Find exponent and mantissa *)
  let (exponent, mantissa) :=
    if sample <? 256 then (0, Z.shiftr sample 4)
    else
      let exponent := alaw_exponent_loop 8 1 sample in
      (exponent, Z.land (Z.shiftr sample (exponent + 3)) 0x0F) in
  (* Combine into A-law byte *)
  let alaw := u8 (Z.lor (Z.lor sign (Z.shiftl exponent 4)) mantissa) in
  u8 (Z.lxor alaw 0x55).

(** [alaw] is a [uint8_t]; the result is an [int16_t]. *)
Definition alaw_decode_sample (alaw : Z) : Z :=
  (* Remove XOR mask *)
  let alaw := u8 (Z.lxor alaw 0x55) in
  (* Extract fields *)
  let sign := Z.land alaw 0x80 in
  let exponent := Z.land (Z.shiftr alaw 4) 0x07 in
  let mantissa := Z.land alaw 0x0F in
  (* Reconstruct sample *)
  let sample :=
    if exponent =? 0 then Z.shiftl mantissa 4 + 8
    else Z.shiftl (Z.shiftl mantissa 4 + 264) (exponent - 1) in
  s16 (if negb (sign =? 0) then - sample else sample).

Definition MULAW_BIAS : Z := 0x84.
Definition MULAW_CLIP : Z := 32635.

(** The [for (exponent = 7; exponent > 0; exponent--)] search of
    [mulaw_encode_sample], entered at [exponent]. *)
Fixpoint mulaw_exponent_loop (fuel : nat) (exponent sample : Z) : Z :=
  match fuel with
  | O => exponent
  | S fuel' =>
      if 0 <? exponent then
        if negb (Z.land sample (Z.shiftl 1 (exponent + 7)) =? 0) then exponent
        else mulaw_exponent_loop fuel' (exponent - 1) sample
      else exponent
  end.

Definition mulaw_encode_sample (pcm : Z) : Z :=
  (* Get sign and make sample positive *)
  let sign := Z.land (Z.shiftr pcm 8) 0x80 in
  let pcm := if negb (sign =? 0) then s16 (- pcm) else pcm in
  (* Clip to maximum *)
  let pcm := if MULAW_CLIP <? pcm then MULAW_CLIP else pcm in
  (* Add bias for compression *)
  let sample := pcm + MULAW_BIAS in
  (* Find exponent (position of highest bit) *)
  let exponent := mulaw_exponent_loop 8 7 sample in
  (* Extract mantissa *)
  let mantissa := Z.land (Z.shiftr sample (exponent + 3)) 0x0F in
  (* Combine and invert (mu-law inverts all bits) *)
  u8 (Z.lnot (Z.lor (Z.lor sign (Z.shiftl exponent 4)) mantissa)).

Definition mulaw_decode_sample (mulaw : Z) : Z :=
  (* Invert bits (mu-law stores inverted) *)
  let mulaw := u8 (Z.lnot mulaw) in
  (* Extract fields *)
  let sign := Z.land mulaw 0x80 in
  let exponent := Z.land (Z.shiftr mulaw 4) 0x07 in
  let mantissa := Z.land mulaw 0x0F in
  (* Reconstruct sample *)
  let sample := Z.shiftl (Z.shiftl mantissa 3 + MULAW_BIAS) exponent in
  let sample := sample - MULAW_BIAS in
  s16 (if negb (sign =? 0) then - sample else sample).

(** An [int16_t] array seen as bytes on a little-endian host. *)
Fixpoint bytes_of_samples (samples : list Z) : list Z :=
  match samples with
  | [] => []
  | s :: rest =>
      Z.land s 0xFF :: Z.land (Z.shiftr s 8) 0xFF :: bytes_of_samples rest
  end.

(** ** G.711 adapters (src/codec_alaw.c, src/codec_mulaw.c) *)

(** [struct alaw_codec_data] and [struct mulaw_codec_data]: the decoder's
    input buffer. *)
Record g711_codec_data : Type := mk_g711_codec_data {
  g711_input_buf : mux_buffer
}.

(** src/codec_mulaw.c is src/codec_alaw.c with [alaw] renamed to [mulaw]
    from the encoder constructor on; the adapter functions are given once,
    over the sample conversions, and instantiated for each file below. *)
Section G711.

Variable alloc_ok : Z -> bool.

(** What [codec_data] of an encoder points to; the adapters leave it
    null. *)
Variable E : Type.

Variable encode_sample : Z -> Z.
Variable decode_sample : Z -> Z.

Definition enc_with_output (enc : mux_encoder E) (b : mux_buffer)
  : mux_encoder E :=
  mk_encoder (enc_codec_type enc) (enc_ops enc) (enc_sample_rate enc)
             (enc_num_channels enc) (enc_num_streams enc) b
             (enc_error enc) (enc_codec_data enc).

(** [input] holds at least [input_size] bytes.  [None] only if the varint
    encoder ran out of fuel. *)
Definition g711_encoder_encode (enc : mux_encoder E)
    (input : option (list Z)) (input_size stream_type : Z)
  : option (encode_outcome E) :=
  match input with
  | None => Some (mk_encode_outcome MUX_ERROR_INVAL enc None)
  | Some bytes =>
      if input_size =? 0
      then Some (mk_encode_outcome MUX_OK enc (Some 0))
      else if stream_type =? MUX_STREAM_AUDIO then
        (* Input is 16-bit samples *)
        let num_samples := input_size / 2 in
        if num_samples =? 0
        then Some (mk_encode_outcome MUX_OK enc (Some 0))
        else if negb (alloc_ok num_samples)
        then Some (mk_encode_outcome MUX_ERROR_NOMEM enc None)
        else
          let pcm_in := samples_of_bytes bytes in
          let alaw_out :=
            map encode_sample (firstn (Z.to_nat num_samples) pcm_in) in
          (* Write LEB128-framed packet *)
          match mux_leb128_write_frame alloc_ok (enc_output enc)
                  (Some alaw_out) num_samples stream_type
                  (enc_num_streams enc) with
          | None => None
          | Some (ret, out) =>
              if negb (ret =? MUX_OK)
              then Some (mk_encode_outcome ret (enc_with_output enc out) None)
              else Some (mk_encode_outcome MUX_OK (enc_with_output enc out)
                           (Some (u64 (num_samples * 2))))
          end
      else
        (* Side channel: pass through unchanged *)
        match mux_leb128_write_frame alloc_ok (enc_output enc) input
                input_size stream_type (enc_num_streams enc) with
        | None => None
        | Some (ret, out) =>
            if negb (ret =? MUX_OK)
            then Some (mk_encode_outcome ret (enc_with_output enc out) None)
            else Some (mk_encode_outcome MUX_OK (enc_with_output enc out)
                         (Some input_size))
        end
  end.

Definition g711_encoder_read (enc : mux_encoder E) (output : bool)
    (output_size : Z) : encoder_read_outcome E :=
  if negb output
  then mk_encoder_read_outcome MUX_ERROR_INVAL enc None None
  else
    let r := mux_buffer_read (enc_output enc) output output_size in
    if negb (rr_ret r =? MUX_OK)
    then mk_encoder_read_outcome (rr_ret r)
           (enc_with_output enc (rr_buf r)) (rr_copied r) (Some 0)
    else mk_encoder_read_outcome MUX_OK
           (enc_with_output enc (rr_buf r)) (rr_copied r)
           (Some (rr_bytes_read r)).

Definition g711_decoder := mux_decoder g711_codec_data.

Definition dec_with_input_buf (dec : g711_decoder) (b : mux_buffer)
  : g711_decoder :=
  mk_decoder (dec_codec_type dec) (dec_ops dec) (dec_num_streams dec)
             (audio_output dec) (side_output dec) (dec_error dec)
             (Some (mk_g711_codec_data b)).

(** The [while (1)] loop of the decoder.  [input_buf] is
    [data->input_buf]; [frame_buf_capacity], [frame_size] and
    [stream_type] are the locals of those names, the last two holding
    whatever they held before where [mux_leb128_read_frame] stores
    nothing.  [frame_buf] is read below [frame_size] only, after a read
    that returned [MUX_OK] and so stored exactly those bytes; the model
    carries them and not the rest of the allocation.  A read that returns
    [MUX_OK] consumes at least one byte, so one turn more than the number
    of unread bytes is enough; [None] only when [fuel] runs out. *)
Fixpoint g711_decode_loop (fuel : nat) (dec : g711_decoder)
    (input_buf : mux_buffer) (frame_buf_capacity frame_size stream_type : Z)
  : option (Z * g711_decoder) :=
  match fuel with
  | O => None
  | S fuel' =>
      let r := mux_leb128_read_frame input_buf true frame_buf_capacity
                                     (dec_num_streams dec) in
      let frame_size :=
        match fr_payload_size r with Some n => n | None => frame_size end in
      let stream_type :=
        match fr_stream_type r with Some s => s | None => stream_type end in
      if fr_ret r =? MUX_ERROR_AGAIN
      then Some (MUX_OK, dec_with_input_buf dec (fr_buf r))
      else
        let retry :=
          (fr_ret r =? MUX_ERROR_INVAL)
          && (frame_buf_capacity <? frame_size) in
        if retry && negb (alloc_ok frame_size)
        then Some (MUX_ERROR_NOMEM, dec_with_input_buf dec (fr_buf r))
        else
          let frame_buf_capacity :=
            if retry then frame_size else frame_buf_capacity in
          let r :=
            if retry
            then mux_leb128_read_frame (fr_buf r) true frame_buf_capacity
                                       (dec_num_streams dec)
            else r in
          let frame_size :=
            match fr_payload_size r with Some n => n | None => frame_size end in
          let stream_type :=
            match fr_stream_type r with
            | Some s => s
            | None => stream_type
            end in
          if negb (fr_ret r =? MUX_OK)
          then Some (fr_ret r, dec_with_input_buf dec (fr_buf r))
          else
            let frame_buf :=
              match fr_payload r with Some bytes => bytes | None => [] end in
            let dec1 := dec_with_input_buf dec (fr_buf r) in
            if stream_type =? MUX_STREAM_AUDIO then
              (* Convert to 16-bit PCM *)
              if negb (alloc_ok (u64 (frame_size * 2)))
              then Some (MUX_ERROR_NOMEM, dec1)
              else
                let pcm_out :=
                  map decode_sample
                      (firstn (Z.to_nat frame_size) frame_buf) in
                let (ret, out) :=
                  mux_buffer_write alloc_ok (audio_output dec1)
                    (Some (bytes_of_samples pcm_out))
                    (u64 (frame_size * 2)) in
                if negb (ret =? MUX_OK)
                then Some (ret, with_audio_output g711_codec_data dec1 out)
                else g711_decode_loop fuel'
                       (with_audio_output g711_codec_data dec1 out)
                       (fr_buf r) frame_buf_capacity frame_size stream_type
            else
              let (ret, out) :=
                mux_buffer_write alloc_ok (side_output dec1)
                  (Some frame_buf) frame_size in
              if negb (ret =? MUX_OK)
              then Some (ret, with_side_output g711_codec_data dec1 out)
              else g711_decode_loop fuel'
                     (with_side_output g711_codec_data dec1 out)
                     (fr_buf r) frame_buf_capacity frame_size stream_type
  end.

(** [frame_size0] and [stream_type0] are what the uninitialised locals
    [frame_size] and [stream_type] hold on entry. *)
Definition g711_decoder_decode (frame_size0 stream_type0 : Z)
    (dec : g711_decoder) (input : option (list Z)) (input_size : Z)
  : option (decode_outcome g711_codec_data) :=
  match input, dec_codec_data dec with
  | None, _ => Some (mk_decode_outcome MUX_ERROR_INVAL dec None)
  | Some _, None => Some (mk_decode_outcome MUX_ERROR_INVAL dec None)
  | Some _, Some data =>
      let frame_buf_capacity := 8192 in
      if negb (alloc_ok frame_buf_capacity)
      then Some (mk_decode_outcome MUX_ERROR_NOMEM dec None)
      else
        let (ret, input_buf) :=
          mux_buffer_write alloc_ok (g711_input_buf data) input input_size in
        if negb (ret =? MUX_OK)
        then Some (mk_decode_outcome ret (dec_with_input_buf dec input_buf)
                                     None)
        else
          let consumed := input_size in
          match g711_decode_loop
                  (S (Z.to_nat (u64 (size input_buf - read_pos input_buf))))
                  dec input_buf frame_buf_capacity frame_size0 stream_type0
          with
          | None => None
          | Some (ret, dec1) =>
              if negb (ret =? MUX_OK)
              then Some (mk_decode_outcome ret dec1 None)
              else Some (mk_decode_outcome MUX_OK dec1 (Some consumed))
          end
  end.

(** The constructor of the decoder: the result and the decoder
    afterwards.  [calloc] is asked for the [sizeof_data] bytes of the
    state. *)
Definition g711_decoder_init (sizeof_data : Z) (dec : g711_decoder)
  : Z * g711_decoder :=
  if negb (alloc_ok sizeof_data) then (MUX_ERROR_NOMEM, dec)
  else
    let (ret, input_buf) := mux_buffer_init alloc_ok 4096 in
    if negb (ret =? MUX_OK) then (MUX_ERROR_NOMEM, dec)
    else (MUX_OK, dec_with_input_buf dec input_buf).

Definition g711_decoder_deinit (dec : g711_decoder) : g711_decoder :=
  match dec_codec_data dec with
  | None => dec
  | Some _ =>
      mk_decoder (dec_codec_type dec) (dec_ops dec) (dec_num_streams dec)
                 (audio_output dec) (side_output dec) (dec_error dec) None
  end.

End G711.

Arguments enc_with_output {E}.

Definition alaw_encoder_encode (alloc_ok : Z -> bool) (E : Type) :=
  g711_encoder_encode alloc_ok E alaw_encode_sample.
Definition alaw_encoder_read (E : Type) := g711_encoder_read E.
Definition alaw_decoder_decode (alloc_ok : Z -> bool) :=
  g711_decoder_decode alloc_ok alaw_decode_sample.
Definition alaw_decoder_init := g711_decoder_init.
Definition alaw_decoder_deinit := g711_decoder_deinit.

Definition mulaw_encoder_encode (alloc_ok : Z -> bool) (E : Type) :=
  g711_encoder_encode alloc_ok E mulaw_encode_sample.
Definition mulaw_encoder_read (E : Type) := g711_encoder_read E.
Definition mulaw_decoder_decode (alloc_ok : Z -> bool) :=
  g711_decoder_decode alloc_ok mulaw_decode_sample.
Definition mulaw_decoder_init := g711_decoder_init.
Definition mulaw_decoder_deinit := g711_decoder_deinit.

(** * Vocabulary of the properties *)

(** The byte-buffer invariant. *)
Definition buf_inv (b : mux_buffer) : Prop :=
  0 <= read_pos b /\ read_pos b <= size b /\ size b <= capacity b.

(** A buffer as it exists in memory: the invariant, allocated storage of
    [capacity] bytes, and sizes that are [size_t] values. *)
Definition buf_ok (b : mux_buffer) : Prop :=
  buf_inv b /\ data b <> None /\
  Z.of_nat (length (storage b)) = capacity b /\ capacity b < U64_MOD.

(** The bytes written and not yet consumed. *)
Definition unread (b : mux_buffer) : list Z :=
  bytes_at (storage b) (read_pos b) (size b - read_pos b).

(** The operations of the buffer API. *)
Inductive buffer_op : Type :=
| Op_write (src : option (list Z)) (n : Z)
| Op_read (dst : bool) (n : Z)
| Op_clear.

Definition run_op (alloc_ok : Z -> bool) (b : mux_buffer) (op : buffer_op)
  : mux_buffer :=
  match op with
  | Op_write src n => snd (mux_buffer_write alloc_ok b src n)
  | Op_read dst n => rr_buf (mux_buffer_read b dst n)
  | Op_clear => mux_buffer_clear b
  end.

Definition run_ops (alloc_ok : Z -> bool) (b : mux_buffer)
    (ops : list buffer_op) : mux_buffer :=
  fold_left (run_op alloc_ok) ops b.

(** The sizes passed are [size_t] values, and a region that is appended
    lies in the same address space as the bytes already held. *)
Definition op_fits (b : mux_buffer) (op : buffer_op) : Prop :=
  match op with
  | Op_write _ n => 0 <= n /\ size b + n < U64_MOD
  | Op_read _ n => 0 <= n < U64_MOD
  | Op_clear => True
  end.

Fixpoint ops_fit (alloc_ok : Z -> bool) (b : mux_buffer)
    (ops : list buffer_op) : Prop :=
  match ops with
  | [] => True
  | op :: rest => op_fits b op /\ ops_fit alloc_ok (run_op alloc_ok b op) rest
  end.

(** Unsigned LEB128 as the spec words it: the value in 7-bit groups, low
    order first, the continuation bit set on every byte except the last.
    [k] bounds the number of groups. *)
Fixpoint leb128_groups (k : nat) (v : Z) : list Z :=
  match k with
  | O => []
  | S k' =>
      if v / 128 =? 0 then [v mod 128]
      else (v mod 128 + 128) :: leb128_groups k' (v / 128)
  end.

Definition leb128_bytes (v : Z) : list Z := leb128_groups 64 v.

(** A byte whose continuation bit is set. *)
Definition continues (byte : Z) : bool := negb (Z.land byte 0x80 =? 0).

(** The bytes a destination received; nothing if no copy was made. *)
Definition stored (o : option (list Z)) : list Z :=
  match o with
  | Some bytes => bytes
  | None => []
  end.

(** A dual-stream frame on the wire: the varint of
    [(payload_length << 1) | stream_bit], then the payload. *)
Definition frame_header (payload_length stream_bit : Z) : list Z :=
  leb128_bytes (2 * payload_length + stream_bit).

Definition frame_wire (stream_bit : Z) (payload : list Z) : list Z :=
  frame_header (Z.of_nat (length payload)) stream_bit ++ payload.

(** What a mode puts on the wire for one payload. *)
Definition wire (num_streams stream_bit : Z) (payload : list Z) : list Z :=
  if num_streams =? 1 then payload else frame_wire stream_bit payload.

(** No terminating byte among the bytes at hand, and still room for one
    within the nine bytes the decoder accepts. *)
Definition header_incomplete (bytes : list Z) : bool :=
  forallb continues bytes && (Z.of_nat (length bytes) <? 10).

(** The unread region does not hold a whole frame yet. *)
Definition frame_incomplete (b : mux_buffer) : Prop :=
  header_incomplete (unread b) = true \/
  exists length_with_stream leb128_bytes : Z,
    mux_leb128_decode (Some (unread b)) =
      mk_decode_result MUX_OK (Some length_with_stream) (Some leb128_bytes) /\
    Z.of_nat (length (unread b)) < leb128_bytes + Z.shiftr length_with_stream 1.

(** The unread region starts with a whole frame. *)
Definition frame_complete (b : mux_buffer) (length_with_stream leb128_bytes : Z)
  : Prop :=
  mux_leb128_decode (Some (unread b)) =
    mk_decode_result MUX_OK (Some length_with_stream) (Some leb128_bytes) /\
  leb128_bytes + Z.shiftr length_with_stream 1 <= Z.of_nat (length (unread b)).

(** A reader that is fed the wire bytes chunk by chunk: append the chunk to
    the input buffer, try to read a frame, go on while the answer is "need
    more data".  The first other answer is the result; [None] if the chunks
    run out first. *)
Fixpoint feed_until_frame (alloc_ok : Z -> bool) (input : mux_buffer)
    (chunks : list (list Z)) (payload_capacity : Z) : option frame_result :=
  match chunks with
  | [] => None
  | chunk :: rest =>
      let (ret, input1) :=
        mux_buffer_write alloc_ok input (Some chunk)
                         (Z.of_nat (length chunk)) in
      if negb (ret =? MUX_OK)
      then Some (mk_frame_result ret input1 None None None)
      else
        let r := mux_leb128_read_frame input1 true payload_capacity 2 in
        if fr_ret r =? MUX_ERROR_AGAIN
        then feed_until_frame alloc_ok (fr_buf r) rest payload_capacity
        else Some r
  end.

(** The emptiness test of the readers: [size - read_pos], as a [size_t],
    is not zero. *)
Definition non_empty (b : mux_buffer) : Prop :=
  u64 (size b - read_pos b) <> 0.

(** The codec's adapter is left out of the build. *)
Definition not_compiled_in (cfg : build_config) (type : Z) : bool :=
  ((type =? MUX_CODEC_OPUS) && negb (HAVE_OPUS cfg))
  || ((type =? MUX_CODEC_VORBIS) && negb (HAVE_VORBIS cfg))
  || ((type =? MUX_CODEC_FLAC) && negb (HAVE_FLAC cfg))
  || ((type =? MUX_CODEC_MP3) && negb (HAVE_MP3 cfg))
  || ((type =? MUX_CODEC_AAC) && negb (HAVE_AAC cfg))
  || ((type =? MUX_CODEC_AMR) && negb (HAVE_AMR cfg))
  || ((type =? MUX_CODEC_AMR_WB) && negb (HAVE_AMR_WB cfg)).

(** The identifier has no operations table: it is outside the registered
    range, or its native library is not compiled in. *)
Definition entry_absent (cfg : build_config) (type : Z) : Prop :=
  type < 0 \/ MUX_CODEC_MAX <= type \/ not_compiled_in cfg type = true.

Section DecoderReadVocabulary.

Variable D : Type.

(** What the three readers have in common when audio is waiting. *)
Definition surfaces_audio (read : mux_decoder D -> bool -> Z ->
                                  decoder_read_result D)
    (dec : mux_decoder D) (output_size : Z) : Prop :=
  let r := read dec true output_size in
  let a := mux_buffer_read (audio_output dec) true output_size in
  ddr_ret r = MUX_OK /\
  ddr_stream_type r = Some MUX_STREAM_AUDIO /\
  ddr_output r = rr_copied a /\
  ddr_output_written r = Some (rr_bytes_read a) /\
  (exists k : Z,
     rr_copied a =
       Some (bytes_at (storage (audio_output dec))
                      (read_pos (audio_output dec)) k)) /\
  audio_output (ddr_dec r) = rr_buf a /\
  side_output (ddr_dec r) = side_output dec.

(** A reader hands out side-channel bytes only if no audio is waiting. *)
Definition side_only_when_audio_empty
    (read : mux_decoder D -> bool -> Z -> decoder_read_result D) : Prop :=
  forall (dec : mux_decoder D) (output : bool) (output_size : Z),
    ddr_stream_type (read dec output output_size) =
      Some MUX_STREAM_SIDE_CHANNEL ->
    u64 (size (audio_output dec) - read_pos (audio_output dec)) = 0 /\
    non_empty (side_output dec).

End DecoderReadVocabulary.

Arguments surfaces_audio {D}.
Arguments side_only_when_audio_empty {D}.

(** The position of an adapter's table in the registry. *)
Definition codec_of_ops (o : ops_addr) : Z :=
  match o with
  | mux_codec_pcm_ops => MUX_CODEC_PCM
  | mux_codec_opus_ops => MUX_CODEC_OPUS
  | mux_codec_vorbis_ops => MUX_CODEC_VORBIS
  | mux_codec_flac_ops => MUX_CODEC_FLAC
  | mux_codec_mp3_ops => MUX_CODEC_MP3
  | mux_codec_aac_ops => MUX_CODEC_AAC
  | mux_codec_alaw_ops => MUX_CODEC_ALAW
  | mux_codec_mulaw_ops => MUX_CODEC_MULAW
  | mux_codec_amr_ops => MUX_CODEC_AMR
  | mux_codec_amr_wb_ops => MUX_CODEC_AMR_WB
  end.

(** [p] holds at each of the [2 ^ k] integers from [lo] on. *)
Fixpoint holds_on_block (k : nat) (lo : Z) (p : Z -> bool) : bool :=
  match k with
  | O => p lo
  | S k' =>
      holds_on_block k' lo p && holds_on_block k' (lo + 2 ^ Z.of_nat k') p
  end.

(** A sample through the encoder and back through the decoder. *)
Definition alaw_there_and_back (pcm : Z) : Z :=
  alaw_decode_sample (alaw_encode_sample pcm).

Definition mulaw_there_and_back (pcm : Z) : Z :=
  mulaw_decode_sample (mulaw_encode_sample pcm).

(** A sequence of dual-stream frames, each a stream bit and a payload,
    as it travels; the audio bytes a decoder is to produce from it, and
    the side-channel bytes. *)
Definition frames_wire (frames : list (Z * list Z)) : list Z :=
  concat (map (fun f => frame_wire (fst f) (snd f)) frames).

Definition audio_of_frames (decode_sample : Z -> Z)
    (frames : list (Z * list Z)) : list Z :=
  concat (map (fun f =>
                 if fst f =? MUX_STREAM_AUDIO
                 then bytes_of_samples (map decode_sample (snd f))
                 else []) frames).

Definition side_of_frames (frames : list (Z * list Z)) : list Z :=
  concat (map (fun f =>
                 if fst f =? MUX_STREAM_AUDIO then [] else snd f) frames).

(** Every frame of the sequence has a stream bit and a payload length
    that fits the length field. *)
Definition frames_fit (frames : list (Z * list Z)) : Prop :=
  Forall (fun f => (fst f = 0 \/ fst f = 1) /\
                   Z.of_nat (length (snd f)) < 2 ^ 62) frames.

(** The bytes are the beginning of a frame and not all of it; no bytes at
    all are such a beginning. *)
Definition frame_begun (bytes : list Z) : Prop :=
  exists (st : Z) (P R : list Z),
    (st = 0 \/ st = 1) /\ Z.of_nat (length P) < 2 ^ 62 /\
    R <> [] /\ bytes ++ R = frame_wire st P.

(** A decoder that is handed the stream chunk by chunk, one [decode] call
    per chunk, as long as the calls return [MUX_OK]: the last result and
    the decoder afterwards.  [None] only if a call ran out of fuel. *)
Fixpoint g711_decode_chunks (alloc_ok : Z -> bool) (decode_sample : Z -> Z)
    (frame_size0 stream_type0 : Z) (dec : g711_decoder)
    (chunks : list (list Z)) : option (Z * g711_decoder) :=
  match chunks with
  | [] => Some (MUX_OK, dec)
  | chunk :: rest =>
      match g711_decoder_decode alloc_ok decode_sample frame_size0
              stream_type0 dec (Some chunk) (Z.of_nat (length chunk)) with
      | None => None
      | Some r =>
          if do_ret r =? MUX_OK
          then g711_decode_chunks alloc_ok decode_sample frame_size0
                 stream_type0 (do_dec r) rest
          else Some (do_ret r, do_dec r)
      end
  end.

Section AmrVocabulary.

Variable amr_state : Type.
Variable Encoder_Interface_Encode :
  amr_state -> Z -> list Z -> Z -> amr_state * Z * list Z.

(** What the native encoder makes of a stream of samples taken 160 at a
    time, for [n] frames: the frames, each the first [frame_size] bytes of
    the array the encoder filled, and the encoder's state afterwards. *)
Fixpoint amr_frames_of (n : nat) (st : amr_state) (mode : Z)
    (pcm : list Z) : list (list Z) * amr_state :=
  match n with
  | O => ([], st)
  | S n' =>
      let '(st1, frame_size, frame_buf) :=
        Encoder_Interface_Encode st mode (firstn 160 pcm) 0 in
      let (frames, st2) := amr_frames_of n' st1 mode (skipn 160 pcm) in
      (firstn (Z.to_nat frame_size) frame_buf :: frames, st2)
  end.

(** The native encoder returns a frame size between 0 and the 32 bytes
    of its output array. *)
Definition native_encoder_in_range : Prop :=
  forall (st : amr_state) (mode : Z) (speech : list Z),
    length speech = 160%nat ->
    let '(_, frame_size, frame_buf) :=
      Encoder_Interface_Encode st mode speech 0 in
    0 <= frame_size <= AMR_MAX_FRAME_SIZE /\ length frame_buf = 32%nat.

End AmrVocabulary.

Arguments amr_frames_of {amr_state}.
Arguments native_encoder_in_range {amr_state}.

(** [ok] holds of [f] at each of the [n] integers from [x] on, and below
    [last] the value of [f] does not decrease from any of them to the
    next; [y] is [f x], so that [f] is computed once per integer. *)
Fixpoint holds_along (n : nat) (f : Z -> Z) (ok : Z -> Z -> bool)
    (last x y : Z) : bool :=
  match n with
  | O => true
  | S n' =>
      let y' := f (x + 1) in
      ok x y && ((last <=? x) || (y <=? y'))
      && holds_along n' f ok last (x + 1) y'
  end.

(** * Properties *)

(** ** Machine arithmetic *)

Lemma u64_small (x : Z) : 0 <= x < U64_MOD -> u64 x = x.
Proof. intros H. unfold u64. apply Z.mod_small. exact H. Qed.

Lemma U64_MOD_eq : U64_MOD = 18446744073709551616.
Proof. reflexivity. Qed.

(** Closed comparisons and equations between numerals. *)
Ltac by_computation :=
  vm_compute; first [reflexivity | discriminate | intro; discriminate].

(** ** Byte buffer *)

Section BufferProps.

Variable alloc_ok : Z -> bool.

Lemma init_inv (initial_capacity : Z) :
  buf_inv (snd (mux_buffer_init alloc_ok initial_capacity)).
Proof.
  unfold mux_buffer_init, buf_inv.
  destruct (0 <? initial_capacity) eqn:Hc.
  - apply Z.ltb_lt in Hc. destruct (alloc_ok initial_capacity); simpl; lia.
  - simpl; lia.
Qed.

Lemma ensure_capacity_spec (b : mux_buffer) (needed : Z) :
  let r := mux_buffer_ensure_capacity alloc_ok b needed in
  (fst r = MUX_OK /\ needed <= capacity (snd r) /\
   size (snd r) = size b /\ read_pos (snd r) = read_pos b /\
   capacity b <= capacity (snd r))
  \/ (fst r = MUX_ERROR_NOMEM /\ snd r = b).
Proof.
  unfold mux_buffer_ensure_capacity.
  destruct (needed <=? capacity b) eqn:Hn.
  - apply Z.leb_le in Hn. left. simpl. repeat split; lia.
  - apply Z.leb_gt in Hn.
    set (grown := u64 (capacity b + Z.shiftr (capacity b) 1)).
    destruct (grown <? needed) eqn:Hg.
    + destruct (alloc_ok needed); simpl; [left | right]; repeat split; lia.
    + apply Z.ltb_ge in Hg.
      destruct (alloc_ok grown); simpl; [left | right]; repeat split; lia.
Qed.

Lemma write_inv (b : mux_buffer) (src : option (list Z)) (n : Z) :
  buf_inv b -> 0 <= n -> size b + n < U64_MOD ->
  buf_inv (snd (mux_buffer_write alloc_ok b src n)).
Proof.
  intros (Hr & Hs & Hc) Hn Hfit. unfold mux_buffer_write.
  destruct src as [bytes|]; [| simpl; repeat split; assumption].
  destruct (n =? 0); [simpl; repeat split; assumption |].
  rewrite (u64_small (size b + n)) by lia.
  pose proof (ensure_capacity_spec b (size b + n)) as Hens.
  destruct (mux_buffer_ensure_capacity alloc_ok b (size b + n)) as [ret b1].
  simpl in Hens.
  destruct Hens as [(-> & Hcap & Hsz & Hrp & _) | (-> & ->)].
  - simpl. unfold buf_inv; simpl. rewrite Hsz, Hrp.
    rewrite u64_small by lia. lia.
  - simpl. repeat split; assumption.
Qed.

Lemma reset_if_drained_inv (b : mux_buffer) :
  buf_inv b -> buf_inv (reset_if_drained b).
Proof.
  intros (Hr & Hs & Hc). unfold reset_if_drained.
  destruct (read_pos b =? size b); unfold buf_inv; simpl; lia.
Qed.

Lemma read_inv (b : mux_buffer) (dst : bool) (n : Z) :
  buf_inv b -> 0 <= n -> size b < U64_MOD ->
  buf_inv (rr_buf (mux_buffer_read b dst n)).
Proof.
  intros (Hr & Hs & Hc) Hn Hsz. unfold mux_buffer_read.
  rewrite (u64_small (size b - read_pos b)) by lia.
  destruct (size b - read_pos b =? 0); [simpl; repeat split; assumption |].
  simpl. apply reset_if_drained_inv. unfold advance, buf_inv; simpl.
  destruct (size b - read_pos b <? n) eqn:Hlt;
    [apply Z.ltb_lt in Hlt | apply Z.ltb_ge in Hlt];
    rewrite u64_small by lia; lia.
Qed.

Lemma clear_inv (b : mux_buffer) :
  buf_inv b -> buf_inv (mux_buffer_clear b).
Proof. intros (Hr & Hs & Hc). unfold mux_buffer_clear, buf_inv; simpl. lia. Qed.

Lemma run_op_inv (b : mux_buffer) (op : buffer_op) :
  buf_inv b /\ size b < U64_MOD -> op_fits b op ->
  buf_inv (run_op alloc_ok b op) /\ size (run_op alloc_ok b op) < U64_MOD.
Proof.
  intros [Hinv Hsz] Hfit. destruct op as [src n | dst n |]; simpl in *.
  - split; [apply write_inv; tauto |].
    destruct Hfit as [Hn Hfit]. unfold mux_buffer_write.
    destruct src as [bytes|]; [| assumption].
    destruct (n =? 0); [assumption |].
    pose proof (ensure_capacity_spec b (u64 (size b + n))) as Hens.
    destruct (mux_buffer_ensure_capacity alloc_ok b (u64 (size b + n)))
      as [ret b1].
    simpl in Hens.
    destruct Hens as [(-> & _ & Hs1 & _) | (-> & ->)]; simpl;
      [| assumption].
    unfold u64. apply Z.mod_pos_bound. reflexivity.
  - split; [apply read_inv; tauto || lia |].
    unfold mux_buffer_read.
    destruct (u64 (size b - read_pos b) =? 0); [assumption |].
    simpl. unfold reset_if_drained, advance; simpl.
    destruct (u64 (read_pos b + _) =? size b); simpl;
      [rewrite U64_MOD_eq; lia | assumption].
  - split; [apply clear_inv; assumption | simpl; rewrite U64_MOD_eq; lia].
Qed.

Lemma run_ops_inv (ops : list buffer_op) : forall b : mux_buffer,
  buf_inv b /\ size b < U64_MOD -> ops_fit alloc_ok b ops ->
  buf_inv (run_ops alloc_ok b ops).
Proof.
  induction ops as [| op rest IH]; intros b Hb Hfit.
  - exact (proj1 Hb).
  - destruct Hfit as [Hop Hrest]. unfold run_ops; simpl.
    apply IH; [apply run_op_inv; assumption | exact Hrest].
Qed.

(** C8. After [mux_buffer_init], and after every further sequence of
    writes, reads and clears whose arguments are [size_t] values that fit
    the address space, [read_pos <= size <= capacity] holds. *)
Theorem buffer_invariant_preserved (initial_capacity : Z)
    (ops : list buffer_op) :
  let b0 := snd (mux_buffer_init alloc_ok initial_capacity) in
  ops_fit alloc_ok b0 ops ->
  buf_inv b0 /\ buf_inv (run_ops alloc_ok b0 ops).
Proof.
  intros b0 Hfit. split; [apply init_inv |].
  apply run_ops_inv; [| exact Hfit].
  split; [apply init_inv |].
  unfold b0, mux_buffer_init.
  destruct (0 <? initial_capacity); [destruct (alloc_ok initial_capacity) |];
    simpl; rewrite U64_MOD_eq; lia.
Qed.

(** C10. On a non-empty buffer a read with a null destination returns
    [MUX_OK], reports [min (requested, available)] in [*bytes_read],
    stores nothing, and leaves the buffer exactly as the same read with
    a destination does: the position moves forward by that count, and
    position and size collapse to zero when the read drains the buffer. *)
Theorem buffer_read_null_destination_skips (b : mux_buffer) (n : Z) :
  buf_inv b -> size b < U64_MOD -> 0 <= n -> read_pos b < size b ->
  let k := Z.min n (size b - read_pos b) in
  let skipped := mux_buffer_read b false n in
  let copied := mux_buffer_read b true n in
  rr_ret skipped = MUX_OK /\
  rr_bytes_read skipped = k /\
  rr_copied skipped = None /\
  rr_ret copied = MUX_OK /\
  rr_bytes_read copied = k /\
  rr_copied copied = Some (bytes_at (storage b) (read_pos b) k) /\
  rr_buf skipped = rr_buf copied /\
  (k < size b - read_pos b ->
     read_pos (rr_buf skipped) = read_pos b + k /\
     size (rr_buf skipped) = size b) /\
  (k = size b - read_pos b ->
     read_pos (rr_buf skipped) = 0 /\ size (rr_buf skipped) = 0) /\
  data (rr_buf skipped) = data b /\
  capacity (rr_buf skipped) = capacity b.
Proof.
  intros (Hr & Hs & Hc) Hsz Hn Hne k skipped copied.
  unfold skipped, copied, mux_buffer_read.
  rewrite (u64_small (size b - read_pos b)) by lia.
  destruct (size b - read_pos b =? 0) eqn:Hz;
    [apply Z.eqb_eq in Hz; lia |].
  assert (Hk : (if size b - read_pos b <? n
                then size b - read_pos b else n) = k).
  { unfold k. destruct (size b - read_pos b <? n) eqn:Hlt;
      [apply Z.ltb_lt in Hlt | apply Z.ltb_ge in Hlt]; lia. }
  rewrite Hk. simpl.
  assert (Hk0 : 0 <= k <= size b - read_pos b) by (unfold k; lia).
  unfold reset_if_drained, advance; simpl.
  rewrite (u64_small (read_pos b + k)) by lia.
  repeat split; try reflexivity.
  - destruct (read_pos b + k =? size b) eqn:He;
      [apply Z.eqb_eq in He; lia | reflexivity].
  - destruct (read_pos b + k =? size b) eqn:He;
      [apply Z.eqb_eq in He; lia | reflexivity].
  - destruct (read_pos b + k =? size b) eqn:He;
      [reflexivity | apply Z.eqb_neq in He; lia].
  - destruct (read_pos b + k =? size b) eqn:He;
      [reflexivity | apply Z.eqb_neq in He; lia].
  - destruct (read_pos b + k =? size b); reflexivity.
  - destruct (read_pos b + k =? size b); reflexivity.
Qed.

End BufferProps.

Lemma buffer_invariant_preserved_witness :
  let ok := fun _ : Z => true in
  let ops := [Op_write (Some [1; 2; 3]) 3; Op_read true 2;
              Op_write (Some [4; 5; 6; 7]) 4; Op_read false 9; Op_clear] in
  buf_inv (snd (mux_buffer_init ok 4)) /\
  buf_inv (run_ops ok (snd (mux_buffer_init ok 4)) ops).
Proof.
  apply (buffer_invariant_preserved (fun _ => true) 4).
  vm_compute. intuition (try discriminate; auto).
Defined.

Lemma buffer_read_null_destination_skips_witness :
  let b := mk_buffer (Some [10; 20; 30; 40]) 3 4 1 in
  rr_ret (mux_buffer_read b false 1) = MUX_OK /\
  rr_bytes_read (mux_buffer_read b false 1) = 1 /\
  rr_copied (mux_buffer_read b false 1) = None /\
  read_pos (rr_buf (mux_buffer_read b false 1)) = 2.
Proof.
  intros b.
  assert (Hinv : buf_inv b) by (unfold buf_inv; simpl; lia).
  assert (Hsz : size b < U64_MOD) by (vm_compute; reflexivity).
  assert (Hn : 0 <= 1) by lia.
  assert (Hne : read_pos b < size b) by (simpl; lia).
  destruct (buffer_read_null_destination_skips b 1 Hinv Hsz Hn Hne)
    as (H1 & H2 & H3 & _ & _ & _ & _ & H8 & _).
  split; [exact H1 | split; [exact H2 | split; [exact H3 |]]].
  apply H8. vm_compute. reflexivity.
Defined.

(** ** LEB128 varints *)

Section BitFacts.

Lemma land_small_128 (m : Z) : 0 <= m < 128 -> Z.land m 128 = 0.
Proof.
  intros H. apply Z.bits_inj'. intros i Hi.
  rewrite Z.land_spec, Z.bits_0.
  destruct (Z.eq_dec i 7) as [-> | Hne].
  - replace (Z.testbit m 7) with false; [reflexivity |].
    symmetry. apply (Z.bits_above_log2 m 7); [lia |].
    destruct (Z.eq_dec m 0) as [-> | Hm]; [simpl; lia |].
    apply Z.log2_lt_pow2; lia.
  - replace (Z.testbit 128 i) with false; [apply andb_false_r |].
    symmetry. change 128 with (2 ^ 7). apply Z.pow2_bits_false. lia.
Qed.

Lemma lor_small_128 (m : Z) : 0 <= m < 128 -> Z.lor m 128 = m + 128.
Proof.
  intros H. rewrite <- Z.lxor_lor by (apply land_small_128; exact H).
  symmetry. apply Z.add_nocarry_lxor. apply land_small_128; exact H.
Qed.

Lemma land_127 (x : Z) : Z.land x 127 = x mod 128.
Proof. change 127 with (Z.ones 7). rewrite Z.land_ones by lia. reflexivity. Qed.

Lemma land_cont_127 (m : Z) : 0 <= m < 128 -> Z.land (m + 128) 127 = m.
Proof.
  intros H. rewrite land_127.
  rewrite <- (Z.mul_1_l 128) at 1. rewrite Z.mod_add by lia.
  apply Z.mod_small; lia.
Qed.

Lemma land_cont_128 (m : Z) : 0 <= m < 128 -> Z.land (m + 128) 128 = 128.
Proof.
  intros H. rewrite <- lor_small_128 by exact H.
  rewrite Z.land_lor_distr_l, land_small_128 by exact H. reflexivity.
Qed.

Lemma lor_disjoint (r m s : Z) :
  0 <= s -> 0 <= r < 2 ^ s -> 0 <= m -> Z.lor r (m * 2 ^ s) = r + m * 2 ^ s.
Proof.
  intros Hs Hr Hm.
  assert (Hland : Z.land r (m * 2 ^ s) = 0).
  { apply Z.bits_inj'. intros i Hi. rewrite Z.land_spec, Z.bits_0.
    destruct (Z_lt_le_dec i s) as [Hlt | Hge].
    - rewrite Z.mul_pow2_bits_low by lia. apply andb_false_r.
    - replace (Z.testbit r i) with false; [reflexivity |].
      symmetry. rewrite <- (Z.mod_small r (2 ^ s)) by lia.
      apply Z.mod_pow2_bits_high. lia. }
  rewrite <- Z.lxor_lor by exact Hland.
  symmetry. apply Z.add_nocarry_lxor. exact Hland.
Qed.

Lemma pow2_7_succ (k : Z) : 1 <= k -> 2 ^ (7 * k) = 128 * 2 ^ (7 * (k - 1)).
Proof.
  intros Hk. replace (7 * k) with (7 + 7 * (k - 1)) by lia.
  rewrite Z.pow_add_r by lia. reflexivity.
Qed.

Lemma div128_bound (v k : Z) :
  1 <= k -> 0 <= v < 2 ^ (7 * k) -> 0 <= v / 128 < 2 ^ (7 * (k - 1)).
Proof.
  intros Hk [Hv0 Hv]. rewrite pow2_7_succ in Hv by exact Hk. split.
  - apply Z.div_pos; lia.
  - apply Z.div_lt_upper_bound; lia.
Qed.

Lemma div128_zero (v : Z) : 0 <= v -> v / 128 = 0 -> v mod 128 = v.
Proof.
  intros Hv Hd. pose proof (Z.div_mod v 128 ltac:(lia)) as E.
  rewrite Hd in E. lia.
Qed.

End BitFacts.

Lemma encode_loop_step (fuel : nat) (value output_size count : Z)
    (output : list Z) :
  leb128_encode_loop (S fuel) value output_size count output =
  if output_size <=? count then Some (MUX_ERROR_INVAL, output)
  else if negb (Z.shiftr value 7 =? 0)
  then leb128_encode_loop fuel (Z.shiftr value 7) output_size (count + 1)
         (output ++ [Z.lor (Z.land value 0x7f) 0x80])
  else Some (count + 1, output ++ [Z.land value 0x7f]).
Proof.
  simpl. destruct (output_size <=? count); [reflexivity |].
  destruct (Z.shiftr value 7 =? 0); reflexivity.
Qed.

Lemma decode_loop_step (byte : Z) (rest : list Z) (result shift count : Z) :
  leb128_decode_loop (byte :: rest) result shift count =
  if 64 <=? shift + 7 then mk_decode_result MUX_ERROR_INVAL None None
  else if continues byte
  then leb128_decode_loop rest
         (Z.lor result (u64 (Z.shiftl (Z.land byte 0x7f) shift)))
         (shift + 7) (count + 1)
  else mk_decode_result MUX_OK
         (Some (Z.lor result (u64 (Z.shiftl (Z.land byte 0x7f) shift))))
         (Some (count + 1)).
Proof. reflexivity. Qed.

Lemma groups_length_le (fuel : nat) : forall k v : Z,
  1 <= k -> 0 <= v < 2 ^ (7 * k) ->
  Z.of_nat (length (leb128_groups fuel v)) <= k.
Proof.
  induction fuel as [| f IH]; intros k v Hk Hv; [simpl; lia |].
  cbn [leb128_groups]. destruct (v / 128 =? 0) eqn:Hd; [simpl; lia |].
  apply Z.eqb_neq in Hd. pose proof (div128_bound v k Hk Hv) as Hb.
  assert (Hk2 : 2 <= k).
  { destruct (Z.eq_dec k 1) as [-> | Hne]; [| lia].
    change (2 ^ (7 * (1 - 1))) with 1 in Hb. lia. }
  specialize (IH (k - 1) (v / 128) ltac:(lia) Hb).
  cbn [length]. lia.
Qed.

Lemma groups_length_pos (fuel : nat) (v : Z) :
  (1 <= fuel)%nat -> 1 <= Z.of_nat (length (leb128_groups fuel v)).
Proof.
  intros Hf. destruct fuel as [| f]; [lia |].
  cbn [leb128_groups]. destruct (v / 128 =? 0); cbn [length]; lia.
Qed.

Lemma encode_loop_groups (fuel : nat) : forall (v output_size count : Z)
    (output : list Z),
  (1 <= fuel)%nat -> 0 <= v < 2 ^ (7 * Z.of_nat fuel) ->
  count + Z.of_nat (length (leb128_groups fuel v)) <= output_size ->
  leb128_encode_loop fuel v output_size count output =
  Some (count + Z.of_nat (length (leb128_groups fuel v)),
        output ++ leb128_groups fuel v).
Proof.
  induction fuel as [| f IH]; intros v osz count out Hf Hv Hroom; [lia |].
  rewrite encode_loop_step.
  pose proof (groups_length_pos (S f) v Hf) as Hpos.
  destruct (osz <=? count) eqn:Hfull; [apply Z.leb_le in Hfull; lia |].
  rewrite Z.shiftr_div_pow2 by lia. change (2 ^ 7) with 128.
  change 0x7f with 127. rewrite land_127.
  cbn [leb128_groups] in *.
  destruct (v / 128 =? 0) eqn:Hd; cbn [negb].
  - reflexivity.
  - apply Z.eqb_neq in Hd.
    pose proof (Z.mod_pos_bound v 128 ltac:(lia)) as Hm.
    change 0x80 with 128. rewrite lor_small_128 by exact Hm.
    pose proof (div128_bound v (Z.of_nat (S f)) ltac:(lia) Hv) as Hb.
    replace (Z.of_nat (S f) - 1) with (Z.of_nat f) in Hb by lia.
    assert (Hf1 : (1 <= f)%nat).
    { destruct f as [| f']; [| lia]. change (2 ^ (7 * Z.of_nat 0)) with 1 in Hb. lia. }
    cbn [length] in Hroom.
    rewrite IH by (try assumption; lia).
    cbn [length]. rewrite <- app_assoc. cbn [app].
    f_equal. f_equal. lia.
Qed.

Lemma decode_groups (fuel : nat) : forall (v result shift count : Z)
    (rest : list Z),
  (1 <= fuel)%nat -> 0 <= v < 2 ^ (7 * Z.of_nat fuel) ->
  0 <= shift -> 0 <= result < 2 ^ shift ->
  shift + 7 * Z.of_nat (length (leb128_groups fuel v)) <= 63 ->
  leb128_decode_loop (leb128_groups fuel v ++ rest) result shift count =
  mk_decode_result MUX_OK (Some (result + v * 2 ^ shift))
    (Some (count + Z.of_nat (length (leb128_groups fuel v)))).
Proof.
  induction fuel as [| f IH]; intros v result shift count rest Hf Hv Hs Hr Hlen;
    [lia |].
  pose proof (Z.mod_pos_bound v 128 ltac:(lia)) as Hm.
  assert (Hpow : 2 ^ (shift + 7) = 128 * 2 ^ shift).
  { rewrite Z.pow_add_r by lia. change (2 ^ 7) with 128. lia. }
  assert (Hpow63 : 2 ^ (shift + 7) <= 2 ^ 63).
  { apply Z.pow_le_mono_r; [lia |].
    pose proof (groups_length_pos (S f) v Hf). lia. }
  assert (Hp : 0 < 2 ^ shift) by (apply Z.pow_pos_nonneg; lia).
  assert (Hgroup : forall byte, Z.land byte 127 = v mod 128 ->
            Z.lor result (u64 (Z.shiftl (Z.land byte 0x7f) shift)) =
            result + v mod 128 * 2 ^ shift).
  { intros byte Hb. change 0x7f with 127. rewrite Hb.
    rewrite Z.shiftl_mul_pow2 by lia.
    rewrite u64_small.
    - apply lor_disjoint; lia.
    - change (2 ^ 63) with 9223372036854775808 in Hpow63.
      rewrite U64_MOD_eq. nia. }
  cbn [leb128_groups] in *.
  destruct (v / 128 =? 0) eqn:Hd.
  - apply Z.eqb_eq in Hd. cbn [app length] in *.
    rewrite decode_loop_step.
    destruct (64 <=? shift + 7) eqn:Hov; [apply Z.leb_le in Hov; lia |].
    unfold continues. change 0x80 with 128.
    rewrite land_small_128 by exact Hm. cbn [Z.eqb negb].
    rewrite Hgroup by (rewrite land_127; apply Z.mod_mod; lia).
    rewrite (div128_zero v) by lia. f_equal.
  - apply Z.eqb_neq in Hd. cbn [app length] in *.
    rewrite decode_loop_step.
    destruct (64 <=? shift + 7) eqn:Hov; [apply Z.leb_le in Hov; lia |].
    unfold continues. change 0x80 with 128.
    rewrite land_cont_128 by exact Hm. cbn [Z.eqb negb].
    rewrite Hgroup by (apply land_cont_127; exact Hm).
    pose proof (div128_bound v (Z.of_nat (S f)) ltac:(lia) Hv) as Hb.
    replace (Z.of_nat (S f) - 1) with (Z.of_nat f) in Hb by lia.
    assert (Hf1 : (1 <= f)%nat).
    { destruct f as [| f']; [| lia]. change (2 ^ (7 * Z.of_nat 0)) with 1 in Hb. lia. }
    rewrite IH; try assumption; try lia.
    + f_equal; [| f_equal; lia]. f_equal. rewrite Hpow.
      pose proof (Z.div_mod v 128 ltac:(lia)) as E. nia.
    + rewrite Hpow. nia.
Qed.

Lemma groups_bound_64 (v : Z) : 0 <= v < 2 ^ 64 -> 0 <= v < 2 ^ (7 * Z.of_nat 64).
Proof.
  intros [H0 H1]. split; [exact H0 |].
  apply Z.lt_le_trans with (2 ^ 64); [exact H1 |].
  apply Z.pow_le_mono_r; lia.
Qed.

(** Encoding is total on 64-bit values, yields the LEB128 groups of the
    value, and needs at most ten bytes. *)
Lemma leb128_encode_total (v : Z) :
  0 <= v < 2 ^ 64 ->
  mux_leb128_encode v true 10 =
    Some (Z.of_nat (length (leb128_bytes v)), leb128_bytes v) /\
  1 <= Z.of_nat (length (leb128_bytes v)) <= 10.
Proof.
  intros Hv. unfold mux_leb128_encode, leb128_bytes. cbn [negb].
  assert (Hlen : Z.of_nat (length (leb128_groups 64 v)) <= 10).
  { apply groups_length_le; [lia |].
    split; [lia |]. apply Z.lt_le_trans with (2 ^ 64); [lia |].
    apply Z.pow_le_mono_r; lia. }
  split.
  - rewrite encode_loop_groups; [reflexivity | lia | | lia].
    apply groups_bound_64; exact Hv.
  - split; [apply groups_length_pos; lia | exact Hlen].
Qed.

Lemma leb128_bytes_short (v : Z) :
  0 <= v < 2 ^ 63 -> Z.of_nat (length (leb128_bytes v)) <= 9.
Proof. intros Hv. apply groups_length_le; [lia | exact Hv]. Qed.

(** Below [2 ^ 63] the decoder inverts the encoder, whatever follows the
    encoding in the input. *)
Lemma leb128_roundtrip_below_2_63 (v : Z) (rest : list Z) :
  0 <= v < 2 ^ 63 ->
  mux_leb128_decode (Some (leb128_bytes v ++ rest)) =
    mk_decode_result MUX_OK (Some v)
      (Some (Z.of_nat (length (leb128_bytes v)))).
Proof.
  intros Hv. unfold mux_leb128_decode, leb128_bytes.
  pose proof (leb128_bytes_short v Hv) as Hshort. unfold leb128_bytes in Hshort.
  rewrite decode_groups; try lia.
  f_equal. f_equal. change (2 ^ 0) with 1. lia.
Qed.

(** C1, the failing input.  The encoder turns [2 ^ 63] into ten bytes, as
    its ten-byte scratch array provides for, and the decoder answers those
    ten bytes with [MUX_ERROR_INVAL]: its overflow test runs after
    [shift += 7], so it fires on the tenth byte even when that byte ends
    the number. *)
Theorem leb128_decode_rejects_ten_byte_encoding :
  mux_leb128_encode (2 ^ 63) true 10 =
    Some (10, [128; 128; 128; 128; 128; 128; 128; 128; 128; 1]) /\
  mux_leb128_decode
    (Some [128; 128; 128; 128; 128; 128; 128; 128; 128; 1]) =
    mk_decode_result MUX_ERROR_INVAL None None.
Proof. split; vm_compute; reflexivity. Qed.

Lemma decode_all_continue (l : list Z) : forall result shift count : Z,
  forallb continues l = true -> shift + 7 * Z.of_nat (length l) <= 63 ->
  leb128_decode_loop l result shift count =
    mk_decode_result MUX_ERROR_AGAIN None None.
Proof.
  induction l as [| byte rest IH]; intros result shift count Hc Hlen;
    [reflexivity |].
  cbn [forallb] in Hc. apply andb_true_iff in Hc. destruct Hc as [Hb Hrest].
  rewrite decode_loop_step. cbn [length] in Hlen.
  destruct (64 <=? shift + 7) eqn:Hov; [apply Z.leb_le in Hov; lia |].
  rewrite Hb. apply IH; [exact Hrest | lia].
Qed.

Lemma groups_prefix_continue (fuel : nat) : forall (v : Z) (p q : list Z),
  0 <= v -> leb128_groups fuel v = p ++ q -> q <> [] ->
  forallb continues p = true.
Proof.
  induction fuel as [| f IH]; intros v p q Hv E Hq.
  - simpl in E. destruct p; [reflexivity | discriminate].
  - cbn [leb128_groups] in E.
    pose proof (Z.mod_pos_bound v 128 ltac:(lia)) as Hm.
    destruct (v / 128 =? 0).
    + destruct p as [| x p]; [reflexivity |].
      cbn [app] in E. injection E as _ E.
      destruct p; destruct q; try discriminate. contradiction.
    + destruct p as [| x p]; [reflexivity |].
      cbn [app] in E. injection E as Ex E. subst x.
      cbn [forallb]. unfold continues at 1. change 0x80 with 128.
      rewrite land_cont_128 by exact Hm. cbn [Z.eqb negb andb].
      apply (IH (v / 128) p q); [apply Z.div_pos; lia | exact E | exact Hq].
Qed.

Lemma groups_length_ge (fuel : nat) : forall (k : nat) (v : Z),
  (k < fuel)%nat -> 2 ^ (7 * Z.of_nat k) <= v ->
  (k + 1 <= length (leb128_groups fuel v))%nat.
Proof.
  induction fuel as [| f IH]; intros k v Hk Hv; [lia |].
  destruct k as [| k'].
  - pose proof (groups_length_pos (S f) v ltac:(lia)). lia.
  - rewrite pow2_7_succ in Hv by lia.
    replace (Z.of_nat (S k') - 1) with (Z.of_nat k') in Hv by lia.
    assert (Hp : 0 < 2 ^ (7 * Z.of_nat k')) by (apply Z.pow_pos_nonneg; lia).
    assert (Hdiv : 2 ^ (7 * Z.of_nat k') <= v / 128)
      by (apply Z.div_le_lower_bound; lia).
    cbn [leb128_groups].
    destruct (v / 128 =? 0) eqn:Hd; [apply Z.eqb_eq in Hd; lia |].
    cbn [length]. specialize (IH k' (v / 128) ltac:(lia) Hdiv). lia.
Qed.

Lemma decode_overlong (p : list Z) : forall (x : Z) (rest : list Z)
    (result shift count : Z),
  forallb continues p = true -> shift + 7 * Z.of_nat (length p) = 63 ->
  leb128_decode_loop (p ++ x :: rest) result shift count =
    mk_decode_result MUX_ERROR_INVAL None None.
Proof.
  induction p as [| byte p IH]; intros x rest result shift count Hc Hlen.
  - cbn [app length] in *. rewrite decode_loop_step.
    replace shift with 63 by lia. reflexivity.
  - cbn [forallb] in Hc. apply andb_true_iff in Hc. destruct Hc as [Hb Hp].
    cbn [app length] in *. rewrite decode_loop_step.
    destruct (64 <=? shift + 7) eqn:Hov; [reflexivity |].
    rewrite Hb. apply IH; [exact Hp | lia].
Qed.

(** Every value of the upper half of the 64-bit range is encoded in ten
    bytes, and the decoder rejects each of those encodings. *)
Lemma leb128_upper_half_rejected (v : Z) :
  2 ^ 63 <= v < 2 ^ 64 ->
  mux_leb128_encode v true 10 = Some (10, leb128_bytes v) /\
  mux_leb128_decode (Some (leb128_bytes v)) =
    mk_decode_result MUX_ERROR_INVAL None None.
Proof.
  intros Hv.
  assert (Hv0 : 0 <= v < 2 ^ 64)
    by (split; [apply Z.le_trans with (2 ^ 63); [discriminate | lia] | lia]).
  destruct (leb128_encode_total v Hv0) as [Henc [_ Hle]].
  assert (Hge : (10 <= length (leb128_bytes v))%nat)
    by (apply (groups_length_ge 64 9 v); [lia | exact (proj1 Hv)]).
  assert (Hlen : length (leb128_bytes v) = 10%nat) by lia.
  split; [rewrite Henc, Hlen; reflexivity |].
  unfold mux_leb128_decode.
  rewrite <- (firstn_skipn 9 (leb128_bytes v)).
  assert (Hlast : length (skipn 9 (leb128_bytes v)) = 1%nat)
    by (rewrite length_skipn; lia).
  destruct (skipn 9 (leb128_bytes v)) as [| x [| y l]] eqn:Hs;
    try discriminate Hlast.
  apply decode_overlong.
  - apply (groups_prefix_continue 64 v (firstn 9 (leb128_bytes v)) [x]);
      [lia | | discriminate].
    rewrite <- Hs. symmetry. apply firstn_skipn.
  - rewrite length_firstn. lia.
Qed.

(** ** Buffer contents *)

Lemma bytes_at_written (D : list Z) (rp sz : Z) :
  0 <= rp <= sz ->
  bytes_at D rp (sz - rp) = skipn (Z.to_nat rp) (firstn (Z.to_nat sz) D).
Proof.
  intros H. unfold bytes_at. rewrite firstn_skipn_comm.
  replace (Z.to_nat rp + Z.to_nat (sz - rp))%nat with (Z.to_nat sz) by lia.
  reflexivity.
Qed.

Lemma bytes_at_length (D : list Z) (rp n : Z) :
  0 <= rp -> 0 <= n -> rp + n <= Z.of_nat (length D) ->
  Z.of_nat (length (bytes_at D rp n)) = n.
Proof.
  intros Hr Hn Hlen. unfold bytes_at.
  rewrite length_firstn, length_skipn. lia.
Qed.

Lemma bytes_at_shift (D : list Z) (rp a k m : Z) :
  0 <= rp -> 0 <= a -> 0 <= k -> a + k <= m ->
  bytes_at D (rp + a) k = firstn (Z.to_nat k) (skipn (Z.to_nat a) (bytes_at D rp m)).
Proof.
  intros Hr Ha Hk Hm. unfold bytes_at.
  rewrite skipn_firstn_comm, firstn_firstn, skipn_skipn.
  replace (Init.Nat.min (Z.to_nat k) (Z.to_nat m - Z.to_nat a)) with (Z.to_nat k)
    by lia.
  replace (Z.to_nat a + Z.to_nat rp)%nat with (Z.to_nat (rp + a)) by lia.
  reflexivity.
Qed.

Lemma unread_length (b : mux_buffer) :
  buf_ok b -> Z.of_nat (length (unread b)) = size b - read_pos b.
Proof.
  intros ((Hr & Hs & Hc) & _ & Hlen & _). unfold unread.
  apply bytes_at_length; lia.
Qed.

Lemma buf_ok_size (b : mux_buffer) : buf_ok b -> size b < U64_MOD.
Proof. intros ((Hr & Hs & Hc) & _ & _ & Hcap). lia. Qed.

Lemma realloc_bytes_length (old : list Z) (n : Z) :
  Z.of_nat (length old) <= n -> Z.of_nat (length (realloc_bytes old n)) = n.
Proof.
  intros H. unfold realloc_bytes.
  rewrite length_firstn, length_app, repeat_length. lia.
Qed.

Lemma realloc_bytes_prefix (old : list Z) (n : Z) (k : nat) :
  Z.of_nat (length old) <= n -> (k <= length old)%nat ->
  firstn k (realloc_bytes old n) = firstn k old.
Proof.
  intros H Hk. unfold realloc_bytes.
  rewrite firstn_firstn.
  replace (Init.Nat.min k (Z.to_nat n)) with k by lia.
  rewrite firstn_app.
  replace (k - length old)%nat with 0%nat by lia.
  cbn [firstn]. apply app_nil_r.
Qed.

Lemma memcpy_at_length (D : list Z) (off : Z) (src : list Z) :
  0 <= off -> off + Z.of_nat (length src) <= Z.of_nat (length D) ->
  length (memcpy_at D off src (Z.of_nat (length src))) = length D.
Proof.
  intros Ho H. unfold memcpy_at.
  rewrite !length_app, !length_firstn, length_skipn. lia.
Qed.

Lemma memcpy_at_written (D : list Z) (off : Z) (src : list Z) :
  0 <= off -> off + Z.of_nat (length src) <= Z.of_nat (length D) ->
  firstn (Z.to_nat (off + Z.of_nat (length src)))
         (memcpy_at D off src (Z.of_nat (length src)))
  = firstn (Z.to_nat off) D ++ src.
Proof.
  intros Ho H. unfold memcpy_at.
  rewrite Nat2Z.id, firstn_all.
  rewrite firstn_app, length_firstn.
  replace (Init.Nat.min (Z.to_nat off) (length D)) with (Z.to_nat off) by lia.
  rewrite firstn_firstn.
  replace (Init.Nat.min (Z.to_nat (off + Z.of_nat (length src))) (Z.to_nat off))
    with (Z.to_nat off) by lia.
  f_equal.
  replace (Z.to_nat (off + Z.of_nat (length src)) - Z.to_nat off)%nat
    with (length src) by lia.
  rewrite firstn_app, firstn_all, Nat.sub_diag. cbn [firstn]. apply app_nil_r.
Qed.

Section WriteProps.

Variable alloc_ok : Z -> bool.
Hypothesis alloc_always : forall n : Z, alloc_ok n = true.

Lemma ensure_capacity_ok (b : mux_buffer) (needed : Z) :
  buf_ok b -> 0 <= needed < U64_MOD ->
  exists b1 : mux_buffer,
    mux_buffer_ensure_capacity alloc_ok b needed = (MUX_OK, b1) /\
    size b1 = size b /\ read_pos b1 = read_pos b /\
    needed <= capacity b1 /\ capacity b <= capacity b1 /\
    capacity b1 < U64_MOD /\ data b1 <> None /\
    Z.of_nat (length (storage b1)) = capacity b1 /\
    firstn (Z.to_nat (size b)) (storage b1) =
      firstn (Z.to_nat (size b)) (storage b).
Proof.
  intros ((Hr & Hs & Hc) & Hdata & Hlen & Hcap) Hneeded.
  unfold mux_buffer_ensure_capacity.
  destruct (needed <=? capacity b) eqn:Hn.
  - apply Z.leb_le in Hn. exists b. repeat split; try assumption; lia.
  - apply Z.leb_gt in Hn. rewrite alloc_always.
    set (grown := u64 (capacity b + Z.shiftr (capacity b) 1)).
    assert (Hgrown : 0 <= grown < U64_MOD)
      by (apply Z.mod_pos_bound; reflexivity).
    set (new_capacity := if grown <? needed then needed else grown).
    assert (Hnew : needed <= new_capacity < U64_MOD).
    { unfold new_capacity. destruct (grown <? needed) eqn:Hg;
        [apply Z.ltb_lt in Hg | apply Z.ltb_ge in Hg]; lia. }
    eexists. split; [reflexivity |]. cbn [size read_pos capacity data].
    unfold storage at 1 2. cbn [data].
    repeat split; try lia; try discriminate.
    + apply realloc_bytes_length. lia.
    + apply realloc_bytes_prefix; lia.
Qed.

Lemma buffer_write_ok (b : mux_buffer) (bytes : list Z) :
  buf_ok b -> size b + Z.of_nat (length bytes) < U64_MOD ->
  exists b1 : mux_buffer,
    mux_buffer_write alloc_ok b (Some bytes) (Z.of_nat (length bytes)) =
      (MUX_OK, b1) /\
    buf_ok b1 /\ unread b1 = unread b ++ bytes /\
    read_pos b1 = read_pos b /\
    size b1 = size b + Z.of_nat (length bytes).
Proof.
  intros Hok Hfit. pose proof Hok as ((Hr & Hs & Hc) & Hdata & Hlen & Hcap).
  unfold mux_buffer_write.
  destruct (Z.of_nat (length bytes) =? 0) eqn:Hz.
  - apply Z.eqb_eq in Hz. exists b.
    assert (bytes = []) by (destruct bytes; [reflexivity | simpl in Hz; lia]).
    subst bytes. rewrite app_nil_r. simpl. repeat split; try assumption; lia.
  - apply Z.eqb_neq in Hz.
    rewrite (u64_small (size b + Z.of_nat (length bytes))) by lia.
    destruct (ensure_capacity_ok b (size b + Z.of_nat (length bytes)) Hok
                ltac:(lia))
      as (b1 & -> & Hs1 & Hr1 & Hroom & Hgrow & Hcap1 & Hdata1 & Hlen1 & Hpre).
    cbn [Z.eqb negb MUX_OK]. eexists. split; [reflexivity |].
    rewrite Hs1, Hr1.
    rewrite (u64_small (size b + Z.of_nat (length bytes))) by lia.
    assert (Hwritten :
      firstn (Z.to_nat (size b + Z.of_nat (length bytes)))
        (memcpy_at (storage b1) (size b) bytes (Z.of_nat (length bytes)))
      = firstn (Z.to_nat (size b)) (storage b) ++ bytes).
    { rewrite memcpy_at_written by lia. rewrite Hpre. reflexivity. }
    set (b2 := mk_buffer _ _ _ _).
    assert (Hst : storage b2 =
              memcpy_at (storage b1) (size b) bytes (Z.of_nat (length bytes)))
      by reflexivity.
    assert (Hunread : unread b2 = unread b ++ bytes).
    { unfold unread. rewrite Hst. cbn [size read_pos b2].
      rewrite bytes_at_written by lia. rewrite Hwritten.
      rewrite bytes_at_written by lia.
      rewrite skipn_app, length_firstn.
      replace (Z.to_nat (read_pos b) -
               Init.Nat.min (Z.to_nat (size b)) (length (storage b)))%nat
        with 0%nat by lia.
      reflexivity. }
    split; [| split; [exact Hunread | split; reflexivity]].
    unfold buf_ok, buf_inv. rewrite Hst. cbn [data size capacity read_pos b2].
    pose proof (memcpy_at_length (storage b1) (size b) bytes) as L.
    repeat split; try lia; try discriminate.
Qed.

End WriteProps.

(** ** Frame codec *)

Lemma land_127_range (byte : Z) : 0 <= Z.land byte 127 < 128.
Proof. rewrite land_127. apply Z.mod_pos_bound. lia. Qed.

Lemma decode_loop_bound (l : list Z) : forall result shift count v n : Z,
  0 <= shift -> 0 <= result < 2 ^ shift ->
  leb128_decode_loop l result shift count =
    mk_decode_result MUX_OK (Some v) (Some n) ->
  0 <= v < 2 ^ 63 /\ count < n <= count + Z.of_nat (length l) /\
  (n - count) * 7 + shift <= 63.
Proof.
  induction l as [| byte rest IH]; intros result shift count v n Hs Hr E;
    [discriminate E |].
  rewrite decode_loop_step in E.
  destruct (64 <=? shift + 7) eqn:Hov; [discriminate E |].
  apply Z.leb_gt in Hov.
  pose proof (land_127_range byte) as Hm.
  assert (Hpow : 2 ^ (shift + 7) = 128 * 2 ^ shift).
  { rewrite Z.pow_add_r by lia. change (2 ^ 7) with 128. lia. }
  assert (Hpow63 : 2 ^ (shift + 7) <= 2 ^ 63)
    by (apply Z.pow_le_mono_r; lia).
  assert (Hp : 0 < 2 ^ shift) by (apply Z.pow_pos_nonneg; lia).
  assert (Hacc : Z.lor result (u64 (Z.shiftl (Z.land byte 0x7f) shift)) =
                 result + Z.land byte 127 * 2 ^ shift).
  { change 0x7f with 127. rewrite Z.shiftl_mul_pow2 by lia.
    rewrite u64_small.
    - apply lor_disjoint; lia.
    - change (2 ^ 63) with 9223372036854775808 in Hpow63.
      rewrite U64_MOD_eq. nia. }
  rewrite Hacc in E. cbn [length].
  destruct (continues byte).
  - apply IH in E; [| lia | rewrite Hpow; nia].
    destruct E as (Hv & Hn & Hsh). repeat split; lia.
  - injection E as Ev En. subst v n. repeat split; try lia. nia.
Qed.

Lemma decode_bound (bytes : list Z) (v n : Z) :
  mux_leb128_decode (Some bytes) = mk_decode_result MUX_OK (Some v) (Some n) ->
  0 <= v < 2 ^ 63 /\ 1 <= n <= 9 /\ n <= Z.of_nat (length bytes).
Proof.
  intros E. unfold mux_leb128_decode in E.
  apply decode_loop_bound in E; [| lia | change (2 ^ 0) with 1; lia].
  destruct E as (Hv & Hn & Hsh). repeat split; lia.
Qed.

Lemma shiftr_1_bound (v : Z) : 0 <= v < 2 ^ 63 -> 0 <= Z.shiftr v 1 < 2 ^ 62.
Proof.
  intros Hv. rewrite Z.shiftr_div_pow2 by lia. change (2 ^ 1) with 2.
  change (2 ^ 63) with (2 * 2 ^ 62) in Hv. split.
  - apply Z.div_pos; lia.
  - apply Z.div_lt_upper_bound; lia.
Qed.

Lemma bytes_at_skip (D : list Z) (rp a m : Z) :
  0 <= rp -> 0 <= a <= m ->
  bytes_at D (rp + a) (m - a) = skipn (Z.to_nat a) (bytes_at D rp m).
Proof.
  intros Hr Ha. unfold bytes_at.
  rewrite skipn_firstn_comm, skipn_skipn.
  replace (Z.to_nat a + Z.to_nat rp)%nat with (Z.to_nat (rp + a)) by lia.
  replace (Z.to_nat m - Z.to_nat a)%nat with (Z.to_nat (m - a)) by lia.
  reflexivity.
Qed.

Lemma read_frame_dual (input : mux_buffer) (payload : bool)
    (payload_capacity : Z) :
  mux_leb128_read_frame input payload payload_capacity 2 =
  let available := u64 (size input - read_pos input) in
  let d := mux_leb128_decode (data_ptr input available) in
  match dr_ret d =? MUX_OK, dr_value d, dr_bytes_read d with
  | true, Some length_with_stream, Some leb128_bytes =>
      let stream := Z.land length_with_stream 1 in
      let actual_payload_size := Z.shiftr length_with_stream 1 in
      if available <? u64 (leb128_bytes + actual_payload_size)
      then mk_frame_result MUX_ERROR_AGAIN input None None None
      else if payload && (payload_capacity <? actual_payload_size)
      then mk_frame_result MUX_ERROR_INVAL input None
             (Some actual_payload_size) (Some stream)
      else
        let input1 := advance input leb128_bytes in
        let copied :=
          if payload && (0 <? actual_payload_size)
          then Some (bytes_at (storage input1) (read_pos input1)
                              actual_payload_size)
          else None in
        mk_frame_result MUX_OK
          (reset_if_drained (advance input1 actual_payload_size))
          copied (Some actual_payload_size) (Some stream)
  | _, _, _ => mk_frame_result (dr_ret d) input None None None
  end.
Proof. reflexivity. Qed.

Section ReadFrameProps.

Variables (b : mux_buffer) (payload : bool) (payload_capacity : Z).
Hypothesis b_ok : buf_ok b.

Lemma available_unread :
  u64 (size b - read_pos b) = Z.of_nat (length (unread b)).
Proof.
  rewrite unread_length by exact b_ok.
  pose proof (buf_ok_size b b_ok).
  destruct b_ok as ((Hr & Hs & Hc) & _). apply u64_small. lia.
Qed.

Lemma data_ptr_unread :
  data_ptr b (Z.of_nat (length (unread b))) = Some (unread b).
Proof.
  rewrite unread_length by exact b_ok.
  destruct b_ok as (_ & Hdata & _). unfold data_ptr, unread, storage.
  destruct (data b); [reflexivity | contradiction].
Qed.

(** The dual-stream branch of [mux_leb128_read_frame] answers
    "need more data" and returns the buffer as it was. *)
Lemma read_frame_incomplete :
  frame_incomplete b ->
  mux_leb128_read_frame b payload payload_capacity 2 =
    mk_frame_result MUX_ERROR_AGAIN b None None None.
Proof.
  intros Hinc. rewrite read_frame_dual. cbv zeta.
  rewrite available_unread, data_ptr_unread.
  destruct Hinc as [Hhdr | (lws & hb & Hdec & Hshort)].
  - unfold header_incomplete in Hhdr. apply andb_true_iff in Hhdr.
    destruct Hhdr as [Hcont Hlen]. apply Z.ltb_lt in Hlen.
    unfold mux_leb128_decode.
    rewrite decode_all_continue by (try exact Hcont; lia).
    reflexivity.
  - rewrite Hdec. cbn [dr_ret dr_value dr_bytes_read Z.eqb MUX_OK].
    destruct (decode_bound _ _ _ Hdec) as (Hv & Hn & _).
    pose proof (shiftr_1_bound lws Hv) as Hp.
    change (2 ^ 62) with 4611686018427387904 in Hp.
    rewrite (u64_small (hb + Z.shiftr lws 1)) by (rewrite U64_MOD_eq; lia).
    apply Z.ltb_lt in Hshort. rewrite Hshort. reflexivity.
Qed.

(** A whole frame is there, but the destination is too small for it. *)
Lemma read_frame_small_destination (lws hb : Z) :
  frame_complete b lws hb -> payload = true ->
  payload_capacity < Z.shiftr lws 1 ->
  mux_leb128_read_frame b payload payload_capacity 2 =
    mk_frame_result MUX_ERROR_INVAL b None
      (Some (Z.shiftr lws 1)) (Some (Z.land lws 1)).
Proof.
  intros [Hdec Hfull] -> Hsmall. rewrite read_frame_dual. cbv zeta.
  rewrite available_unread, data_ptr_unread, Hdec.
  cbn [dr_ret dr_value dr_bytes_read Z.eqb MUX_OK].
  destruct (decode_bound _ _ _ Hdec) as (Hv & Hn & _).
  pose proof (shiftr_1_bound lws Hv) as Hp.
  change (2 ^ 62) with 4611686018427387904 in Hp.
  rewrite (u64_small (hb + Z.shiftr lws 1)) by (rewrite U64_MOD_eq; lia).
  apply Z.ltb_ge in Hfull. rewrite Hfull.
  apply Z.ltb_lt in Hsmall. rewrite Hsmall. reflexivity.
Qed.

(** A whole frame is there and the destination can take it. *)
Lemma read_frame_complete (lws hb : Z) :
  frame_complete b lws hb ->
  (payload = true -> Z.shiftr lws 1 <= payload_capacity) ->
  exists b1 : mux_buffer,
    mux_leb128_read_frame b payload payload_capacity 2 =
      mk_frame_result MUX_OK b1
        (if payload && (0 <? Z.shiftr lws 1)
         then Some (firstn (Z.to_nat (Z.shiftr lws 1))
                           (skipn (Z.to_nat hb) (unread b)))
         else None)
        (Some (Z.shiftr lws 1)) (Some (Z.land lws 1)) /\
    buf_ok b1 /\
    unread b1 = skipn (Z.to_nat (hb + Z.shiftr lws 1)) (unread b).
Proof.
  intros [Hdec Hfull] Hcap. rewrite read_frame_dual. cbv zeta.
  rewrite available_unread, data_ptr_unread, Hdec.
  cbn [dr_ret dr_value dr_bytes_read Z.eqb MUX_OK].
  destruct (decode_bound _ _ _ Hdec) as (Hv & Hn & _).
  pose proof (shiftr_1_bound lws Hv) as Hp.
  change (2 ^ 62) with 4611686018427387904 in Hp.
  set (psize := Z.shiftr lws 1) in *.
  rewrite (u64_small (hb + psize)) by (rewrite U64_MOD_eq; lia).
  pose proof Hfull as Hfull'. apply Z.ltb_ge in Hfull'. rewrite Hfull'.
  assert (Hfits : payload && (payload_capacity <? psize) = false).
  { destruct payload; [| reflexivity]. cbn [andb].
    apply Z.ltb_ge. apply Hcap. reflexivity. }
  rewrite Hfits.
  pose proof (unread_length b b_ok) as Hlen.
  pose proof (buf_ok_size b b_ok) as Hsz.
  pose proof b_ok as ((Hr & Hs & Hc) & Hdata & Hstore & Hcapb).
  rewrite U64_MOD_eq in Hsz, Hcapb.
  unfold advance. cbn [data size capacity read_pos].
  rewrite (u64_small (read_pos b + hb)) by (rewrite U64_MOD_eq; lia).
  rewrite (u64_small (read_pos b + hb + psize)) by (rewrite U64_MOD_eq; lia).
  eexists. split; [| split].
  - f_equal. unfold storage at 1. cbn [data].
    fold (storage b).
    rewrite (bytes_at_shift (storage b) (read_pos b) hb psize
               (size b - read_pos b)) by lia.
    reflexivity.
  - unfold reset_if_drained. cbn [data size capacity read_pos].
    destruct (read_pos b + hb + psize =? size b) eqn:He.
    + unfold buf_ok, buf_inv, storage. cbn [data size capacity read_pos].
      fold (storage b).
      repeat split; try lia; try assumption; try (rewrite U64_MOD_eq; lia).
    + apply Z.eqb_neq in He.
      unfold buf_ok, buf_inv, storage. cbn [data size capacity read_pos].
      fold (storage b).
      repeat split; try lia; try assumption; try (rewrite U64_MOD_eq; lia).
  - unfold reset_if_drained. cbn [data size capacity read_pos].
    destruct (read_pos b + hb + psize =? size b) eqn:He.
    + apply Z.eqb_eq in He. rewrite skipn_all2 by lia.
      unfold unread, bytes_at. reflexivity.
    + unfold unread at 1, storage. cbn [data size capacity read_pos].
      fold (storage b).
      replace (read_pos b + hb + psize) with (read_pos b + (hb + psize))
        by lia.
      replace (size b - (read_pos b + (hb + psize)))
        with ((size b - read_pos b) - (hb + psize)) by lia.
      rewrite bytes_at_skip by lia. reflexivity.
Qed.

End ReadFrameProps.

(** C3. In dual-stream mode, while the unread region holds no terminating
    header byte yet, or holds a header whose frame is longer than the
    unread region, [mux_leb128_read_frame] returns [MUX_ERROR_AGAIN],
    stores nothing through its out-parameters, and returns the input
    buffer as it was: same position, same size, same contents. *)
Theorem read_frame_incomplete_needs_more_data (b : mux_buffer)
    (payload : bool) (payload_capacity : Z) :
  buf_ok b -> frame_incomplete b ->
  let r := mux_leb128_read_frame b payload payload_capacity 2 in
  fr_ret r = MUX_ERROR_AGAIN /\
  fr_buf r = b /\
  read_pos (fr_buf r) = read_pos b /\
  unread (fr_buf r) = unread b /\
  fr_payload r = None /\ fr_payload_size r = None /\ fr_stream_type r = None.
Proof.
  intros Hok Hinc r. unfold r.
  rewrite (read_frame_incomplete b payload payload_capacity Hok Hinc).
  repeat split.
Qed.

Lemma read_frame_incomplete_needs_more_data_witness :
  let b := mk_buffer (Some [5; 1; 0; 0]) 2 4 0 in
  fr_ret (mux_leb128_read_frame b true 16 2) = MUX_ERROR_AGAIN /\
  fr_buf (mux_leb128_read_frame b true 16 2) = b.
Proof.
  intros b.
  assert (Hok : buf_ok b).
  { unfold buf_ok, buf_inv. cbn.
    repeat split; try lia; try discriminate; reflexivity. }
  assert (Hinc : frame_incomplete b).
  { right. exists 5, 1. split; [reflexivity | by_computation]. }
  destruct (read_frame_incomplete_needs_more_data b true 16 Hok Hinc)
    as (H1 & H2 & _).
  split; [exact H1 | exact H2].
Defined.

(** The precondition on the storage matters: a buffer created with
    capacity 0 has a null [data] pointer, which [mux_leb128_decode] answers
    with [MUX_ERROR_INVAL] before it looks at the length.  No adapter
    creates its input buffer that way. *)
Remark read_frame_unallocated_empty_buffer (alloc_ok : Z -> bool) :
  let b := snd (mux_buffer_init alloc_ok 0) in
  fr_ret (mux_leb128_read_frame b true 16 2) = MUX_ERROR_INVAL /\
  fr_ret (mux_leb128_read_frame b true 16 1) = MUX_ERROR_AGAIN.
Proof. split; reflexivity. Qed.

(** C4. In dual-stream mode, when a whole frame is unread and the
    destination is smaller than its payload, [mux_leb128_read_frame]
    returns [MUX_ERROR_INVAL], stores the payload length in
    [*payload_size], and returns the input buffer as it was; the same call
    with a destination that is large enough then delivers the payload. *)
Theorem read_frame_small_destination_retry (b : mux_buffer)
    (payload_capacity length_with_stream leb128_bytes : Z) :
  buf_ok b -> frame_complete b length_with_stream leb128_bytes ->
  payload_capacity < Z.shiftr length_with_stream 1 ->
  let r := mux_leb128_read_frame b true payload_capacity 2 in
  fr_ret r = MUX_ERROR_INVAL /\
  fr_payload_size r = Some (Z.shiftr length_with_stream 1) /\
  fr_buf r = b /\
  read_pos (fr_buf r) = read_pos b /\
  forall larger : Z,
    Z.shiftr length_with_stream 1 <= larger ->
    let r2 := mux_leb128_read_frame (fr_buf r) true larger 2 in
    fr_ret r2 = MUX_OK /\
    fr_payload_size r2 = Some (Z.shiftr length_with_stream 1) /\
    stored (fr_payload r2) =
      firstn (Z.to_nat (Z.shiftr length_with_stream 1))
             (skipn (Z.to_nat leb128_bytes) (unread b)).
Proof.
  intros Hok Hfull Hsmall r. unfold r.
  rewrite (read_frame_small_destination b true payload_capacity Hok
             length_with_stream leb128_bytes Hfull eq_refl Hsmall).
  cbn [fr_ret fr_payload_size fr_buf].
  repeat split. 
  - destruct (read_frame_complete b true larger Hok length_with_stream
                leb128_bytes Hfull (fun _ => H)) as (b1 & -> & _).
    reflexivity.
  - destruct (read_frame_complete b true larger Hok length_with_stream
                leb128_bytes Hfull (fun _ => H)) as (b1 & -> & _).
    reflexivity.
  - destruct (read_frame_complete b true larger Hok length_with_stream
                leb128_bytes Hfull (fun _ => H)) as (b1 & -> & _).
    cbn [fr_payload andb].
    destruct (0 <? Z.shiftr length_with_stream 1) eqn:Hpos; [reflexivity |].
    apply Z.ltb_ge in Hpos. cbn [stored].
    replace (Z.to_nat (Z.shiftr length_with_stream 1)) with 0%nat by lia.
    reflexivity.
Qed.

Lemma read_frame_small_destination_retry_witness :
  let b := mk_buffer (Some [5; 7; 9; 0]) 3 4 0 in
  fr_ret (mux_leb128_read_frame b true 1 2) = MUX_ERROR_INVAL /\
  fr_payload_size (mux_leb128_read_frame b true 1 2) = Some 2 /\
  fr_buf (mux_leb128_read_frame b true 1 2) = b.
Proof.
  intros b.
  assert (Hok : buf_ok b).
  { unfold buf_ok, buf_inv. cbn.
    repeat split; try lia; try discriminate; reflexivity. }
  assert (Hfull : frame_complete b 5 1).
  { split; [reflexivity | by_computation]. }
  assert (Hsmall : 1 < Z.shiftr 5 1) by by_computation.
  destruct (read_frame_small_destination_retry b 1 5 1 Hok Hfull Hsmall)
    as (H1 & H2 & H3 & _).
  split; [exact H1 | split; [exact H2 | exact H3]].
Defined.

Lemma header_value (n st : Z) :
  0 <= n < 2 ^ 62 -> st = 0 \/ st = 1 ->
  Z.lor (u64 (Z.shiftl n 1)) (Z.land st 1) = 2 * n + st.
Proof.
  intros Hn Hst. change (2 ^ 62) with 4611686018427387904 in Hn.
  rewrite Z.shiftl_mul_pow2 by lia. change (2 ^ 1) with 2.
  rewrite u64_small by (rewrite U64_MOD_eq; lia).
  assert (Hland : Z.land st 1 = st) by (destruct Hst; subst st; reflexivity).
  rewrite Hland, Z.lor_comm.
  change (n * 2) with (n * 2 ^ 1).
  rewrite lor_disjoint by (change (2 ^ 1) with 2; lia).
  change (2 ^ 1) with 2. lia.
Qed.

Lemma header_split (n st : Z) :
  0 <= n -> st = 0 \/ st = 1 ->
  Z.shiftr (2 * n + st) 1 = n /\ Z.land (2 * n + st) 1 = st.
Proof.
  intros Hn Hst. split.
  - rewrite Z.shiftr_div_pow2 by lia. change (2 ^ 1) with 2.
    Z.to_euclidean_division_equations. lia.
  - change 1 with (Z.ones 1) at 1. rewrite Z.land_ones by lia.
    change (2 ^ 1) with 2. Z.to_euclidean_division_equations. lia.
Qed.

Lemma header_range (n st : Z) :
  0 <= n < 2 ^ 62 -> st = 0 \/ st = 1 -> 0 <= 2 * n + st < 2 ^ 63.
Proof.
  intros Hn Hst. change (2 ^ 62) with 4611686018427387904 in Hn.
  change (2 ^ 63) with 9223372036854775808. lia.
Qed.

Lemma frame_header_length (n st : Z) :
  0 <= n < 2 ^ 62 -> st = 0 \/ st = 1 ->
  1 <= Z.of_nat (length (frame_header n st)) <= 9.
Proof.
  intros Hn Hst. unfold frame_header. split.
  - apply groups_length_pos. lia.
  - apply leb128_bytes_short. apply header_range; assumption.
Qed.

Lemma memcpy_at_prefix (D : list Z) (off : Z) (src : list Z) (n : Z) :
  memcpy_at D off (firstn (Z.to_nat n) src) n = memcpy_at D off src n.
Proof.
  unfold memcpy_at. rewrite firstn_firstn, Nat.min_id. reflexivity.
Qed.

Section WriteFrameProps.

Variable alloc_ok : Z -> bool.
Hypothesis alloc_always : forall n : Z, alloc_ok n = true.

Lemma buffer_write_prefix (b : mux_buffer) (src : list Z) (n : Z) :
  mux_buffer_write alloc_ok b (Some src) n =
  mux_buffer_write alloc_ok b (Some (firstn (Z.to_nat n) src)) n.
Proof.
  unfold mux_buffer_write. destruct (n =? 0); [reflexivity |].
  destruct (mux_buffer_ensure_capacity alloc_ok b (u64 (size b + n)))
    as [ret b1].
  destruct (negb (ret =? MUX_OK)); [reflexivity |].
  rewrite memcpy_at_prefix. reflexivity.
Qed.

Lemma write_frame_prefix (out : mux_buffer) (src : list Z)
    (n stream_type num_streams : Z) :
  mux_leb128_write_frame alloc_ok out (Some src) n stream_type num_streams =
  mux_leb128_write_frame alloc_ok out (Some (firstn (Z.to_nat n) src)) n
    stream_type num_streams.
Proof.
  unfold mux_leb128_write_frame.
  destruct (num_streams =? 1).
  - destruct (0 <? n); [| reflexivity].
    rewrite buffer_write_prefix. reflexivity.
  - destruct (mux_leb128_encode _ true 10) as [[len hdr] |]; [| reflexivity].
    destruct (len <? 0); [reflexivity |].
    destruct (mux_buffer_write alloc_ok out (Some hdr) len) as [ret out1].
    destruct (negb (ret =? MUX_OK)); [reflexivity |].
    destruct (0 <? n); [| reflexivity].
    rewrite buffer_write_prefix. reflexivity.
Qed.

Lemma payload_write_ok (out : mux_buffer) (P : list Z) :
  buf_ok out -> size out + Z.of_nat (length P) < U64_MOD ->
  exists out1 : mux_buffer,
    (if 0 <? Z.of_nat (length P)
     then Some (mux_buffer_write alloc_ok out (Some P) (Z.of_nat (length P)))
     else Some (MUX_OK, out)) = Some (MUX_OK, out1) /\
    buf_ok out1 /\ unread out1 = unread out ++ P /\
    size out1 = size out + Z.of_nat (length P).
Proof.
  intros Hok Hfit. destruct (0 <? Z.of_nat (length P)) eqn:Hpos.
  - destruct (buffer_write_ok alloc_ok alloc_always out P Hok Hfit)
      as (out1 & -> & Hok1 & Hun & _ & Hsz).
    exists out1.
    split; [reflexivity | split; [exact Hok1 | split; [exact Hun | exact Hsz]]].
  - apply Z.ltb_ge in Hpos.
    assert (P = []) by (destruct P; [reflexivity | simpl in Hpos; lia]).
    subst P. exists out. rewrite app_nil_r. cbn [length].
    split; [reflexivity | split; [exact Hok | split; [reflexivity | lia]]].
Qed.

(** Writing one payload appends its wire form to the unread bytes of the
    output buffer. *)
Lemma write_frame_ok (out : mux_buffer) (P : list Z)
    (stream_type num_streams : Z) :
  buf_ok out -> Z.of_nat (length P) < 2 ^ 62 ->
  stream_type = 0 \/ stream_type = 1 ->
  num_streams = 1 \/ num_streams = 2 ->
  size out + 9 + Z.of_nat (length P) < U64_MOD ->
  exists out1 : mux_buffer,
    mux_leb128_write_frame alloc_ok out (Some P) (Z.of_nat (length P))
      stream_type num_streams = Some (MUX_OK, out1) /\
    buf_ok out1 /\
    unread out1 = unread out ++ wire num_streams stream_type P /\
    size out1 <= size out + 9 + Z.of_nat (length P).
Proof.
  intros Hok Hlen Hst Hns Hfit. unfold mux_leb128_write_frame, wire.
  destruct Hns as [-> | ->].
  - change (1 =? 1) with true. cbv iota.
    destruct (payload_write_ok out P Hok ltac:(lia))
      as (out1 & E & Hok1 & Hun & Hsz).
    exists out1.
    split; [exact E | split; [exact Hok1 | split; [exact Hun | lia]]].
  - change (2 =? 1) with false. cbv iota.
    rewrite header_value by (try assumption; lia).
    pose proof (header_range (Z.of_nat (length P)) stream_type
                  ltac:(lia) Hst) as Hrange.
    destruct (leb128_encode_total (2 * Z.of_nat (length P) + stream_type))
      as [Henc Hhdr].
    { split; [lia |]. apply Z.lt_trans with (2 ^ 63); [lia | reflexivity]. }
    rewrite Henc.
    pose proof (frame_header_length (Z.of_nat (length P)) stream_type
                  ltac:(lia) Hst) as Hshort.
    unfold frame_header in Hshort.
    destruct (Z.of_nat (length (leb128_bytes
                (2 * Z.of_nat (length P) + stream_type))) <? 0) eqn:Hneg;
      [apply Z.ltb_lt in Hneg; lia |].
    destruct (buffer_write_ok alloc_ok alloc_always out
                (leb128_bytes (2 * Z.of_nat (length P) + stream_type))
                Hok ltac:(lia))
      as (out1 & -> & Hok1 & Hun1 & _ & Hsz1).
    cbn [Z.eqb negb MUX_OK].
    destruct (payload_write_ok out1 P Hok1 ltac:(lia))
      as (out2 & E & Hok2 & Hun2 & Hsz2).
    exists out2. split; [exact E |].
    split; [exact Hok2 |]. split; [| lia].
    rewrite Hun2, Hun1. unfold frame_wire, frame_header.
    rewrite app_assoc. reflexivity.
Qed.

End WriteFrameProps.

Lemma frame_wire_payload (st : Z) (P rest : list Z) :
  firstn (length P)
    (skipn (length (frame_header (Z.of_nat (length P)) st))
           (frame_wire st P ++ rest)) = P.
Proof.
  unfold frame_wire. rewrite <- app_assoc.
  rewrite skipn_app, skipn_all, Nat.sub_diag. cbn [app skipn].
  rewrite firstn_app, firstn_all, Nat.sub_diag. cbn [firstn]. apply app_nil_r.
Qed.

Section FrameRoundTrip.

Variables (st : Z) (P : list Z).
Hypothesis P_fits : Z.of_nat (length P) < 2 ^ 62.
Hypothesis st_bit : st = 0 \/ st = 1.

Let hdr : list Z := frame_header (Z.of_nat (length P)) st.

Lemma frame_wire_decodes (rest : list Z) :
  mux_leb128_decode (Some (frame_wire st P ++ rest)) =
    mk_decode_result MUX_OK (Some (2 * Z.of_nat (length P) + st))
      (Some (Z.of_nat (length hdr))).
Proof.
  unfold frame_wire. rewrite <- app_assoc.
  apply leb128_roundtrip_below_2_63. apply header_range; [lia | exact st_bit].
Qed.

Lemma frame_wire_complete (b : mux_buffer) (rest : list Z) :
  unread b = frame_wire st P ++ rest ->
  frame_complete b (2 * Z.of_nat (length P) + st) (Z.of_nat (length hdr)).
Proof.
  intros E. unfold frame_complete. rewrite E. split.
  - apply frame_wire_decodes.
  - destruct (header_split (Z.of_nat (length P)) st ltac:(lia) st_bit)
      as [-> _].
    unfold frame_wire. fold hdr. rewrite !length_app. lia.
Qed.

Lemma frame_wire_prefix_incomplete (b : mux_buffer) (R : list Z) :
  unread b ++ R = frame_wire st P -> R <> [] -> frame_incomplete b.
Proof.
  intros E HR. unfold frame_wire in E. fold hdr in E.
  assert (Hwhole : forall l, unread b = hdr ++ l ->
            Z.of_nat (length l) < Z.of_nat (length P) -> frame_incomplete b).
  { intros l El Hl. right.
    exists (2 * Z.of_nat (length P) + st), (Z.of_nat (length hdr)).
    rewrite El. split.
    - apply leb128_roundtrip_below_2_63.
      apply header_range; [lia | exact st_bit].
    - destruct (header_split (Z.of_nat (length P)) st ltac:(lia) st_bit)
        as [-> _].
      rewrite length_app. lia. }
  assert (HRlen : 1 <= Z.of_nat (length R))
    by (destruct R; [contradiction | cbn [length]; lia]).
  apply app_eq_app in E. destruct E as (l & [[EU EP] | [Eh ER]]).
  - apply (Hwhole l EU). rewrite EP, length_app. lia.
  - destruct l as [| x l].
    + rewrite app_nil_r in Eh. cbn [app] in ER. subst R.
      apply (Hwhole []); [rewrite app_nil_r; symmetry; exact Eh |].
      cbn [length]. lia.
    + left. unfold header_incomplete. apply andb_true_iff. split.
      * apply (groups_prefix_continue 64 (2 * Z.of_nat (length P) + st)
                 (unread b) (x :: l)); [lia | exact Eh | discriminate].
      * apply Z.ltb_lt.
        pose proof (frame_header_length (Z.of_nat (length P)) st
                      ltac:(lia) st_bit) as Hshort.
        fold hdr in Hshort. rewrite Eh, length_app in Hshort.
        cbn [length] in Hshort. lia.
Qed.

Variable alloc_ok : Z -> bool.
Hypothesis alloc_always : forall n : Z, alloc_ok n = true.
Variable payload_capacity : Z.
Hypothesis room : Z.of_nat (length P) <= payload_capacity.

Lemma feed_delivers (chunks : list (list Z)) : forall input : mux_buffer,
  buf_ok input ->
  unread input ++ concat chunks = frame_wire st P ->
  concat chunks <> [] ->
  size input + Z.of_nat (length (concat chunks)) < U64_MOD ->
  exists r : frame_result,
    feed_until_frame alloc_ok input chunks payload_capacity = Some r /\
    fr_ret r = MUX_OK /\ stored (fr_payload r) = P /\
    fr_payload_size r = Some (Z.of_nat (length P)) /\
    fr_stream_type r = Some st /\
    unread (fr_buf r) = [] /\ buf_ok (fr_buf r).
Proof.
  induction chunks as [| chunk rest IH]; intros input Hok E Hmore Hfit;
    [contradiction |].
  cbn [concat] in *. rewrite length_app in Hfit.
  cbn [feed_until_frame].
  destruct (buffer_write_ok alloc_ok alloc_always input chunk Hok
              ltac:(lia)) as (input1 & -> & Hok1 & Hun1 & _ & Hsz1).
  cbn [Z.eqb negb MUX_OK].
  destruct (concat rest) as [| y ys] eqn:Hrest.
  - rewrite app_nil_r in E. rewrite <- Hun1 in E.
    assert (Hfull := frame_wire_complete input1 []
                       ltac:(rewrite app_nil_r; exact E)).
    destruct (header_split (Z.of_nat (length P)) st ltac:(lia) st_bit)
      as [Hps Hbit].
    destruct (read_frame_complete input1 true payload_capacity Hok1 _ _ Hfull
                ltac:(intros _; rewrite Hps; exact room))
      as (b1 & Er & Hokb & Hunb).
    rewrite Er. cbn [fr_ret fr_buf].
    change (MUX_OK =? MUX_ERROR_AGAIN) with false. cbv iota.
    eexists. split; [reflexivity |].
    cbn [fr_ret fr_payload fr_payload_size fr_stream_type fr_buf].
    rewrite Hps, Hbit.
    split; [reflexivity |]. split; [| split; [reflexivity |
      split; [reflexivity | split; [| exact Hokb]]]].
    + cbn [andb]. destruct (0 <? Z.of_nat (length P)) eqn:Hpos.
      * cbn [stored]. rewrite E, !Nat2Z.id.
        rewrite <- (app_nil_r (frame_wire st P)). apply frame_wire_payload.
      * apply Z.ltb_ge in Hpos. cbn [stored].
        destruct P; [reflexivity | cbn [length] in Hpos; lia].
    + rewrite Hunb, Hps, E. apply skipn_all2.
      unfold frame_wire. fold hdr. rewrite length_app. lia.
  - assert (Hinc : frame_incomplete input1).
    { apply (frame_wire_prefix_incomplete input1 (y :: ys));
        [| discriminate]. rewrite Hun1, <- app_assoc. exact E. }
    rewrite (read_frame_incomplete input1 true payload_capacity Hok1 Hinc).
    cbn [fr_ret fr_buf].
    change (MUX_ERROR_AGAIN =? MUX_ERROR_AGAIN) with true. cbv iota.
    apply IH.
    + exact Hok1.
    + rewrite Hun1, <- app_assoc. exact E.
    + discriminate.
    + cbn [length] in *. lia.
Qed.

End FrameRoundTrip.

(** C2. In dual-stream mode, for a payload [P] and a stream bit, the bytes
    [mux_leb128_write_frame] appends are the frame of [P]; and however those
    bytes are cut into chunks that are appended to an input buffer one at a
    time, with [mux_leb128_read_frame] tried after each, every try before
    the last chunk answers "need more data" and the first other answer is
    [MUX_OK] with exactly [P], its length and the stream bit, leaving
    nothing unread.  ([P] is shorter than [2 ^ 62] bytes, as any region
    that fits the address space next to its copy is.) *)
Theorem frame_roundtrip_any_chunking (alloc_ok : Z -> bool) (P : list Z)
    (stream_type : Z) (out input : mux_buffer) (payload_capacity : Z) :
  (forall n : Z, alloc_ok n = true) ->
  Z.of_nat (length P) < 2 ^ 62 ->
  stream_type = MUX_STREAM_AUDIO \/ stream_type = MUX_STREAM_SIDE_CHANNEL ->
  buf_ok out -> unread out = [] ->
  size out + 9 + Z.of_nat (length P) < U64_MOD ->
  buf_ok input -> unread input = [] ->
  size input + 9 + Z.of_nat (length P) < U64_MOD ->
  Z.of_nat (length P) <= payload_capacity ->
  (exists out1 : mux_buffer,
     mux_leb128_write_frame alloc_ok out (Some P) (Z.of_nat (length P))
       stream_type 2 = Some (MUX_OK, out1) /\
     unread out1 = frame_wire stream_type P) /\
  forall chunks : list (list Z),
    concat chunks = frame_wire stream_type P ->
    exists r : frame_result,
      feed_until_frame alloc_ok input chunks payload_capacity = Some r /\
      fr_ret r = MUX_OK /\
      stored (fr_payload r) = P /\
      fr_payload_size r = Some (Z.of_nat (length P)) /\
      fr_stream_type r = Some stream_type /\
      unread (fr_buf r) = [].
Proof.
  intros Halloc HP Hst Hout Hout0 Hofit Hin Hin0 Hifit Hroom.
  pose proof (frame_header_length (Z.of_nat (length P)) stream_type
                ltac:(lia) Hst) as Hhdr.
  split.
  - destruct (write_frame_ok alloc_ok Halloc out P stream_type 2 Hout HP Hst
                ltac:(right; reflexivity) Hofit)
      as (out1 & E & _ & Hun & _).
    exists out1. split; [exact E |]. rewrite Hun, Hout0. reflexivity.
  - intros chunks Hchunks.
    assert (Hlen : Z.of_nat (length (concat chunks)) =
                   Z.of_nat (length (frame_header (Z.of_nat (length P))
                                                  stream_type))
                   + Z.of_nat (length P)).
    { rewrite Hchunks. unfold frame_wire. rewrite length_app. lia. }
    destruct (feed_delivers stream_type P HP Hst alloc_ok Halloc
                payload_capacity Hroom chunks input Hin)
      as (r & E & H1 & H2 & H3 & H4 & H5 & _).
    + rewrite Hin0. exact Hchunks.
    + intros Hnil. rewrite Hnil in Hlen. cbn [length] in Hlen. lia.
    + lia.
    + exists r. repeat split; assumption.
Qed.

Lemma frame_roundtrip_any_chunking_witness :
  let ok := fun _ : Z => true in
  let b0 := snd (mux_buffer_init ok 16) in
  exists r : frame_result,
    feed_until_frame ok b0 [[5]; []; [7]; [9]] 4 = Some r /\
    fr_ret r = MUX_OK /\
    stored (fr_payload r) = [7; 9] /\
    fr_payload_size r = Some 2 /\
    fr_stream_type r = Some MUX_STREAM_SIDE_CHANNEL.
Proof.
  intros ok b0.
  assert (Hok : buf_ok b0).
  { unfold buf_ok, buf_inv. cbn.
    repeat split; try lia; try discriminate; reflexivity. }
  assert (Hfit : size b0 + 9 + Z.of_nat (length [7; 9]) < U64_MOD)
    by by_computation.
  destruct (frame_roundtrip_any_chunking ok [7; 9] MUX_STREAM_SIDE_CHANNEL
              b0 b0 4 (fun _ => eq_refl) ltac:(by_computation)
              (or_intror eq_refl) Hok eq_refl Hfit Hok eq_refl Hfit
              ltac:(by_computation)) as [_ H].
  destruct (H [[5]; []; [7]; [9]] eq_refl) as (r & E & H1 & H2 & H3 & H4 & _).
  exists r. repeat split; assumption.
Defined.

(** ** Passthrough mode *)

Lemma read_frame_passthrough (input : mux_buffer) (payload : bool)
    (payload_capacity : Z) :
  mux_leb128_read_frame input payload payload_capacity 1 =
  let available := u64 (size input - read_pos input) in
  if available =? 0
  then mk_frame_result MUX_ERROR_AGAIN input None None None
  else
    let actual_payload_size :=
      if available <? payload_capacity then available else payload_capacity in
    let copied :=
      if payload && (0 <? actual_payload_size)
      then Some (bytes_at (storage input) (read_pos input) actual_payload_size)
      else None in
    mk_frame_result MUX_OK
      (reset_if_drained (advance input actual_payload_size))
      copied (Some actual_payload_size) (Some MUX_STREAM_AUDIO).
Proof. reflexivity. Qed.

(** C5, as the code has it.  In passthrough mode, on a non-empty input
    buffer, one call of [mux_leb128_read_frame] returns [MUX_OK], tags the
    chunk as audio and consumes [min (available, payload_capacity)] unread
    bytes, the oldest first; it drains everything available exactly when the
    destination capacity is at least the number of available bytes. *)
Theorem passthrough_read_frame_up_to_capacity (b : mux_buffer)
    (payload : bool) (payload_capacity : Z) :
  buf_ok b -> read_pos b < size b -> 0 <= payload_capacity ->
  let k := Z.min (size b - read_pos b) payload_capacity in
  let r := mux_leb128_read_frame b payload payload_capacity 1 in
  fr_ret r = MUX_OK /\
  fr_stream_type r = Some MUX_STREAM_AUDIO /\
  fr_payload_size r = Some k /\
  stored (fr_payload r) =
    (if payload then firstn (Z.to_nat k) (unread b) else []) /\
  unread (fr_buf r) = skipn (Z.to_nat k) (unread b) /\
  (size b - read_pos b <= payload_capacity -> unread (fr_buf r) = []) /\
  (payload_capacity < size b - read_pos b -> unread (fr_buf r) <> []).
Proof.
  intros Hok Hne Hcap k r.
  pose proof (unread_length b Hok) as Hlen.
  pose proof (buf_ok_size b Hok) as Hsz.
  pose proof Hok as ((Hr & Hs & Hc) & Hdata & Hstore & Hcapb).
  assert (Hun : unread (fr_buf r) = skipn (Z.to_nat k) (unread b)).
  { unfold r. rewrite read_frame_passthrough. cbv zeta.
    rewrite (u64_small (size b - read_pos b)) by lia.
    destruct (size b - read_pos b =? 0) eqn:Hz; [apply Z.eqb_eq in Hz; lia |].
    cbn [fr_buf].
    replace (if size b - read_pos b <? payload_capacity
             then size b - read_pos b else payload_capacity) with k
      by (unfold k; destruct (size b - read_pos b <? payload_capacity) eqn:Hlt;
          [apply Z.ltb_lt in Hlt | apply Z.ltb_ge in Hlt]; lia).
    unfold advance, reset_if_drained. cbn [data size capacity read_pos].
    rewrite (u64_small (read_pos b + k)) by (unfold k; lia).
    destruct (read_pos b + k =? size b) eqn:He.
    - apply Z.eqb_eq in He. rewrite skipn_all2 by lia. reflexivity.
    - unfold unread at 1, storage. cbn [data size capacity read_pos].
      fold (storage b).
      replace (size b - (read_pos b + k)) with ((size b - read_pos b) - k)
        by lia.
      rewrite bytes_at_skip by (unfold k; lia). reflexivity. }
  split; [| split; [| split; [| split; [| split; [exact Hun | split]]]]].
  - unfold r. rewrite read_frame_passthrough. cbv zeta.
    rewrite (u64_small (size b - read_pos b)) by lia.
    destruct (size b - read_pos b =? 0) eqn:Hz; [apply Z.eqb_eq in Hz; lia |].
    reflexivity.
  - unfold r. rewrite read_frame_passthrough. cbv zeta.
    rewrite (u64_small (size b - read_pos b)) by lia.
    destruct (size b - read_pos b =? 0) eqn:Hz; [apply Z.eqb_eq in Hz; lia |].
    reflexivity.
  - unfold r. rewrite read_frame_passthrough. cbv zeta.
    rewrite (u64_small (size b - read_pos b)) by lia.
    destruct (size b - read_pos b =? 0) eqn:Hz; [apply Z.eqb_eq in Hz; lia |].
    cbn [fr_payload_size]. f_equal. unfold k.
    destruct (size b - read_pos b <? payload_capacity) eqn:Hlt;
      [apply Z.ltb_lt in Hlt | apply Z.ltb_ge in Hlt]; lia.
  - unfold r. rewrite read_frame_passthrough. cbv zeta.
    rewrite (u64_small (size b - read_pos b)) by lia.
    destruct (size b - read_pos b =? 0) eqn:Hz; [apply Z.eqb_eq in Hz; lia |].
    cbn [fr_payload].
    replace (if size b - read_pos b <? payload_capacity
             then size b - read_pos b else payload_capacity) with k
      by (unfold k; destruct (size b - read_pos b <? payload_capacity) eqn:Hlt;
          [apply Z.ltb_lt in Hlt | apply Z.ltb_ge in Hlt]; lia).
    destruct payload; [| reflexivity]. cbn [andb].
    destruct (0 <? k) eqn:Hk.
    + cbn [stored]. unfold unread.
      replace (read_pos b) with (read_pos b + 0) at 1 by lia.
      rewrite (bytes_at_shift (storage b) (read_pos b) 0 k
                 (size b - read_pos b)) by (unfold k; lia).
      reflexivity.
    + apply Z.ltb_ge in Hk. cbn [stored].
      replace (Z.to_nat k) with 0%nat by lia. reflexivity.
  - intros Hall. rewrite Hun. apply skipn_all2. unfold k. lia.
  - intros Hless. rewrite Hun. intros Hnil.
    apply (f_equal (@length Z)) in Hnil. rewrite length_skipn in Hnil.
    cbn [length] in Hnil. unfold k in Hnil. lia.
Qed.

Lemma passthrough_read_frame_up_to_capacity_witness :
  let b := mk_buffer (Some [1; 2; 3; 4]) 4 4 0 in
  fr_ret (mux_leb128_read_frame b true 8 1) = MUX_OK /\
  fr_stream_type (mux_leb128_read_frame b true 8 1) = Some MUX_STREAM_AUDIO /\
  stored (fr_payload (mux_leb128_read_frame b true 8 1)) = [1; 2; 3; 4] /\
  unread (fr_buf (mux_leb128_read_frame b true 8 1)) = [].
Proof.
  intros b.
  assert (Hok : buf_ok b).
  { unfold buf_ok, buf_inv. cbn.
    repeat split; try lia; try discriminate; reflexivity. }
  destruct (passthrough_read_frame_up_to_capacity b true 8 Hok
              ltac:(by_computation) ltac:(by_computation))
    as (H1 & H2 & _ & H4 & _ & H6 & _).
  split; [exact H1 | split; [exact H2 | split; [exact H4 |]]].
  apply H6. by_computation.
Defined.

(** C5, the claim as stated fails: with four bytes unread and room for two,
    one call returns two bytes and leaves the other two in the buffer. *)
Lemma passthrough_read_frame_leaves_bytes :
  let b := mk_buffer (Some [1; 2; 3; 4]) 4 4 0 in
  let r := mux_leb128_read_frame b true 2 1 in
  fr_ret r = MUX_OK /\
  fr_payload r = Some [1; 2] /\
  fr_payload_size r = Some 2 /\
  read_pos (fr_buf r) = 2 /\ size (fr_buf r) = 4 /\
  unread (fr_buf r) = [3; 4] /\
  ~ (unread (fr_buf r) = [] /\ fr_payload_size r = Some 4).
Proof.
  cbv zeta. repeat split; try reflexivity.
  intros [H _]. vm_compute in H. discriminate H.
Qed.

(** ** Draining a decoder *)

Lemma buffer_read_non_empty (b : mux_buffer) (dst : bool) (n : Z) :
  non_empty b ->
  let k := if u64 (size b - read_pos b) <? n
           then u64 (size b - read_pos b) else n in
  mux_buffer_read b dst n =
    mk_read_result MUX_OK (reset_if_drained (advance b k)) k
      (if dst then Some (bytes_at (storage b) (read_pos b) k) else None).
Proof.
  intros Hne k. unfold mux_buffer_read.
  destruct (u64 (size b - read_pos b) =? 0) eqn:Hz;
    [apply Z.eqb_eq in Hz; contradiction | reflexivity].
Qed.

Lemma buffer_read_ok_non_empty (b : mux_buffer) (dst : bool) (n : Z) :
  rr_ret (mux_buffer_read b dst n) = MUX_OK -> non_empty b.
Proof.
  unfold mux_buffer_read, non_empty.
  destruct (u64 (size b - read_pos b) =? 0) eqn:Hz.
  - cbn [rr_ret]. discriminate.
  - intros _. apply Z.eqb_neq. exact Hz.
Qed.

Section DecoderReadProps.

Variable D : Type.

Ltac audio_first dec output_size Ha :=
  unfold surfaces_audio; cbv zeta;
  cbn [negb];
  rewrite (buffer_read_non_empty (audio_output dec) true output_size Ha);
  cbn [rr_ret rr_buf rr_copied rr_bytes_read];
  change (MUX_OK =? MUX_OK) with true; cbv iota;
  cbn [ddr_ret ddr_stream_type ddr_output ddr_output_written ddr_dec
       with_audio_output audio_output side_output];
  repeat split; eexists; reflexivity.

Ltac side_needs_empty dec output output_size :=
  intros dec output output_size;
  destruct output; cbn [negb]; [| cbn; discriminate];
  destruct (rr_ret (mux_buffer_read (audio_output dec) true output_size)
              =? MUX_OK) eqn:Ea;
  [cbn [ddr_stream_type]; discriminate |];
  cbn [with_audio_output side_output audio_output];
  destruct (rr_ret (mux_buffer_read (side_output dec) true output_size)
              =? MUX_OK) eqn:Es;
  [| cbn [ddr_stream_type]; discriminate];
  intros _; split;
  [ unfold mux_buffer_read in Ea;
    destruct (u64 (size (audio_output dec) - read_pos (audio_output dec))
                =? 0) eqn:Hz;
    [apply Z.eqb_eq; exact Hz | cbn in Ea; discriminate]
  | apply Z.eqb_eq in Es;
    apply (buffer_read_ok_non_empty _ true output_size); exact Es ].

(** C6. Whenever the audio output buffer is non-empty -- in particular
    when both output buffers are -- each of [pcm_decoder_read],
    [alaw_decoder_read] and [amr_decoder_read] returns [MUX_OK] with
    bytes taken from the audio buffer at its read position, tags them as
    audio and leaves the side-channel buffer untouched; and whenever one
    of them tags its result as side channel, the audio buffer was
    empty. *)
Theorem decoder_read_audio_first (dec : mux_decoder D) (output_size : Z) :
  non_empty (audio_output dec) ->
  (surfaces_audio pcm_decoder_read dec output_size /\
   surfaces_audio alaw_decoder_read dec output_size /\
   surfaces_audio amr_decoder_read dec output_size) /\
  (side_only_when_audio_empty (D := D) pcm_decoder_read /\
   side_only_when_audio_empty (D := D) alaw_decoder_read /\
   side_only_when_audio_empty (D := D) amr_decoder_read).
Proof.
  intros Ha. split; [split; [| split] | split; [| split]].
  - unfold pcm_decoder_read. audio_first dec output_size Ha.
  - unfold alaw_decoder_read. audio_first dec output_size Ha.
  - unfold amr_decoder_read. audio_first dec output_size Ha.
  - unfold side_only_when_audio_empty, pcm_decoder_read.
    side_needs_empty dec0 output output_size0.
  - unfold side_only_when_audio_empty, alaw_decoder_read.
    side_needs_empty dec0 output output_size0.
  - unfold side_only_when_audio_empty, amr_decoder_read.
    side_needs_empty dec0 output output_size0.
Qed.

End DecoderReadProps.

Lemma decoder_read_audio_first_witness :
  let dec :=
    mk_decoder (D := unit) MUX_CODEC_PCM (Some mux_codec_pcm_ops) 2
      (mk_buffer (Some [1; 2; 0; 0]) 2 4 0)
      (mk_buffer (Some [9; 0; 0; 0]) 1 4 0) no_error None in
  ddr_stream_type (pcm_decoder_read dec true 8) = Some MUX_STREAM_AUDIO /\
  ddr_output (pcm_decoder_read dec true 8) = Some [1; 2] /\
  ddr_stream_type (alaw_decoder_read dec true 8) = Some MUX_STREAM_AUDIO /\
  ddr_stream_type (amr_decoder_read dec true 8) = Some MUX_STREAM_AUDIO.
Proof.
  intros dec.
  assert (Ha : non_empty (audio_output dec)) by by_computation.
  destruct (decoder_read_audio_first unit dec 8 Ha)
    as [(Hpcm & Halaw & Hamr) _].
  destruct Hpcm as (_ & P2 & P3 & _).
  destruct Halaw as (_ & A2 & _).
  destruct Hamr as (_ & R2 & _).
  split; [exact P2 | split; [exact P3 | split; [exact A2 | exact R2]]].
Defined.

(** ** Registry and facade *)

Lemma entry_absent_lookup (cfg : build_config) (type : Z) :
  entry_absent cfg type <-> mux_get_codec_ops cfg type = None.
Proof.
  unfold entry_absent, mux_get_codec_ops, MUX_CODEC_MAX. split.
  - intros [Hneg | [Hbig | Hoff]].
    + apply Z.ltb_lt in Hneg. rewrite Hneg. reflexivity.
    + apply Z.leb_le in Hbig. rewrite Hbig, orb_true_r. reflexivity.
    + destruct ((type <? 0) || (10 <=? type)) eqn:Hrange; [reflexivity |].
      apply orb_false_iff in Hrange. destruct Hrange as [H0 H10].
      apply Z.ltb_ge in H0. apply Z.leb_gt in H10.
      assert (Hcases : type = 0 \/ type = 1 \/ type = 2 \/ type = 3 \/
                       type = 4 \/ type = 5 \/ type = 6 \/ type = 7 \/
                       type = 8 \/ type = 9) by lia.
      destruct cfg as [mp3 vorbis opus flac aac amr amr_wb].
      repeat (destruct Hcases as [-> | Hcases]); try rename Hcases into Hlast;
        try subst type; unfold not_compiled_in in Hoff; cbn in Hoff;
        cbn; try discriminate Hoff;
        repeat match goal with
               | H : context [negb ?f] |- _ => destruct f; cbn in H
               end; try discriminate; reflexivity.
  - intros Hnone.
    destruct (type <? 0) eqn:H0; [left; apply Z.ltb_lt; exact H0 |].
    destruct (10 <=? type) eqn:H10;
      [right; left; apply Z.leb_le; exact H10 |].
    right. right. cbn [orb] in Hnone.
    apply Z.ltb_ge in H0. apply Z.leb_gt in H10.
    assert (Hcases : type = 0 \/ type = 1 \/ type = 2 \/ type = 3 \/
                     type = 4 \/ type = 5 \/ type = 6 \/ type = 7 \/
                     type = 8 \/ type = 9) by lia.
    destruct cfg as [mp3 vorbis opus flac aac amr amr_wb].
    repeat (destruct Hcases as [-> | Hcases]); try subst type;
      cbn in Hnone; unfold not_compiled_in; cbn;
      try discriminate Hnone;
      repeat match goal with
             | H : context [ifdef ?f _] |- _ => destruct f; cbn in H
             end; try discriminate; reflexivity.
Qed.

Section FacadeProps.

Variable alloc_ok : Z -> bool.
Variables D mux_param : Type.
Variable sizeof_mux_encoder : Z.
Variable cfg : build_config.
Variable ops_at : ops_addr -> mux_codec_ops D mux_param.

Let init := mux_encoder_init alloc_ok D mux_param cfg ops_at.
Let new := mux_encoder_new alloc_ok D mux_param sizeof_mux_encoder cfg ops_at.

(** C7, as the code has it.  For a codec identifier without an
    operations table, [mux_encoder_init] on a non-null encoder with a
    stream count of 1 or 2 returns [MUX_ERROR_NOCODEC] and
    [mux_encoder_new] returns the null pointer; whatever the stream
    count, neither crashes on a null function pointer nor enters any
    adapter function. *)
Theorem encoder_construction_absent_codec
    (codec_type sample_rate num_channels num_streams : Z)
    (params : list mux_param) (enc0 : mux_encoder D) :
  entry_absent cfg codec_type ->
  (num_streams = 1 \/ num_streams = 2 ->
   init (Some enc0) codec_type sample_rate num_channels num_streams params =
     Returned (mk_encoder_init_result D MUX_ERROR_NOCODEC
                 (Some (zeroed_encoder D)) [])) /\
  (exists r : encoder_init_result D,
     init (Some enc0) codec_type sample_rate num_channels num_streams params =
       Returned r /\
     ei_calls r = [] /\ ei_ret r <> MUX_OK) /\
  new codec_type sample_rate num_channels num_streams params =
    Returned (None, []).
Proof.
  intros Habsent. apply entry_absent_lookup in Habsent.
  assert (Hvalid : num_streams = 1 \/ num_streams = 2 ->
            forall e,
            init (Some e) codec_type sample_rate num_channels num_streams
                 params =
            Returned (mk_encoder_init_result D MUX_ERROR_NOCODEC
                        (Some (zeroed_encoder D)) [])).
  { intros Hns e. unfold init, mux_encoder_init.
    assert (Hguard : negb (num_streams =? 1) && negb (num_streams =? 2)
                     = false)
      by (destruct Hns; subst num_streams; reflexivity).
    rewrite Hguard, Habsent. reflexivity. }
  assert (Hany : forall e, exists r : encoder_init_result D,
            init (Some e) codec_type sample_rate num_channels num_streams
                 params = Returned r /\
            ei_calls r = [] /\ ei_ret r <> MUX_OK).
  { intros e.
    destruct (negb (num_streams =? 1) && negb (num_streams =? 2)) eqn:Hg.
    - unfold init, mux_encoder_init. rewrite Hg.
      eexists. split; [reflexivity |]. split; [reflexivity | discriminate].
    - assert (Hns : num_streams = 1 \/ num_streams = 2).
      { apply andb_false_iff in Hg.
        destruct Hg as [Hg | Hg]; apply negb_false_iff in Hg;
          apply Z.eqb_eq in Hg; [left | right]; exact Hg. }
      rewrite (Hvalid Hns e).
      eexists. split; [reflexivity |]. split; [reflexivity | discriminate]. }
  split; [intros Hns; apply Hvalid; exact Hns |].
  split; [apply Hany |].
  unfold new, mux_encoder_new.
  destruct (alloc_ok sizeof_mux_encoder); cbn [negb]; [| reflexivity].
  destruct (Hany (zeroed_encoder D)) as (r & E & Hcalls & Hret).
  unfold init in E. rewrite E.
  destruct (ei_ret r =? MUX_OK) eqn:Hr;
    [apply Z.eqb_eq in Hr; contradiction |].
  cbn [negb]. rewrite Hcalls. reflexivity.
Qed.

End FacadeProps.

Lemma encoder_construction_absent_codec_witness :
  let ok := fun _ : Z => true in
  let cfg := mk_build_config true true true true true false true in
  let ops := fun _ : ops_addr => mk_codec_ops (D := unit) (mux_param := unit)
                                              None None in
  mux_encoder_init ok unit unit cfg ops (Some (zeroed_encoder unit))
    MUX_CODEC_AMR 8000 1 2 [] =
    Returned (mk_encoder_init_result unit MUX_ERROR_NOCODEC
                (Some (zeroed_encoder unit)) []) /\
  mux_encoder_new ok unit unit 128 cfg ops MUX_CODEC_AMR 8000 1 2 [] =
    Returned (None, []).
Proof.
  intros ok cfg ops.
  assert (Habsent : entry_absent cfg MUX_CODEC_AMR)
    by (right; right; reflexivity).
  destruct (encoder_construction_absent_codec ok unit unit 128 cfg ops
              MUX_CODEC_AMR 8000 1 2 [] (zeroed_encoder unit) Habsent)
    as (H1 & _ & H3).
  split; [apply H1; right; reflexivity | exact H3].
Defined.

(** C7, the claim as stated fails: with an identifier outside the table,
    [mux_encoder_init] answers an invalid stream count before it looks the
    codec up, and [mux_encoder_new] hands back the null pointer, which
    carries no error code. *)
Lemma encoder_construction_not_always_nocodec :
  let ok := fun _ : Z => true in
  let cfg := mk_build_config true true true true true true true in
  let ops := fun _ : ops_addr => mk_codec_ops (D := unit) (mux_param := unit)
                                              None None in
  mux_get_codec_ops cfg 999 = None /\
  mux_encoder_init ok unit unit cfg ops (Some (zeroed_encoder unit))
    999 44100 2 3 [] =
    Returned (mk_encoder_init_result unit MUX_ERROR_INVAL
                (Some (zeroed_encoder unit)) []) /\
  MUX_ERROR_INVAL <> MUX_ERROR_NOCODEC /\
  mux_encoder_new ok unit unit 128 cfg ops 999 44100 2 2 [] =
    Returned (None, []).
Proof.
  cbv zeta. repeat split. discriminate.
Qed.

(** ** AMR-NB encoder adapter *)

Lemma samples_of_bytes_length (n : nat) : forall bytes : list Z,
  length bytes = (2 * n)%nat -> length (samples_of_bytes bytes) = n.
Proof.
  induction n as [| n IH]; intros bytes Hlen.
  - destruct bytes; [reflexivity | discriminate].
  - destruct bytes as [| lo [| hi rest]]; try (cbn in Hlen; lia).
    cbn [samples_of_bytes length]. f_equal. apply IH. cbn in Hlen. lia.
Qed.

Lemma s32_small (x : Z) : - 2 ^ 31 <= x < 2 ^ 31 -> s32 x = x.
Proof.
  intros H. unfold s32. rewrite Z.mod_small; lia.
Qed.

Lemma memcpy_at_whole (dst src : list Z) (n : nat) :
  length dst = n ->
  memcpy_at dst 0 src (Z.of_nat n) = firstn n src.
Proof.
  intros Hlen. unfold memcpy_at. cbn [Z.to_nat firstn app].
  rewrite Z.add_0_l, Nat2Z.id, skipn_all2 by lia. apply app_nil_r.
Qed.

Section AmrProps.

Variable alloc_ok : Z -> bool.
Hypothesis alloc_always : forall n : Z, alloc_ok n = true.
Variable amr_state : Type.
Variable Encoder_Interface_Encode :
  amr_state -> Z -> list Z -> Z -> amr_state * Z * list Z.

Let encode := amr_encoder_encode alloc_ok amr_state Encoder_Interface_Encode.
Let finalize :=
  amr_encoder_finalize alloc_ok amr_state Encoder_Interface_Encode.
Let loop := amr_encode_loop alloc_ok amr_state Encoder_Interface_Encode.

Lemma amr_encode_loop_step (fuel : nat) (enc : amr_encoder amr_state)
    (d : amr_encoder_data amr_state) (samples : list Z)
    (samples_available consumed : Z) :
  loop (S fuel) enc d samples samples_available consumed =
  if negb (0 <? samples_available)
  then Some (mk_encode_result amr_state MUX_OK
               (with_codec_data amr_state enc d) (Some consumed))
  else
    let need := u64 (AMR_FRAME_SAMPLES - input_samples d) in
    let copy :=
      if samples_available <? need then samples_available else need in
    let d1 :=
      mk_amr_encoder_data (encoder d) (mode d) (dtx d)
        (memcpy_at (input_buf d) (input_samples d) samples copy)
        (s32 (u64 (input_samples d + copy))) in
    let samples1 := skipn (Z.to_nat copy) samples in
    let samples_available1 := u64 (samples_available - copy) in
    let consumed1 := u64 (consumed + u64 (copy * 2)) in
    if input_samples d1 =? AMR_FRAME_SAMPLES then
      let '(st, frame_size, frame_buf) :=
        Encoder_Interface_Encode (encoder d1) (mode d1) (input_buf d1) 0 in
      let d2 :=
        mk_amr_encoder_data st (mode d1) (dtx d1) (input_buf d1)
                            (input_samples d1) in
      if frame_size <? 0 then
        Some (mk_encode_result amr_state MUX_ERROR_ENCODE
                (mux_encoder_set_error amr_state
                   (with_codec_data amr_state enc d2)
                   MUX_ERROR_ENCODE "AMR encoding failed"%string
                   (Some "opencore-amrnb"%string) frame_size None)
                None)
      else
        match mux_leb128_write_frame alloc_ok (enc_output enc)
                (Some frame_buf) (u64 frame_size) MUX_STREAM_AUDIO
                (enc_num_streams enc) with
        | None => None
        | Some (ret, out) =>
            if negb (ret =? MUX_OK)
            then Some (mk_encode_result amr_state ret
                         (with_codec_data amr_state
                            (with_output amr_state enc out) d2) None)
            else
              loop fuel (with_output amr_state enc out)
                (mk_amr_encoder_data (encoder d2) (mode d2) (dtx d2)
                                     (input_buf d2) 0)
                samples1 samples_available1 consumed1
        end
    else loop fuel enc d1 samples1 samples_available1 consumed1.
Proof. reflexivity. Qed.


Lemma amr_loop_exit (fuel : nat) (enc : amr_encoder amr_state)
    (d : amr_encoder_data amr_state) (samples : list Z) (consumed : Z) :
  loop (S fuel) enc d samples 0 consumed =
  Some (mk_encode_result amr_state MUX_OK
          (with_codec_data amr_state enc d) (Some consumed)).
Proof. rewrite amr_encode_loop_step. reflexivity. Qed.

Lemma amr_loop_partial (fuel : nat) (enc : amr_encoder amr_state)
    (d : amr_encoder_data amr_state) (samples : list Z)
    (samples_available consumed : Z) :
  input_samples d = 0 -> 0 < samples_available < AMR_FRAME_SAMPLES ->
  0 <= consumed -> consumed + 2 * samples_available < U64_MOD ->
  loop (S fuel) enc d samples samples_available consumed =
  loop fuel enc
    (mk_amr_encoder_data (encoder d) (mode d) (dtx d)
       (memcpy_at (input_buf d) 0 samples samples_available)
       samples_available)
    (skipn (Z.to_nat samples_available) samples) 0
    (consumed + 2 * samples_available).
Proof.
  unfold AMR_FRAME_SAMPLES. intros Hd0 Hsa Hc Hcfit.
  rewrite U64_MOD_eq in Hcfit.
  rewrite amr_encode_loop_step. cbv zeta. rewrite Hd0.
  assert (Hpos : (0 <? samples_available) = true) by (apply Z.ltb_lt; lia).
  rewrite Hpos. cbn [negb].
  change (u64 (AMR_FRAME_SAMPLES - 0)) with 160.
  assert (Hlt : (samples_available <? 160) = true) by (apply Z.ltb_lt; lia).
  rewrite Hlt. cbn [input_samples encoder mode dtx input_buf].
  rewrite Z.add_0_l.
  rewrite (u64_small samples_available) by (rewrite U64_MOD_eq; lia).
  rewrite s32_small by lia.
  assert (Hne : (samples_available =? AMR_FRAME_SAMPLES) = false)
    by (apply Z.eqb_neq; unfold AMR_FRAME_SAMPLES; lia).
  rewrite Hne, Z.sub_diag.
  rewrite (u64_small (samples_available * 2)) by (rewrite U64_MOD_eq; lia).
  rewrite (u64_small (consumed + samples_available * 2))
    by (rewrite U64_MOD_eq; lia).
  change (u64 0) with 0.
  replace (samples_available * 2) with (2 * samples_available) by lia.
  reflexivity.
Qed.

Lemma amr_loop_full (fuel : nat) (enc : amr_encoder amr_state)
    (d : amr_encoder_data amr_state) (samples : list Z)
    (samples_available consumed : Z) (st : amr_state) (frame_size : Z)
    (frame_buf : list Z) :
  input_samples d = 0 ->
  AMR_FRAME_SAMPLES <= samples_available < U64_MOD ->
  0 <= consumed -> consumed + 2 * AMR_FRAME_SAMPLES < U64_MOD ->
  Encoder_Interface_Encode (encoder d) (mode d)
    (memcpy_at (input_buf d) 0 samples AMR_FRAME_SAMPLES) 0 =
    (st, frame_size, frame_buf) ->
  0 <= frame_size <= AMR_MAX_FRAME_SIZE ->
  length frame_buf = 32%nat ->
  buf_ok (enc_output enc) ->
  size (enc_output enc) + 9 + frame_size < U64_MOD ->
  enc_num_streams enc = 1 \/ enc_num_streams enc = 2 ->
  exists out1 : mux_buffer,
    loop (S fuel) enc d samples samples_available consumed =
    loop fuel (with_output amr_state enc out1)
      (mk_amr_encoder_data st (mode d) (dtx d)
         (memcpy_at (input_buf d) 0 samples AMR_FRAME_SAMPLES) 0)
      (skipn 160 samples) (samples_available - AMR_FRAME_SAMPLES)
      (consumed + 2 * AMR_FRAME_SAMPLES) /\
    buf_ok out1 /\
    unread out1 =
      unread (enc_output enc)
        ++ wire (enc_num_streams enc) MUX_STREAM_AUDIO
             (firstn (Z.to_nat frame_size) frame_buf) /\
    size out1 <= size (enc_output enc) + 9 + frame_size.
Proof.
  unfold AMR_FRAME_SAMPLES, AMR_MAX_FRAME_SIZE.
  intros Hd0 Hsa Hc Hcfit E Hfs Hfb Hout Hroom Hns.
  rewrite U64_MOD_eq in Hcfit, Hsa.
  set (frame := firstn (Z.to_nat frame_size) frame_buf).
  assert (Hframe : Z.of_nat (length frame) = frame_size)
    by (unfold frame; rewrite length_firstn; lia).
  destruct (write_frame_ok alloc_ok alloc_always (enc_output enc) frame
              MUX_STREAM_AUDIO (enc_num_streams enc) Hout)
    as (out1 & Ew & Hok1 & Hun1 & Hsz1);
    [ rewrite Hframe; change (2 ^ 62) with 4611686018427387904; lia
    | left; reflexivity | exact Hns | rewrite Hframe; exact Hroom |].
  rewrite Hframe in Ew, Hsz1.
  exists out1. split; [| split; [exact Hok1 | split; [exact Hun1 | exact Hsz1]]].
  rewrite amr_encode_loop_step. cbv zeta. rewrite Hd0.
  assert (Hpos : (0 <? samples_available) = true) by (apply Z.ltb_lt; lia).
  rewrite Hpos. cbn [negb].
  change (u64 (AMR_FRAME_SAMPLES - 0)) with 160.
  assert (Hlt : (samples_available <? 160) = false) by (apply Z.ltb_ge; lia).
  rewrite Hlt. cbn [input_samples encoder mode dtx input_buf].
  change (s32 (u64 (0 + 160)) =? AMR_FRAME_SAMPLES) with true. cbv iota.
  rewrite E.
  assert (Hneg : (frame_size <? 0) = false) by (apply Z.ltb_ge; lia).
  rewrite Hneg.
  rewrite (u64_small frame_size) by (rewrite U64_MOD_eq; lia).
  rewrite write_frame_prefix. fold frame. rewrite Ew.
  change (negb (MUX_OK =? MUX_OK)) with false. cbv iota.
  change (u64 (160 * 2)) with 320.
  rewrite (u64_small (consumed + 320)) by (rewrite U64_MOD_eq; lia).
  rewrite (u64_small (samples_available - 160)) by (rewrite U64_MOD_eq; lia).
  reflexivity.
Qed.

(** C9. An AMR-NB encoder with an empty sample window is given 161
    samples (322 bytes) of audio in one [encode] call, and the native
    encoder delivers a frame for every full window.  The call returns
    [MUX_OK] with all 322 bytes consumed; the output gains exactly one
    frame, the one encoded from the first 160 samples; the window keeps
    the one sample left over.  [finalize] then encodes that sample
    followed by 159 zero samples and appends that second frame. *)
Theorem amr_161_samples_one_frame_then_flush
    (enc : amr_encoder amr_state) (d : amr_encoder_data amr_state)
    (bytes : list Z) (st1 st2 : amr_state) (fs1 fs2 : Z)
    (fb1 fb2 : list Z) :
  enc_codec_data enc = Some d ->
  input_samples d = 0 -> length (input_buf d) = 160%nat ->
  enc_num_streams enc = 1 \/ enc_num_streams enc = 2 ->
  buf_ok (enc_output enc) -> size (enc_output enc) + 82 < U64_MOD ->
  length bytes = 322%nat ->
  let samples := samples_of_bytes bytes in
  Encoder_Interface_Encode (encoder d) (mode d) (firstn 160 samples) 0 =
    (st1, fs1, fb1) ->
  0 < fs1 <= AMR_MAX_FRAME_SIZE -> length fb1 = 32%nat ->
  Encoder_Interface_Encode st1 (mode d)
    (skipn 160 samples ++ repeat 0 159) 0 = (st2, fs2, fb2) ->
  0 < fs2 <= AMR_MAX_FRAME_SIZE -> length fb2 = 32%nat ->
  let frame1 := firstn (Z.to_nat fs1) fb1 in
  let frame2 := firstn (Z.to_nat fs2) fb2 in
  let ns := enc_num_streams enc in
  exists r : encode_result amr_state,
    encode enc (Some bytes) 322 MUX_STREAM_AUDIO = Some r /\
    er_ret r = MUX_OK /\
    er_input_consumed r = Some 322 /\
    unread (enc_output (er_enc r)) =
      unread (enc_output enc) ++ wire ns MUX_STREAM_AUDIO frame1 /\
    (exists d1 : amr_encoder_data amr_state,
       enc_codec_data (er_enc r) = Some d1 /\
       input_samples d1 = 1 /\
       firstn 1 (input_buf d1) = skipn 160 samples) /\
    exists enc2 : amr_encoder amr_state,
      finalize (er_enc r) = Some (MUX_OK, enc2) /\
      unread (enc_output enc2) =
        unread (enc_output enc) ++ wire ns MUX_STREAM_AUDIO frame1
          ++ wire ns MUX_STREAM_AUDIO frame2 /\
      exists d2 : amr_encoder_data amr_state,
        enc_codec_data enc2 = Some d2 /\ input_samples d2 = 0.
Proof.
  intros Hd Hd0 Hbuf Hns Hout Hroom Hbytes samples E1 Hfs1 Hfb1 E2 Hfs2 Hfb2
         frame1 frame2 ns.
  assert (Hsamples : length samples = 161%nat)
    by (apply samples_of_bytes_length; exact Hbytes).
  unfold AMR_MAX_FRAME_SIZE in *.
  assert (Hcopy : memcpy_at (input_buf d) 0 samples AMR_FRAME_SAMPLES =
                  firstn 160 samples)
    by (apply (memcpy_at_whole (input_buf d) samples 160); exact Hbuf).
  unfold encode, amr_encoder_encode. rewrite Hd.
  change (322 =? 0) with false.
  change (negb (MUX_STREAM_AUDIO =? MUX_STREAM_AUDIO)) with false.
  cbv iota. fold samples.
  change (S (Z.to_nat (322 / 2))) with (S (S (S 159))).
  change (322 / 2) with 161.
  fold loop.
  destruct (amr_loop_full (S (S 159)) enc d samples 161 0 st1 fs1 fb1 Hd0)
    as (out1 & -> & Hok1 & Hun1 & Hsz1);
    try (rewrite ?Hcopy; assumption);
    try (unfold AMR_FRAME_SAMPLES, AMR_MAX_FRAME_SIZE;
         rewrite ?U64_MOD_eq in *; lia).
  change (161 - AMR_FRAME_SAMPLES) with 1.
  change (0 + 2 * AMR_FRAME_SAMPLES) with 320.
  rewrite Hcopy.
  change 161%nat with (S (S 159)).
  rewrite amr_loop_partial;
    [| reflexivity | unfold AMR_FRAME_SAMPLES; lia | lia
     | rewrite U64_MOD_eq; lia].
  cbn [encoder mode dtx input_buf].
  change (320 + 2 * 1) with 322.
  rewrite amr_loop_exit.
  eexists. split; [reflexivity |].
  cbn [er_ret er_input_consumed er_enc with_codec_data with_output
       enc_output enc_codec_data enc_num_streams].
  assert (Hleft : exists x : Z, skipn 160 samples = [x]).
  { pose proof (length_skipn 160 samples) as L. rewrite Hsamples in L.
    destruct (skipn 160 samples) as [| x [| y l]]; try discriminate L.
    exists x. reflexivity. }
  destruct Hleft as (x & Hleft).
  assert (Hfirst : length (firstn 160 samples) = 160%nat)
    by (rewrite length_firstn; lia).
  assert (Hkept : memcpy_at (firstn 160 samples) 0 (skipn 160 samples) 1 =
                  x :: skipn 1 (firstn 160 samples)).
  { rewrite Hleft. reflexivity. }
  assert (Hpadded :
    memcpy_at (x :: skipn 1 (firstn 160 samples)) 1
      (repeat 0 (Z.to_nat (AMR_FRAME_SAMPLES - 1))) (AMR_FRAME_SAMPLES - 1)
    = skipn 160 samples ++ repeat 0 159).
  { rewrite Hleft. unfold memcpy_at.
    change (Z.to_nat (AMR_FRAME_SAMPLES - 1)) with 159%nat.
    change (Z.to_nat (1 + (AMR_FRAME_SAMPLES - 1))) with 160%nat.
    change (Z.to_nat 1) with 1%nat.
    replace (firstn 159 (repeat 0 159)) with (repeat 0 159)
      by (symmetry; apply firstn_all2; rewrite repeat_length; lia).
    replace (skipn 160 (x :: skipn 1 (firstn 160 samples))) with (@nil Z)
      by (symmetry; apply skipn_all2; cbn [length];
          rewrite length_skipn; lia).
    rewrite app_nil_r. reflexivity. }
  split; [reflexivity |]. split; [reflexivity |].
  split; [exact Hun1 |].
  split.
  { eexists. split; [reflexivity |].
    cbn [input_samples input_buf]. split; [reflexivity |].
    rewrite Hkept, Hleft. reflexivity. }
  unfold finalize, amr_encoder_finalize.
  cbn [enc_codec_data enc_output enc_num_streams input_samples input_buf
       encoder mode dtx with_codec_data with_output].
  change (0 <? 1) with true. cbv iota.
  rewrite Hkept, Hpadded, E2.
  assert (Hpos2 : (0 <? fs2) = true) by (apply Z.ltb_lt; lia).
  rewrite Hpos2.
  rewrite (u64_small fs2) by (rewrite U64_MOD_eq; lia).
  rewrite write_frame_prefix. fold frame2.
  assert (Hframe2 : Z.of_nat (length frame2) = fs2)
    by (unfold frame2; rewrite length_firstn; lia).
  destruct (write_frame_ok alloc_ok alloc_always out1 frame2
              MUX_STREAM_AUDIO (enc_num_streams enc) Hok1)
    as (out2 & Ew & Hok2 & Hun2 & Hsz2);
    [ rewrite Hframe2; change (2 ^ 62) with 4611686018427387904; lia
    | left; reflexivity | exact Hns
    | rewrite Hframe2; rewrite U64_MOD_eq in *; lia |].
  rewrite Hframe2 in Ew. rewrite Ew.
  change (negb (MUX_OK =? MUX_OK)) with false. cbv iota.
  eexists. split; [reflexivity |].
  cbn [enc_output enc_codec_data with_codec_data with_output].
  split.
  - rewrite Hun2, Hun1, <- app_assoc. reflexivity.
  - eexists. split; reflexivity.
Qed.

End AmrProps.

Lemma amr_161_samples_one_frame_then_flush_witness :
  let ok := fun _ : Z => true in
  let native := fun (st : nat) (_ : Z) (speech : list Z) (_ : Z) =>
                  (S st, 32, map (fun s => s mod 256) (firstn 32 speech)) in
  let enc :=
    mk_encoder MUX_CODEC_AMR (Some mux_codec_amr_ops) 8000 1 1
      (snd (mux_buffer_init ok 4096)) no_error
      (Some (mk_amr_encoder_data 0%nat 7 0 (repeat 0 160) 0)) in
  exists r : encode_result nat,
    amr_encoder_encode ok nat native enc (Some (repeat 1 322)) 322
      MUX_STREAM_AUDIO = Some r /\
    er_ret r = MUX_OK /\
    er_input_consumed r = Some 322 /\
    unread (enc_output (er_enc r)) = repeat 1 32 /\
    exists enc2 : amr_encoder nat,
      amr_encoder_finalize ok nat native (er_enc r) = Some (MUX_OK, enc2) /\
      unread (enc_output enc2) = repeat 1 32 ++ 1 :: repeat 0 31.
Proof.
  intros ok native enc.
  assert (Hout : buf_ok (enc_output enc)).
  { unfold buf_ok, buf_inv. cbn.
    repeat split; try lia; try discriminate; reflexivity. }
  destruct (amr_161_samples_one_frame_then_flush ok (fun _ => eq_refl) nat
              native enc (mk_amr_encoder_data 0%nat 7 0 (repeat 0 160) 0)
              (repeat 1 322) 1%nat 2%nat 32 32 (repeat 1 32)
              (1 :: repeat 0 31) eq_refl eq_refl eq_refl (or_introl eq_refl)
              Hout ltac:(by_computation) eq_refl eq_refl
              ltac:(split; by_computation) eq_refl eq_refl
              ltac:(split; by_computation) eq_refl)
    as (r & E & H1 & H2 & H3 & _ & enc2 & F & H4 & _).
  exists r. split; [exact E |]. split; [exact H1 |]. split; [exact H2 |].
  split; [exact H3 |].
  exists enc2. split; [exact F | exact H4].
Defined.

(** * Further properties *)

(** ** Byte buffer: contents, failure, reuse *)

Section BufferContents.

Variable alloc_ok : Z -> bool.

Lemma ensure_capacity_cases (b : mux_buffer) (needed : Z) :
  buf_ok b -> 0 <= needed < U64_MOD ->
  (exists b1 : mux_buffer,
     mux_buffer_ensure_capacity alloc_ok b needed = (MUX_OK, b1) /\
     size b1 = size b /\ read_pos b1 = read_pos b /\
     needed <= capacity b1 /\ capacity b <= capacity b1 /\
     capacity b1 < U64_MOD /\ data b1 <> None /\
     Z.of_nat (length (storage b1)) = capacity b1 /\
     firstn (Z.to_nat (size b)) (storage b1) =
       firstn (Z.to_nat (size b)) (storage b))
  \/ mux_buffer_ensure_capacity alloc_ok b needed = (MUX_ERROR_NOMEM, b).
Proof.
  intros ((Hr & Hs & Hc) & Hdata & Hlen & Hcap) Hneeded.
  unfold mux_buffer_ensure_capacity.
  destruct (needed <=? capacity b) eqn:Hn.
  - apply Z.leb_le in Hn. left. exists b.
    repeat split; try assumption; lia.
  - apply Z.leb_gt in Hn.
    set (grown := u64 (capacity b + Z.shiftr (capacity b) 1)).
    assert (Hgrown : 0 <= grown < U64_MOD)
      by (apply Z.mod_pos_bound; reflexivity).
    set (new_capacity := if grown <? needed then needed else grown).
    assert (Hnew : needed <= new_capacity < U64_MOD).
    { unfold new_capacity. destruct (grown <? needed) eqn:Hg;
        [apply Z.ltb_lt in Hg | apply Z.ltb_ge in Hg]; lia. }
    destruct (alloc_ok new_capacity); [left | right; reflexivity].
    eexists. split; [reflexivity |]. cbn [size read_pos capacity data].
    unfold storage at 1 2. cbn [data].
    repeat split; try lia; try discriminate.
    + apply realloc_bytes_length. lia.
    + apply realloc_bytes_prefix; lia.
Qed.

Lemma buffer_write_cases (b : mux_buffer) (bytes : list Z) :
  buf_ok b -> size b + Z.of_nat (length bytes) < U64_MOD ->
  (exists b1 : mux_buffer,
     mux_buffer_write alloc_ok b (Some bytes) (Z.of_nat (length bytes)) =
       (MUX_OK, b1) /\
     buf_ok b1 /\ unread b1 = unread b ++ bytes /\
     read_pos b1 = read_pos b /\
     size b1 = size b + Z.of_nat (length bytes) /\
     capacity b <= capacity b1)
  \/ mux_buffer_write alloc_ok b (Some bytes) (Z.of_nat (length bytes)) =
       (MUX_ERROR_NOMEM, b).
Proof.
  intros Hok Hfit. pose proof Hok as ((Hr & Hs & Hc) & Hdata & Hlen & Hcap).
  unfold mux_buffer_write.
  destruct (Z.of_nat (length bytes) =? 0) eqn:Hz.
  - apply Z.eqb_eq in Hz. left. exists b.
    assert (bytes = []) by (destruct bytes; [reflexivity | simpl in Hz; lia]).
    subst bytes. rewrite app_nil_r. simpl.
    repeat split; try assumption; lia.
  - apply Z.eqb_neq in Hz.
    rewrite (u64_small (size b + Z.of_nat (length bytes))) by lia.
    destruct (ensure_capacity_cases b (size b + Z.of_nat (length bytes)) Hok
                ltac:(lia))
      as [(b1 & -> & Hs1 & Hr1 & Hroom & Hgrow & Hcap1 & Hdata1 & Hlen1 & Hpre)
         | ->]; [left | right; reflexivity].
    cbn [Z.eqb negb MUX_OK]. eexists. split; [reflexivity |].
    rewrite Hs1, Hr1.
    rewrite (u64_small (size b + Z.of_nat (length bytes))) by lia.
    assert (Hwritten :
      firstn (Z.to_nat (size b + Z.of_nat (length bytes)))
        (memcpy_at (storage b1) (size b) bytes (Z.of_nat (length bytes)))
      = firstn (Z.to_nat (size b)) (storage b) ++ bytes).
    { rewrite memcpy_at_written by lia. rewrite Hpre. reflexivity. }
    set (b2 := mk_buffer _ _ _ _).
    assert (Hst : storage b2 =
              memcpy_at (storage b1) (size b) bytes (Z.of_nat (length bytes)))
      by reflexivity.
    assert (Hunread : unread b2 = unread b ++ bytes).
    { unfold unread. rewrite Hst. cbn [size read_pos b2].
      rewrite bytes_at_written by lia. rewrite Hwritten.
      rewrite bytes_at_written by lia.
      rewrite skipn_app, length_firstn.
      replace (Z.to_nat (read_pos b) -
               Init.Nat.min (Z.to_nat (size b)) (length (storage b)))%nat
        with 0%nat by lia.
      reflexivity. }
    split; [| split; [exact Hunread | split; [reflexivity |
      split; [reflexivity | exact Hgrow]]]].
    unfold buf_ok, buf_inv. rewrite Hst. cbn [data size capacity read_pos b2].
    pose proof (memcpy_at_length (storage b1) (size b) bytes) as L.
    repeat split; try lia; try discriminate.
Qed.

(** A write either appends exactly the given bytes behind the unread ones,
    leaving the read position alone and the capacity no smaller, or -- when
    the allocator refuses -- returns [MUX_ERROR_NOMEM] with the buffer
    untouched.  Nothing in between. *)
Theorem buffer_write_appends_or_fails_clean (b : mux_buffer)
    (bytes : list Z) :
  buf_ok b -> size b + Z.of_nat (length bytes) < U64_MOD ->
  let r := mux_buffer_write alloc_ok b (Some bytes)
             (Z.of_nat (length bytes)) in
  (fst r = MUX_OK /\ buf_ok (snd r) /\
   unread (snd r) = unread b ++ bytes /\
   read_pos (snd r) = read_pos b /\ capacity b <= capacity (snd r))
  \/ (fst r = MUX_ERROR_NOMEM /\ snd r = b).
Proof.
  intros Hok Hfit r. unfold r.
  destruct (buffer_write_cases b bytes Hok Hfit)
    as [(b1 & -> & Hok1 & Hun & Hrp & _ & Hcap) | ->]; [left | right].
  - cbn [fst snd]. repeat split; try assumption; apply Hok1.
  - split; reflexivity.
Qed.

End BufferContents.

Lemma buffer_write_appends_or_fails_clean_witness :
  let ok := fun n : Z => n <? 8 in
  let b := mk_buffer (Some [1; 2; 3; 0]) 3 4 1 in
  (fst (mux_buffer_write ok b (Some [4]) 1) = MUX_OK /\
   unread (snd (mux_buffer_write ok b (Some [4]) 1)) = [2; 3; 4])
  \/ (fst (mux_buffer_write ok b (Some [4]) 1) = MUX_ERROR_NOMEM /\
      snd (mux_buffer_write ok b (Some [4]) 1) = b).
Proof.
  intros ok b.
  assert (Hok : buf_ok b).
  { unfold buf_ok, buf_inv. cbn.
    repeat split; try lia; try discriminate; reflexivity. }
  destruct (buffer_write_appends_or_fails_clean ok b [4] Hok
              ltac:(by_computation))
    as [(H1 & _ & H3 & _) | H]; [left | right; exact H].
  split; [exact H1 | exact H3].
Defined.

Lemma buffer_read_cases (b : mux_buffer) (dst : bool) (n : Z) :
  buf_ok b -> 0 <= n -> unread b <> [] ->
  let k := Z.min n (Z.of_nat (length (unread b))) in
  exists b1 : mux_buffer,
    mux_buffer_read b dst n =
      mk_read_result MUX_OK b1 k
        (if dst then Some (firstn (Z.to_nat k) (unread b)) else None) /\
    buf_ok b1 /\ unread b1 = skipn (Z.to_nat k) (unread b) /\
    capacity b1 = capacity b /\ data b1 = data b /\
    (Z.of_nat (length (unread b)) <= n -> size b1 = 0 /\ read_pos b1 = 0).
Proof.
  intros Hok Hn Hne k.
  pose proof (unread_length b Hok) as Hlen.
  pose proof (buf_ok_size b Hok) as Hsz.
  pose proof Hok as ((Hr & Hs & Hc) & Hdata & Hstore & Hcapb).
  assert (Hpos : 0 < size b - read_pos b).
  { destruct (unread b); [contradiction | cbn [length] in Hlen; lia]. }
  unfold mux_buffer_read.
  rewrite (u64_small (size b - read_pos b)) by lia.
  destruct (size b - read_pos b =? 0) eqn:Hz; [apply Z.eqb_eq in Hz; lia |].
  replace (if size b - read_pos b <? n then size b - read_pos b else n) with k
    by (unfold k; rewrite Hlen;
        destruct (size b - read_pos b <? n) eqn:Hlt;
        [apply Z.ltb_lt in Hlt | apply Z.ltb_ge in Hlt]; lia).
  assert (Hk : 0 <= k <= size b - read_pos b) by (unfold k; lia).
  eexists. split; [| split; [| split; [| split; [| split]]]].
  - f_equal. destruct dst; [| reflexivity]. f_equal. unfold unread.
    replace (read_pos b) with (read_pos b + 0) at 1 by lia.
    rewrite (bytes_at_shift (storage b) (read_pos b) 0 k
               (size b - read_pos b)) by lia.
    reflexivity.
  - unfold reset_if_drained, advance. cbn [data size capacity read_pos].
    rewrite (u64_small (read_pos b + k)) by lia.
    destruct (read_pos b + k =? size b) eqn:He;
      [| apply Z.eqb_neq in He];
      unfold buf_ok, buf_inv, storage; cbn [data size capacity read_pos];
      fold (storage b); repeat split; try lia; try assumption.
  - unfold reset_if_drained, advance. cbn [data size capacity read_pos].
    rewrite (u64_small (read_pos b + k)) by lia.
    destruct (read_pos b + k =? size b) eqn:He.
    + apply Z.eqb_eq in He. rewrite skipn_all2 by lia. reflexivity.
    + unfold unread at 1, storage. cbn [data size capacity read_pos].
      fold (storage b).
      replace (size b - (read_pos b + k)) with ((size b - read_pos b) - k)
        by lia.
      rewrite bytes_at_skip by lia. reflexivity.
  - unfold reset_if_drained, advance. cbn [data size capacity read_pos].
    destruct (u64 (read_pos b + k) =? size b); reflexivity.
  - unfold reset_if_drained, advance. cbn [data size capacity read_pos].
    destruct (u64 (read_pos b + k) =? size b); reflexivity.
  - intros Hall. unfold reset_if_drained, advance.
    cbn [data size capacity read_pos].
    rewrite (u64_small (read_pos b + k)) by lia.
    replace (read_pos b + k =? size b) with true
      by (symmetry; apply Z.eqb_eq; unfold k; lia).
    split; reflexivity.
Qed.

(** The buffer is a queue of bytes: a read hands out the oldest
    [min (requested, available)] unread bytes and keeps the rest, in
    order, for the next read; on an empty buffer it answers
    [MUX_ERROR_AGAIN] with a count of zero and changes nothing. *)
Theorem buffer_read_is_fifo (b : mux_buffer) (n : Z) :
  buf_ok b -> 0 <= n ->
  let r := mux_buffer_read b true n in
  let k := Z.min n (Z.of_nat (length (unread b))) in
  (unread b = [] ->
   r = mk_read_result MUX_ERROR_AGAIN b 0 None) /\
  (unread b <> [] ->
   rr_ret r = MUX_OK /\ rr_bytes_read r = k /\
   rr_copied r = Some (firstn (Z.to_nat k) (unread b)) /\
   unread (rr_buf r) = skipn (Z.to_nat k) (unread b) /\
   buf_ok (rr_buf r) /\ capacity (rr_buf r) = capacity b).
Proof.
  intros Hok Hn r k. split.
  - intros Hemp. unfold r, mux_buffer_read.
    pose proof (unread_length b Hok) as Hlen. rewrite Hemp in Hlen.
    cbn [length] in Hlen.
    replace (size b - read_pos b) with 0 by lia. reflexivity.
  - intros Hne. unfold r.
    destruct (buffer_read_cases b true n Hok Hn Hne)
      as (b1 & -> & Hok1 & Hun & Hcap & _).
    cbn [rr_ret rr_bytes_read rr_copied rr_buf].
    repeat split; try assumption; apply Hok1.
Qed.

Lemma buffer_read_is_fifo_witness :
  let b := mk_buffer (Some [9; 1; 2; 3; 0]) 4 5 1 in
  rr_copied (mux_buffer_read b true 2) = Some [1; 2] /\
  unread (rr_buf (mux_buffer_read b true 2)) = [3].
Proof.
  intros b.
  assert (Hok : buf_ok b).
  { unfold buf_ok, buf_inv. cbn.
    repeat split; try lia; try discriminate; reflexivity. }
  destruct (buffer_read_is_fifo b 2 Hok ltac:(lia)) as [_ H].
  destruct (H ltac:(discriminate)) as (_ & _ & H3 & H4 & _).
  split; [exact H3 | exact H4].
Defined.

(** Draining resets the buffer in place: after a read that takes
    everything, size and read position are zero and the storage is kept,
    so a following write of up to [capacity] bytes succeeds without asking
    the allocator for anything -- even an allocator that always refuses. *)
Theorem buffer_drained_storage_is_reused (alloc_ok : Z -> bool)
    (b : mux_buffer) (dst : bool) (n : Z) (bytes : list Z) :
  buf_ok b -> unread b <> [] -> Z.of_nat (length (unread b)) <= n ->
  Z.of_nat (length bytes) <= capacity b ->
  let b1 := rr_buf (mux_buffer_read b dst n) in
  let w := mux_buffer_write (fun _ => false) b1 (Some bytes)
             (Z.of_nat (length bytes)) in
  size b1 = 0 /\ read_pos b1 = 0 /\ capacity b1 = capacity b /\
  fst w = MUX_OK /\ capacity (snd w) = capacity b /\
  unread (snd w) = bytes /\
  mux_buffer_write alloc_ok b1 (Some bytes) (Z.of_nat (length bytes)) = w.
Proof.
  intros Hok Hne Hall Hfit b1 w.
  pose proof (unread_length b Hok) as Hlen.
  assert (Hn : 0 <= n) by lia.
  destruct (buffer_read_cases b dst n Hok Hn Hne)
    as (b1' & E & Hok1 & Hun & Hcap & _ & Hzero).
  destruct (Hzero Hall) as [Hs0 Hr0].
  assert (Hb1 : rr_buf (mux_buffer_read b dst n) = b1')
    by (rewrite E; reflexivity).
  subst w b1. rewrite Hb1. clear Hb1 E.
  assert (Hun0 : unread b1' = []).
  { rewrite Hun. apply skipn_all2. lia. }
  pose proof Hok1 as (_ & _ & _ & Hcapb).
  assert (Hnogrow : forall ok : Z -> bool,
            mux_buffer_ensure_capacity ok b1'
              (u64 (size b1' + Z.of_nat (length bytes))) = (MUX_OK, b1')).
  { intros ok. unfold mux_buffer_ensure_capacity. rewrite Hs0, Z.add_0_l.
    rewrite u64_small by lia.
    replace (Z.of_nat (length bytes) <=? capacity b1') with true
      by (symmetry; apply Z.leb_le; lia).
    reflexivity. }
  assert (Hsame :
            mux_buffer_write alloc_ok b1' (Some bytes)
              (Z.of_nat (length bytes)) =
            mux_buffer_write (fun _ => false) b1' (Some bytes)
              (Z.of_nat (length bytes))).
  { unfold mux_buffer_write.
    destruct (Z.of_nat (length bytes) =? 0); [reflexivity |].
    rewrite !Hnogrow. reflexivity. }
  split; [exact Hs0 |]. split; [exact Hr0 |]. split; [exact Hcap |].
  destruct (buffer_write_cases (fun _ => false) b1' bytes Hok1
              ltac:(rewrite Hs0; lia))
    as [(b2 & Ew & Hok2 & Hun2 & _ & _ & Hcap2) | Ew].
  - rewrite Hsame, Ew. cbn [fst snd].
    split; [reflexivity |]. split; [| split; [| reflexivity]].
    + unfold mux_buffer_write in Ew.
      destruct (Z.of_nat (length bytes) =? 0).
      * injection Ew as <-. exact Hcap.
      * rewrite Hnogrow in Ew. cbn [Z.eqb negb MUX_OK] in Ew.
        injection Ew as <-. cbn [capacity]. exact Hcap.
    + rewrite Hun2, Hun0. reflexivity.
  - exfalso. unfold mux_buffer_write in Ew.
    destruct (Z.of_nat (length bytes) =? 0); [discriminate Ew |].
    rewrite Hnogrow in Ew. cbn [Z.eqb negb MUX_OK] in Ew. discriminate Ew.
Qed.

Lemma buffer_drained_storage_is_reused_witness :
  let b := mk_buffer (Some [1; 2; 3; 0]) 3 4 0 in
  let b1 := rr_buf (mux_buffer_read b true 8) in
  size b1 = 0 /\
  fst (mux_buffer_write (fun _ => false) b1 (Some [7; 8; 9; 10]) 4) = MUX_OK.
Proof.
  intros b b1.
  assert (Hok : buf_ok b).
  { unfold buf_ok, buf_inv. cbn.
    repeat split; try lia; try discriminate; reflexivity. }
  destruct (buffer_drained_storage_is_reused (fun _ => true) b true 8
              [7; 8; 9; 10] Hok ltac:(discriminate) ltac:(by_computation)
              ltac:(by_computation))
    as (H1 & _ & _ & H4 & _).
  split; [exact H1 | exact H4].
Defined.

Lemma ensure_capacity_monotone (alloc_ok : Z -> bool) (b : mux_buffer)
    (needed : Z) :
  capacity b <=
  capacity (snd (mux_buffer_ensure_capacity alloc_ok b needed)).
Proof.
  unfold mux_buffer_ensure_capacity.
  destruct (needed <=? capacity b) eqn:Hn; [cbn; lia |].
  apply Z.leb_gt in Hn.
  set (grown := u64 (capacity b + Z.shiftr (capacity b) 1)).
  destruct (grown <? needed) eqn:Hg.
  - destruct (alloc_ok needed); cbn; lia.
  - apply Z.ltb_ge in Hg. destruct (alloc_ok grown); cbn; lia.
Qed.

Lemma run_op_capacity (alloc_ok : Z -> bool) (b : mux_buffer)
    (op : buffer_op) :
  capacity b <= capacity (run_op alloc_ok b op).
Proof.
  destruct op as [src n | dst n |]; cbn [run_op].
  - unfold mux_buffer_write. destruct src as [bytes |]; [| cbn; lia].
    destruct (n =? 0); [cbn; lia |].
    pose proof (ensure_capacity_monotone alloc_ok b (u64 (size b + n))) as H.
    destruct (mux_buffer_ensure_capacity alloc_ok b (u64 (size b + n)))
      as [ret b1].
    cbn [snd] in H. destruct (negb (ret =? MUX_OK)); cbn; exact H.
  - unfold mux_buffer_read.
    destruct (u64 (size b - read_pos b) =? 0); [cbn; lia |].
    cbn [rr_buf]. unfold reset_if_drained, advance.
    cbn [data size capacity read_pos].
    destruct (u64 (read_pos b + _) =? size b); cbn; lia.
  - cbn. lia.
Qed.

(** The storage never shrinks: whatever writes, reads and clears are
    applied to a buffer, with whatever arguments and whatever the
    allocator does, its capacity afterwards is at least what it was. *)
Theorem buffer_capacity_never_shrinks (alloc_ok : Z -> bool)
    (ops : list buffer_op) : forall b : mux_buffer,
  capacity b <= capacity (run_ops alloc_ok b ops).
Proof.
  induction ops as [| op rest IH]; intros b; [cbn; lia |].
  unfold run_ops. cbn [fold_left].
  apply Z.le_trans with (capacity (run_op alloc_ok b op)).
  - apply run_op_capacity.
  - apply IH.
Qed.

(** ** LEB128 varints: what the decoder accepts, what the encoder needs *)

Lemma decode_loop_again_iff (l : list Z) : forall k result count : Z,
  0 <= k <= 9 ->
  dr_ret (leb128_decode_loop l result (7 * k) count) = MUX_ERROR_AGAIN <->
  forallb continues l = true /\ k + Z.of_nat (length l) <= 9.
Proof.
  induction l as [| byte rest IH]; intros k result count Hk.
  - cbn. split; [intros _; split; [reflexivity | lia] | reflexivity].
  - rewrite decode_loop_step. cbn [forallb length].
    destruct (64 <=? 7 * k + 7) eqn:Hov.
    + apply Z.leb_le in Hov. cbn [dr_ret]. split; [discriminate |].
      intros [_ Hlen]. lia.
    + apply Z.leb_gt in Hov. destruct (continues byte); cbn [andb].
      * replace (7 * k + 7) with (7 * (k + 1)) by lia.
        rewrite IH by lia. split; intros [Hc Hlen]; split; try exact Hc; lia.
      * cbn [dr_ret]. split; [discriminate | intros [Hc _]; discriminate Hc].
Qed.

Lemma decode_loop_inval_iff (l : list Z) : forall k result count : Z,
  0 <= k <= 9 ->
  dr_ret (leb128_decode_loop l result (7 * k) count) = MUX_ERROR_INVAL <->
  (9 - k < Z.of_nat (length l) /\
   forallb continues (firstn (Z.to_nat (9 - k)) l) = true).
Proof.
  induction l as [| byte rest IH]; intros k result count Hk.
  - cbn [leb128_decode_loop dr_ret length]. split; [discriminate |].
    intros [Hlen _]. lia.
  - rewrite decode_loop_step. cbn [length].
    destruct (64 <=? 7 * k + 7) eqn:Hov.
    + apply Z.leb_le in Hov. assert (k = 9) by lia. subst k.
      cbn [dr_ret]. split; [intros _ | reflexivity].
      split; [lia | reflexivity].
    + apply Z.leb_gt in Hov.
      replace (Z.to_nat (9 - k)) with (S (Z.to_nat (9 - (k + 1)))) by lia.
      cbn [firstn forallb].
      destruct (continues byte); cbn [andb].
      * replace (7 * k + 7) with (7 * (k + 1)) by lia.
        rewrite IH by lia. split; intros [Hlen Hc]; split; try exact Hc; lia.
      * cbn [dr_ret]. split; [discriminate | intros [_ Hc]; discriminate Hc].
Qed.

Lemma decode_loop_ret_cases (l : list Z) : forall result shift count : Z,
  dr_ret (leb128_decode_loop l result shift count) = MUX_OK \/
  dr_ret (leb128_decode_loop l result shift count) = MUX_ERROR_AGAIN \/
  dr_ret (leb128_decode_loop l result shift count) = MUX_ERROR_INVAL.
Proof.
  induction l as [| byte rest IH]; intros result shift count.
  - right. left. reflexivity.
  - rewrite decode_loop_step.
    destruct (64 <=? shift + 7); [right; right; reflexivity |].
    destruct (continues byte); [apply IH | left; reflexivity].
Qed.

(** The two ways the decoder declines, told apart by the input alone:
    "need more input" exactly when no byte terminates the number and at
    most nine bytes are there; "invalid" exactly when a tenth byte is
    reached, that is, the first nine bytes all carry the continuation
    bit and one more byte follows.  Every other input decodes. *)
Theorem leb128_decode_declines_exactly_when (bytes : list Z) :
  let d := mux_leb128_decode (Some bytes) in
  (dr_ret d = MUX_ERROR_AGAIN <->
   forallb continues bytes = true /\ Z.of_nat (length bytes) <= 9) /\
  (dr_ret d = MUX_ERROR_INVAL <->
   10 <= Z.of_nat (length bytes) /\
   forallb continues (firstn 9 bytes) = true) /\
  (dr_ret d = MUX_OK \/ dr_ret d = MUX_ERROR_AGAIN \/
   dr_ret d = MUX_ERROR_INVAL).
Proof.
  cbv zeta. unfold mux_leb128_decode.
  split; [| split].
  - rewrite (decode_loop_again_iff bytes 0 0 0) by lia.
    split; intros [Hc Hlen]; split; try exact Hc; lia.
  - rewrite (decode_loop_inval_iff bytes 0 0 0) by lia.
    change (Z.to_nat (9 - 0)) with 9%nat.
    split; intros [Hlen Hc]; split; try exact Hc; lia.
  - apply decode_loop_ret_cases.
Qed.

Lemma decode_loop_prefix (l : list Z) : forall (result shift count v n : Z)
    (rest : list Z),
  leb128_decode_loop l result shift count =
    mk_decode_result MUX_OK (Some v) (Some n) ->
  leb128_decode_loop (firstn (Z.to_nat (n - count)) l ++ rest)
    result shift count =
    mk_decode_result MUX_OK (Some v) (Some n).
Proof.
  induction l as [| byte tail IH]; intros result shift count v n rest E;
    [discriminate E |].
  assert (Hn : count < n).
  { clear IH. revert result shift count E.
    generalize (byte :: tail) as l.
    induction l as [| x l IHl]; intros result shift count E;
      [discriminate E |].
    rewrite decode_loop_step in E.
    destruct (64 <=? shift + 7); [discriminate E |].
    destruct (continues x).
    - apply IHl in E. lia.
    - injection E as _ En. lia. }
  replace (Z.to_nat (n - count)) with (S (Z.to_nat (n - (count + 1)))) by lia.
  cbn [firstn app]. rewrite decode_loop_step in *.
  destruct (64 <=? shift + 7); [discriminate E |].
  destruct (continues byte).
  - apply IH. exact E.
  - exact E.
Qed.

(** What a successful decode guarantees: the value is below [2 ^ 63], the
    count of consumed bytes is between one and nine and within the input,
    and neither depends on anything after those bytes. *)
Theorem leb128_decode_ok_is_bounded_and_local (bytes : list Z) (v n : Z) :
  mux_leb128_decode (Some bytes) =
    mk_decode_result MUX_OK (Some v) (Some n) ->
  0 <= v < 2 ^ 63 /\ 1 <= n <= 9 /\ n <= Z.of_nat (length bytes) /\
  forall rest : list Z,
    mux_leb128_decode (Some (firstn (Z.to_nat n) bytes ++ rest)) =
      mk_decode_result MUX_OK (Some v) (Some n).
Proof.
  intros E. destruct (decode_bound bytes v n E) as (Hv & Hn & Hlen).
  repeat split; try lia.
  intros rest. unfold mux_leb128_decode in *.
  pose proof (decode_loop_prefix bytes 0 0 0 v n rest E) as H.
  rewrite Z.sub_0_r in H. exact H.
Qed.

Lemma leb128_decode_ok_is_bounded_and_local_witness :
  mux_leb128_decode (Some [172; 2; 99; 100]) =
    mk_decode_result MUX_OK (Some 300) (Some 2) /\
  mux_leb128_decode (Some ([172; 2] ++ [7])) =
    mk_decode_result MUX_OK (Some 300) (Some 2).
Proof.
  destruct (leb128_decode_ok_is_bounded_and_local [172; 2; 99; 100] 300 2
              eq_refl) as (_ & _ & _ & H).
  split; [reflexivity | exact (H [7])].
Defined.

(** Below [2 ^ 63] encoding and decoding are inverse: the encoder's
    bytes, followed by anything at all, decode to the value and to the
    number of bytes the encoder wrote, which is at most nine. *)
Theorem leb128_roundtrip_with_trailing_bytes (v : Z) :
  0 <= v < 2 ^ 63 ->
  exists (n : Z) (bytes : list Z),
    mux_leb128_encode v true 10 = Some (n, bytes) /\
    n = Z.of_nat (length bytes) /\ 1 <= n <= 9 /\
    forall rest : list Z,
      mux_leb128_decode (Some (bytes ++ rest)) =
        mk_decode_result MUX_OK (Some v) (Some n).
Proof.
  intros Hv.
  assert (Hv64 : 0 <= v < 2 ^ 64)
    by (split; [lia | apply Z.lt_trans with (2 ^ 63); [lia | reflexivity]]).
  destruct (leb128_encode_total v Hv64) as [Henc [Hpos _]].
  exists (Z.of_nat (length (leb128_bytes v))), (leb128_bytes v).
  split; [exact Henc |]. split; [reflexivity |].
  split; [split; [exact Hpos | apply leb128_bytes_short; exact Hv] |].
  intros rest. apply leb128_roundtrip_below_2_63. exact Hv.
Qed.

Lemma leb128_roundtrip_with_trailing_bytes_witness :
  exists (n : Z) (bytes : list Z),
    mux_leb128_encode 300 true 10 = Some (n, bytes) /\
    mux_leb128_decode (Some (bytes ++ [1; 2; 3])) =
      mk_decode_result MUX_OK (Some 300) (Some n).
Proof.
  destruct (leb128_roundtrip_with_trailing_bytes 300
              ltac:(split; by_computation))
    as (n & bytes & E & _ & _ & H).
  exists n, bytes. split; [exact E | exact (H [1; 2; 3])].
Defined.

Lemma encode_loop_short_of_room (fuel : nat) : forall (v output_size count : Z)
    (output : list Z),
  (1 <= fuel)%nat -> 0 <= v < 2 ^ (7 * Z.of_nat fuel) ->
  count <= output_size ->
  output_size < count + Z.of_nat (length (leb128_groups fuel v)) ->
  leb128_encode_loop fuel v output_size count output =
  Some (MUX_ERROR_INVAL,
        output ++ firstn (Z.to_nat (output_size - count))
                         (leb128_groups fuel v)).
Proof.
  induction fuel as [| f IH]; intros v osz count out Hf Hv Hc Hroom; [lia |].
  rewrite encode_loop_step.
  destruct (osz <=? count) eqn:Hfull.
  - apply Z.leb_le in Hfull.
    replace (Z.to_nat (osz - count)) with 0%nat by lia.
    cbn [firstn]. rewrite app_nil_r. reflexivity.
  - apply Z.leb_gt in Hfull.
    rewrite Z.shiftr_div_pow2 by lia. change (2 ^ 7) with 128.
    change 0x7f with 127. rewrite land_127.
    cbn [leb128_groups] in *.
    destruct (v / 128 =? 0) eqn:Hd; cbn [negb].
    + cbn [length] in Hroom. lia.
    + apply Z.eqb_neq in Hd.
      pose proof (Z.mod_pos_bound v 128 ltac:(lia)) as Hm.
      change 0x80 with 128. rewrite lor_small_128 by exact Hm.
      pose proof (div128_bound v (Z.of_nat (S f)) ltac:(lia) Hv) as Hb.
      replace (Z.of_nat (S f) - 1) with (Z.of_nat f) in Hb by lia.
      assert (Hf1 : (1 <= f)%nat).
      { destruct f as [| f']; [| lia].
        change (2 ^ (7 * Z.of_nat 0)) with 1 in Hb. lia. }
      cbn [length] in Hroom.
      rewrite IH by (try assumption; lia).
      replace (Z.to_nat (osz - count)) with (S (Z.to_nat (osz - (count + 1))))
        by lia.
      cbn [firstn]. rewrite <- app_assoc. reflexivity.
Qed.

(** The encoder needs exactly as many output bytes as the value has 7-bit
    groups: with that much room it returns the count and the bytes; with
    less it returns [MUX_ERROR_INVAL], having filled the room it was given
    with the leading bytes of the encoding. *)
Theorem leb128_encode_needs_room (v output_size : Z) :
  0 <= v < 2 ^ 64 -> 0 <= output_size ->
  let bytes := leb128_bytes v in
  (Z.of_nat (length bytes) <= output_size ->
   mux_leb128_encode v true output_size =
     Some (Z.of_nat (length bytes), bytes)) /\
  (output_size < Z.of_nat (length bytes) ->
   mux_leb128_encode v true output_size =
     Some (MUX_ERROR_INVAL, firstn (Z.to_nat output_size) bytes)) /\
  mux_leb128_encode v false output_size = Some (MUX_ERROR_INVAL, []).
Proof.
  intros Hv Hosz bytes. unfold bytes, leb128_bytes, mux_leb128_encode.
  cbn [negb]. split; [| split; [| reflexivity]].
  - intros Hroom.
    rewrite encode_loop_groups;
      [reflexivity | lia | apply groups_bound_64; exact Hv | lia].
  - intros Hshort.
    rewrite encode_loop_short_of_room;
      [| lia | apply groups_bound_64; exact Hv | lia | lia].
    rewrite Z.sub_0_r. reflexivity.
Qed.

Lemma leb128_encode_needs_room_witness :
  mux_leb128_encode 300 true 2 = Some (2, [172; 2]) /\
  mux_leb128_encode 300 true 1 = Some (MUX_ERROR_INVAL, [172]).
Proof.
  destruct (leb128_encode_needs_room 300 2 ltac:(split; by_computation)
              ltac:(by_computation)) as (H2 & _ & _).
  destruct (leb128_encode_needs_room 300 1 ltac:(split; by_computation)
              ltac:(by_computation)) as (_ & H1 & _).
  split; [apply H2; by_computation | apply H1; by_computation].
Defined.

(** The length of an encoding is the number of 7-bit groups of the value:
    it fits [k] bytes exactly when the value is below [2 ^ (7 * k)].  One
    byte up to 127, two up to 16383, ten only from [2 ^ 63] on. *)
Theorem leb128_length_by_magnitude (v k : Z) :
  0 <= v < 2 ^ 64 -> 1 <= k <= 10 ->
  exists (n : Z) (bytes : list Z),
    mux_leb128_encode v true 10 = Some (n, bytes) /\
    n = Z.of_nat (length bytes) /\
    (n <= k <-> v < 2 ^ (7 * k)).
Proof.
  intros Hv Hk. destruct (leb128_encode_total v Hv) as [Henc _].
  exists (Z.of_nat (length (leb128_bytes v))), (leb128_bytes v).
  split; [exact Henc |]. split; [reflexivity |]. split.
  - intros Hlen.
    destruct (Z_lt_le_dec v (2 ^ (7 * k))) as [Hlt | Hge]; [exact Hlt |].
    pose proof (groups_length_ge 64 (Z.to_nat k) v ltac:(lia)) as Hlow.
    rewrite Z2Nat.id in Hlow by lia. specialize (Hlow Hge).
    unfold leb128_bytes in Hlen. lia.
  - intros Hlt. apply groups_length_le; [lia | split; [lia | exact Hlt]].
Qed.

Lemma leb128_length_by_magnitude_witness :
  exists (n : Z) (bytes : list Z),
    mux_leb128_encode 127 true 10 = Some (n, bytes) /\ n <= 1.
Proof.
  destruct (leb128_length_by_magnitude 127 1 ltac:(split; by_computation)
              ltac:(split; by_computation)) as (n & bytes & E & _ & H).
  exists n, bytes. split; [exact E | apply H; by_computation].
Defined.

(** ** Frame codec: one frame at a time, and the unframed mode *)

(** Reading takes exactly the first frame: when the unread bytes start
    with the frame of [P], the call returns [P] (or, given a null
    destination, copies nothing and needs no capacity), its length and
    its stream bit, and what followed the frame is what remains unread,
    untouched and in order. *)
Theorem read_frame_takes_first_frame (b : mux_buffer) (payload : bool)
    (payload_capacity st : Z) (P rest : list Z) :
  buf_ok b -> unread b = frame_wire st P ++ rest ->
  Z.of_nat (length P) < 2 ^ 62 ->
  st = MUX_STREAM_AUDIO \/ st = MUX_STREAM_SIDE_CHANNEL ->
  (payload = true -> Z.of_nat (length P) <= payload_capacity) ->
  let r := mux_leb128_read_frame b payload payload_capacity 2 in
  fr_ret r = MUX_OK /\
  stored (fr_payload r) = (if payload then P else []) /\
  fr_payload_size r = Some (Z.of_nat (length P)) /\
  fr_stream_type r = Some st /\
  unread (fr_buf r) = rest /\ buf_ok (fr_buf r).
Proof.
  intros Hok Hun HP Hst Hroom r. unfold r.
  pose proof (frame_wire_complete st P HP Hst b rest Hun) as Hfull.
  destruct (header_split (Z.of_nat (length P)) st ltac:(lia) Hst)
    as [Hps Hbit].
  destruct (read_frame_complete b payload payload_capacity Hok _ _ Hfull
              ltac:(intros Hp; rewrite Hps; apply Hroom; exact Hp))
    as (b1 & -> & Hok1 & Hun1).
  cbn [fr_ret fr_payload fr_payload_size fr_stream_type fr_buf].
  rewrite Hps, Hbit in *.
  split; [reflexivity |]. split; [| split; [reflexivity |
    split; [reflexivity | split; [| exact Hok1]]]].
  - destruct payload; [| reflexivity]. cbn [andb].
    destruct (0 <? Z.of_nat (length P)) eqn:Hpos.
    + cbn [stored]. rewrite Hun, !Nat2Z.id. apply frame_wire_payload.
    + apply Z.ltb_ge in Hpos. cbn [stored].
      destruct P; [reflexivity | cbn [length] in Hpos; lia].
  - rewrite Hun1, Hun.
    replace (Z.to_nat (Z.of_nat (length (frame_header (Z.of_nat (length P)) st))
                       + Z.of_nat (length P)))
      with (length (frame_wire st P))
      by (unfold frame_wire; rewrite length_app; lia).
    rewrite skipn_app, skipn_all, Nat.sub_diag. reflexivity.
Qed.

Lemma read_frame_takes_first_frame_witness :
  let b := mk_buffer (Some [5; 7; 9; 2; 4; 0]) 5 6 0 in
  stored (fr_payload (mux_leb128_read_frame b true 8 2)) = [7; 9] /\
  fr_stream_type (mux_leb128_read_frame b true 8 2) =
    Some MUX_STREAM_SIDE_CHANNEL /\
  unread (fr_buf (mux_leb128_read_frame b true 8 2)) = [2; 4].
Proof.
  intros b.
  assert (Hok : buf_ok b).
  { unfold buf_ok, buf_inv. cbn.
    repeat split; try lia; try discriminate; reflexivity. }
  destruct (read_frame_takes_first_frame b true 8 MUX_STREAM_SIDE_CHANNEL
              [7; 9] [2; 4] Hok eq_refl ltac:(by_computation)
              (or_intror eq_refl) ltac:(intros _; by_computation))
    as (_ & H2 & _ & H4 & H5 & _).
  split; [exact H2 | split; [exact H4 | exact H5]].
Defined.

(** In passthrough mode [mux_leb128_read_frame] is [mux_buffer_read] with
    the result tagged as audio: same return code, same count, same bytes,
    same buffer afterwards. *)
Theorem passthrough_read_frame_is_buffer_read (b : mux_buffer)
    (payload_capacity : Z) :
  let f := mux_leb128_read_frame b true payload_capacity 1 in
  let r := mux_buffer_read b true payload_capacity in
  fr_ret f = rr_ret r /\ fr_buf f = rr_buf r /\
  (rr_ret r = MUX_OK ->
   fr_payload_size f = Some (rr_bytes_read r) /\
   fr_stream_type f = Some MUX_STREAM_AUDIO /\
   stored (fr_payload f) = stored (rr_copied r)) /\
  (rr_ret r <> MUX_OK ->
   fr_payload f = None /\ fr_payload_size f = None /\
   fr_stream_type f = None).
Proof.
  cbv zeta. rewrite read_frame_passthrough. unfold mux_buffer_read. cbv zeta.
  destruct (u64 (size b - read_pos b) =? 0).
  - cbn. repeat split; try reflexivity; try discriminate.
  - cbn [fr_ret fr_buf fr_payload fr_payload_size fr_stream_type
         rr_ret rr_buf rr_bytes_read rr_copied].
    split; [reflexivity |]. split; [reflexivity |].
    split; [| intros H; contradiction H; reflexivity].
    intros _. split; [reflexivity |]. split; [reflexivity |].
    cbn [andb].
    set (k := if u64 (size b - read_pos b) <? payload_capacity
              then u64 (size b - read_pos b) else payload_capacity).
    destruct (0 <? k) eqn:Hk; [reflexivity |].
    apply Z.ltb_ge in Hk. cbn [stored]. unfold bytes_at.
    replace (Z.to_nat k) with 0%nat by lia. reflexivity.
Qed.

Section PassthroughProps.

Variable alloc_ok : Z -> bool.
Hypothesis alloc_always : forall n : Z, alloc_ok n = true.

(** Passthrough mode carries bytes and nothing else: a payload written
    with either stream type goes onto the wire verbatim, without a header,
    and is read back -- given room for it -- as the same bytes, tagged as
    audio whatever it was written as. *)
Theorem passthrough_roundtrip_forgets_stream (out : mux_buffer)
    (P : list Z) (stream_type payload_capacity : Z) :
  buf_ok out -> unread out = [] -> P <> [] ->
  size out + Z.of_nat (length P) < U64_MOD ->
  Z.of_nat (length P) <= payload_capacity ->
  exists out1 : mux_buffer,
    mux_leb128_write_frame alloc_ok out (Some P) (Z.of_nat (length P))
      stream_type 1 = Some (MUX_OK, out1) /\
    unread out1 = P /\
    let r := mux_leb128_read_frame out1 true payload_capacity 1 in
    fr_ret r = MUX_OK /\ fr_payload r = Some P /\
    fr_payload_size r = Some (Z.of_nat (length P)) /\
    fr_stream_type r = Some MUX_STREAM_AUDIO /\
    unread (fr_buf r) = [].
Proof.
  intros Hok Hemp HP Hfit Hroom.
  assert (Hlen : 0 < Z.of_nat (length P))
    by (destruct P; [contradiction | cbn [length]; lia]).
  destruct (payload_write_ok alloc_ok alloc_always out P Hok Hfit)
    as (out1 & E & Hok1 & Hun & _).
  exists out1. split; [| split].
  - unfold mux_leb128_write_frame. change (1 =? 1) with true. cbv iota.
    exact E.
  - rewrite Hun, Hemp. reflexivity.
  - cbv zeta. rewrite Hemp in Hun. cbn [app] in Hun.
    rewrite read_frame_passthrough. cbv zeta.
    pose proof (unread_length out1 Hok1) as Hul. rewrite Hun in Hul.
    pose proof (buf_ok_size out1 Hok1) as Hsz.
    pose proof Hok1 as ((Hr & Hs & Hc) & _).
    rewrite (u64_small (size out1 - read_pos out1)) by lia.
    destruct (size out1 - read_pos out1 =? 0) eqn:Hz;
      [apply Z.eqb_eq in Hz; lia |].
    replace (if size out1 - read_pos out1 <? payload_capacity
             then size out1 - read_pos out1 else payload_capacity)
      with (Z.of_nat (length P))
      by (destruct (size out1 - read_pos out1 <? payload_capacity) eqn:Hlt;
          [apply Z.ltb_lt in Hlt | apply Z.ltb_ge in Hlt]; lia).
    cbn [fr_ret fr_payload fr_payload_size fr_stream_type fr_buf andb].
    replace (0 <? Z.of_nat (length P)) with true
      by (symmetry; apply Z.ltb_lt; exact Hlen).
    split; [reflexivity |]. split; [| split; [reflexivity |
      split; [reflexivity |]]].
    + f_equal. rewrite <- Hun at 2. unfold unread. rewrite Hul.
      reflexivity.
    + unfold reset_if_drained, advance. cbn [data size capacity read_pos].
      rewrite (u64_small (read_pos out1 + Z.of_nat (length P))) by lia.
      replace (read_pos out1 + Z.of_nat (length P) =? size out1) with true
        by (symmetry; apply Z.eqb_eq; lia).
      reflexivity.
Qed.

End PassthroughProps.

Lemma passthrough_roundtrip_forgets_stream_witness :
  let ok := fun _ : Z => true in
  let out := snd (mux_buffer_init ok 8) in
  exists out1 : mux_buffer,
    mux_leb128_write_frame ok out (Some [3; 4]) 2 MUX_STREAM_SIDE_CHANNEL 1 =
      Some (MUX_OK, out1) /\
    unread out1 = [3; 4] /\
    fr_stream_type (mux_leb128_read_frame out1 true 2 1) =
      Some MUX_STREAM_AUDIO.
Proof.
  intros ok out.
  assert (Hok : buf_ok out).
  { unfold buf_ok, buf_inv. cbn.
    repeat split; try lia; try discriminate; reflexivity. }
  destruct (passthrough_roundtrip_forgets_stream ok (fun _ => eq_refl) out
              [3; 4] MUX_STREAM_SIDE_CHANNEL 2 Hok eq_refl
              ltac:(discriminate) ltac:(by_computation)
              ltac:(by_computation))
    as (out1 & E & Hun & _ & _ & _ & H4 & _).
  exists out1. split; [exact E | split; [exact Hun | exact H4]].
Defined.

(** ** Registry: what a lookup returns *)

Lemma codec_lookup_position (cfg : build_config) (type : Z) (o : ops_addr) :
  mux_get_codec_ops cfg type = Some o -> codec_of_ops o = type.
Proof.
  unfold mux_get_codec_ops, MUX_CODEC_MAX.
  destruct ((type <? 0) || (10 <=? type)) eqn:Hrange; [discriminate |].
  apply orb_false_iff in Hrange. destruct Hrange as [H0 H10].
  apply Z.ltb_ge in H0. apply Z.leb_gt in H10.
  assert (Hcases : type = 0 \/ type = 1 \/ type = 2 \/ type = 3 \/
                   type = 4 \/ type = 5 \/ type = 6 \/ type = 7 \/
                   type = 8 \/ type = 9) by lia.
  destruct cfg as [mp3 vorbis opus flac aac amr amr_wb].
  repeat (destruct Hcases as [-> | Hcases]); try subst type; cbn;
    intros E;
    repeat match goal with
           | H : context [ifdef ?f _] |- _ => destruct f; cbn in H
           end;
    try discriminate E; injection E as <-; reflexivity.
Qed.

(** The registry hands out the right table or none: a lookup returns null
    exactly for identifiers outside the range or left out of the build;
    what it returns otherwise is the table registered at that identifier,
    so no two identifiers share one; and PCM, A-law and mu-law are there
    in every build. *)
Theorem codec_lookup_characterised (cfg : build_config) :
  (forall type : Z,
     mux_get_codec_ops cfg type = None <-> entry_absent cfg type) /\
  (forall (t1 t2 : Z) (o : ops_addr),
     mux_get_codec_ops cfg t1 = Some o ->
     mux_get_codec_ops cfg t2 = Some o -> t1 = t2) /\
  mux_get_codec_ops cfg MUX_CODEC_PCM = Some mux_codec_pcm_ops /\
  mux_get_codec_ops cfg MUX_CODEC_ALAW = Some mux_codec_alaw_ops /\
  mux_get_codec_ops cfg MUX_CODEC_MULAW = Some mux_codec_mulaw_ops.
Proof.
  split; [| split; [| repeat split]].
  - intros type. symmetry. apply entry_absent_lookup.
  - intros t1 t2 o E1 E2.
    apply codec_lookup_position in E1. apply codec_lookup_position in E2.
    congruence.
Qed.

(** ** Facade: construction, roll-back, use after release *)

Section FacadeLifeCycleProps.

Variable alloc_ok : Z -> bool.
Variables E D mux_param : Type.
Variable sizeof_mux_decoder : Z.
Variable cfg : build_config.
Variable ops_at : ops_addr -> mux_codec_ops E mux_param.
Variable rest_at : ops_addr -> mux_codec_ops_rest E D mux_param.

(** [mux_encoder_init] never calls through a null pointer, whatever the
    build and the tables hold.  Where it succeeds, it has entered the
    adapter's constructor exactly once, handing it an encoder with the
    requested settings and an empty 4096-byte output buffer.  Where it
    fails after the stream-count check, the encoder it leaves behind
    owns no output storage: a failing adapter constructor does not leak
    the buffer. *)
Theorem encoder_init_calls_once_and_rolls_back
    (enc0 : mux_encoder E)
    (codec_type sample_rate num_channels num_streams : Z)
    (params : list mux_param) :
  exists r : encoder_init_result E,
    mux_encoder_init alloc_ok E mux_param cfg ops_at (Some enc0) codec_type
      sample_rate num_channels num_streams params = Returned r /\
    (ei_ret r = MUX_OK ->
     exists (o : ops_addr)
            (init : mux_encoder E -> Z -> Z -> list mux_param ->
                    Z * mux_encoder E) (enc1 : mux_encoder E),
       mux_get_codec_ops cfg codec_type = Some o /\
       encoder_init (ops_at o) = Some init /\
       (num_streams = 1 \/ num_streams = 2) /\
       init (mk_encoder codec_type (Some o) sample_rate num_channels
               num_streams
               (mk_buffer (Some (repeat 0 4096)) 0 4096 0) no_error None)
            sample_rate num_channels params = (MUX_OK, enc1) /\
       ei_enc r = Some enc1 /\ ei_calls r = [Call_encoder_init o]) /\
    (ei_ret r <> MUX_OK ->
     (ei_enc r = Some enc0 /\ ei_calls r = [] /\
      num_streams <> 1 /\ num_streams <> 2)
     \/ exists enc1 : mux_encoder E,
          ei_enc r = Some enc1 /\ enc_output enc1 = zeroed_buffer).
Proof.
  unfold mux_encoder_init.
  destruct (negb (num_streams =? 1) && negb (num_streams =? 2)) eqn:Hns.
  - eexists. split; [reflexivity |]. cbn [ei_ret ei_enc ei_calls].
    split; [discriminate |]. intros _. left.
    apply andb_true_iff in Hns. destruct Hns as [H1 H2].
    apply negb_true_iff in H1, H2. apply Z.eqb_neq in H1, H2.
    repeat split; assumption.
  - assert (Hvalid : num_streams = 1 \/ num_streams = 2).
    { apply andb_false_iff in Hns.
      destruct Hns as [H | H]; apply negb_false_iff in H;
        apply Z.eqb_eq in H; [left | right]; exact H. }
    destruct (mux_get_codec_ops cfg codec_type) as [o |] eqn:Hops.
    2:{ eexists. split; [reflexivity |]. cbn [ei_ret ei_enc ei_calls].
        split; [discriminate |]. intros _. right.
        eexists. split; reflexivity. }
    destruct (encoder_init (ops_at o)) as [init |] eqn:Hinit.
    2:{ eexists. split; [reflexivity |]. cbn [ei_ret ei_enc ei_calls].
        split; [discriminate |]. intros _. right.
        eexists. split; reflexivity. }
    unfold mux_buffer_init. change (0 <? 4096) with true. cbv iota.
    destruct (alloc_ok 4096).
    + change (negb (MUX_OK =? MUX_OK)) with false. cbv iota.
      cbn [call_ptr]. rewrite Hinit. cbn [call_ptr].
      cbn [enc_codec_type enc_ops enc_sample_rate enc_num_channels
           enc_num_streams enc_output enc_error enc_codec_data
           zeroed_encoder].
      change (Z.to_nat 4096) with 4096%nat.
      destruct (init _ sample_rate num_channels params) as [ret enc1] eqn:Ei.
      destruct (ret =? MUX_OK) eqn:Hret; cbn [negb].
      * apply Z.eqb_eq in Hret. subst ret.
        eexists. split; [reflexivity |]. cbn [ei_ret ei_enc ei_calls].
        split; [| intros H; contradiction H; reflexivity].
        intros _. exists o, init, enc1.
        repeat split; try assumption; reflexivity.
      * apply Z.eqb_neq in Hret.
        eexists. split; [reflexivity |]. cbn [ei_ret ei_enc ei_calls].
        split; [intros H; contradiction |]. intros _. right.
        eexists. split; reflexivity.
    + change (negb (MUX_ERROR_NOMEM =? MUX_OK)) with true. cbv iota.
      eexists. split; [reflexivity |]. cbn [ei_ret ei_enc ei_calls].
      split; [discriminate |]. intros _. right.
      eexists. split; reflexivity.
Qed.

(** The decoder constructor has the same discipline with two buffers: no
    call through a null pointer; on success the adapter's constructor was
    entered exactly once, with an empty 4096-byte audio buffer and an
    empty 1024-byte side-channel buffer; on any failure after the
    stream-count check -- the side-channel allocation after the audio one
    succeeded, or the adapter's constructor -- the decoder left behind owns
    neither buffer. *)
Theorem decoder_init_calls_once_and_rolls_back
    (dec0 : mux_decoder D) (codec_type num_streams : Z)
    (params : list mux_param) :
  exists r : decoder_init_result D,
    mux_decoder_init alloc_ok E D mux_param cfg rest_at (Some dec0)
      codec_type num_streams params = Returned r /\
    (di_ret r = MUX_OK ->
     exists (o : ops_addr)
            (init : mux_decoder D -> list mux_param -> Z * mux_decoder D)
            (dec1 : mux_decoder D),
       mux_get_codec_ops cfg codec_type = Some o /\
       decoder_init (rest_at o) = Some init /\
       (num_streams = 1 \/ num_streams = 2) /\
       init (mk_decoder codec_type (Some o) num_streams
               (mk_buffer (Some (repeat 0 4096)) 0 4096 0)
               (mk_buffer (Some (repeat 0 1024)) 0 1024 0) no_error None)
            params = (MUX_OK, dec1) /\
       di_dec r = Some dec1 /\ di_calls r = [Run_decoder_init o]) /\
    (di_ret r <> MUX_OK ->
     (di_dec r = Some dec0 /\ di_calls r = [] /\
      num_streams <> 1 /\ num_streams <> 2)
     \/ exists dec1 : mux_decoder D,
          di_dec r = Some dec1 /\
          audio_output dec1 = zeroed_buffer /\
          side_output dec1 = zeroed_buffer).
Proof.
  unfold mux_decoder_init.
  destruct (negb (num_streams =? 1) && negb (num_streams =? 2)) eqn:Hns.
  - eexists. split; [reflexivity |]. cbn [di_ret di_dec di_calls].
    split; [discriminate |]. intros _. left.
    apply andb_true_iff in Hns. destruct Hns as [H1 H2].
    apply negb_true_iff in H1, H2. apply Z.eqb_neq in H1, H2.
    repeat split; assumption.
  - assert (Hvalid : num_streams = 1 \/ num_streams = 2).
    { apply andb_false_iff in Hns.
      destruct Hns as [H | H]; apply negb_false_iff in H;
        apply Z.eqb_eq in H; [left | right]; exact H. }
    destruct (mux_get_codec_ops cfg codec_type) as [o |] eqn:Hops.
    2:{ eexists. split; [reflexivity |]. cbn [di_ret di_dec di_calls].
        split; [discriminate |]. intros _. right.
        eexists. repeat split. }
    destruct (decoder_init (rest_at o)) as [init |] eqn:Hinit.
    2:{ eexists. split; [reflexivity |]. cbn [di_ret di_dec di_calls].
        split; [discriminate |]. intros _. right.
        eexists. repeat split. }
    unfold mux_buffer_init.
    change (0 <? 4096) with true. change (0 <? 1024) with true. cbv iota.
    destruct (alloc_ok 4096).
    2:{ change (negb (MUX_ERROR_NOMEM =? MUX_OK)) with true. cbv iota.
        eexists. split; [reflexivity |]. cbn [di_ret di_dec di_calls].
        split; [discriminate |]. intros _. right.
        eexists. repeat split. }
    change (negb (MUX_OK =? MUX_OK)) with false. cbv iota.
    destruct (alloc_ok 1024).
    2:{ change (negb (MUX_ERROR_NOMEM =? MUX_OK)) with true. cbv iota.
        eexists. split; [reflexivity |]. cbn [di_ret di_dec di_calls].
        split; [discriminate |]. intros _. right.
        eexists. repeat split. }
    change (negb (MUX_OK =? MUX_OK)) with false. cbv iota.
    cbn [call_ptr]. rewrite Hinit. cbn [call_ptr].
    cbn [dec_codec_type dec_ops dec_num_streams audio_output side_output
         dec_error dec_codec_data zeroed_decoder].
    change (Z.to_nat 4096) with 4096%nat.
    change (Z.to_nat 1024) with 1024%nat.
    destruct (init _ params) as [ret dec1] eqn:Ei.
    destruct (ret =? MUX_OK) eqn:Hret; cbn [negb].
    + apply Z.eqb_eq in Hret. subst ret.
      eexists. split; [reflexivity |]. cbn [di_ret di_dec di_calls].
      split; [| intros H; contradiction H; reflexivity].
      intros _. exists o, init, dec1.
      repeat split; try assumption; reflexivity.
    + apply Z.eqb_neq in Hret.
      eexists. split; [reflexivity |]. cbn [di_ret di_dec di_calls].
      split; [intros H; contradiction |]. intros _. right.
      eexists. repeat split.
Qed.

(** Once [mux_encoder_deinit] has run, the encoder is inert: encode, read
    and finalize on it all return [MUX_ERROR_INVAL] without reaching any
    adapter, and none of this -- the release included -- ever calls
    through a null pointer. *)
Theorem released_encoder_rejects_every_call (enc : mux_encoder E)
    (input : option (list Z)) (input_size stream_type : Z)
    (output : bool) (output_size : Z) :
  exists (gone : mux_encoder E) (calls : list lifecycle_call),
    mux_encoder_deinit E mux_param ops_at enc = Returned (gone, calls) /\
    enc_ops gone = None /\ enc_output gone = zeroed_buffer /\
    enc_codec_data gone = None /\
    mux_encoder_encode E D mux_param rest_at gone input input_size
      stream_type =
      Returned (mk_encode_outcome MUX_ERROR_INVAL gone None) /\
    mux_encoder_read E D mux_param rest_at gone output output_size =
      Returned (mk_encoder_read_outcome MUX_ERROR_INVAL gone None None) /\
    mux_encoder_finalize E D mux_param rest_at gone =
      Returned (MUX_ERROR_INVAL, gone).
Proof.
  exists (zeroed_encoder E).
  unfold mux_encoder_deinit.
  destruct (enc_ops enc) as [o |] eqn:Hops.
  - destruct (encoder_deinit (ops_at o)) as [deinit |] eqn:Hd.
    + cbn [call_ptr]. rewrite Hd. cbn [call_ptr].
      eexists. repeat split.
    + eexists. repeat split.
  - eexists. repeat split.
Qed.

End FacadeLifeCycleProps.

(** ** Codec names and error strings *)

Lemma codec_from_name_loop_sound (entries : list mux_codec_info)
    (name : String.string) (c : Z) :
  codec_from_name_loop entries name = (MUX_OK, Some c) ->
  exists entry : mux_codec_info,
    In entry entries /\ ci_name entry = name /\ ci_type entry = c.
Proof.
  induction entries as [| e rest IH]; intros H; [discriminate H |].
  cbn [codec_from_name_loop] in H.
  destruct (String.eqb (ci_name e) name) eqn:He.
  - injection H as <-. apply String.eqb_eq in He.
    exists e. split; [left; reflexivity | split; [exact He | reflexivity]].
  - destruct (IH H) as (entry & Hin & Hn & Ht).
    exists entry. split; [right; exact Hin | split; assumption].
Qed.

(** Names and identifiers correspond one to one: every identifier in the
    range has a name that looks up to that very identifier; a lookup that
    succeeds returns an identifier in the range whose name is the one
    asked for; the null pointer, as a name or as the place for the
    result, and an identifier outside the range are answered with
    [MUX_ERROR_INVAL] and the null pointer. *)
Theorem codec_names_roundtrip :
  (forall codec : Z, 0 <= codec < MUX_CODEC_MAX ->
     exists name : String.string,
       mux_codec_to_name codec = Some name /\
       mux_codec_from_name (Some name) true = (MUX_OK, Some codec)) /\
  (forall (name : String.string) (r : Z * option Z),
     mux_codec_from_name (Some name) true = r ->
     (exists codec : Z,
        r = (MUX_OK, Some codec) /\ 0 <= codec < MUX_CODEC_MAX /\
        mux_codec_to_name codec = Some name)
     \/ r = (MUX_ERROR_INVAL, None)) /\
  (forall codec : Z, codec < 0 \/ MUX_CODEC_MAX <= codec ->
     mux_codec_to_name codec = None) /\
  (forall codec : bool, mux_codec_from_name None codec
                        = (MUX_ERROR_INVAL, None)) /\
  (forall name : option String.string,
     mux_codec_from_name name false = (MUX_ERROR_INVAL, None)).
Proof.
  split; [| split; [| split; [| split]]].
  - intros codec Hc. unfold MUX_CODEC_MAX in Hc.
    assert (Hcases : codec = 0 \/ codec = 1 \/ codec = 2 \/ codec = 3 \/
                     codec = 4 \/ codec = 5 \/ codec = 6 \/ codec = 7 \/
                     codec = 8 \/ codec = 9) by lia.
    repeat (destruct Hcases as [-> | Hcases]); try subst codec;
      eexists; split; reflexivity.
  - intros name r <-. unfold mux_codec_from_name. cbn [negb].
    destruct (codec_from_name_loop codec_info_table name) as [ret oc] eqn:El.
    assert (Hshape : (exists c, (ret, oc) = (MUX_OK, Some c))
                     \/ (ret, oc) = (MUX_ERROR_INVAL, None)).
    { clear -El. revert El. generalize codec_info_table as entries.
      induction entries as [| e rest IH]; cbn [codec_from_name_loop].
      - intros E. right. symmetry. exact E.
      - destruct (String.eqb (ci_name e) name).
        + intros E. left. exists (ci_type e). symmetry. exact E.
        + exact IH. }
    destruct Hshape as [(c & Ec) | Ec]; [left | right; exact Ec].
    exists c. split; [exact Ec |].
    rewrite Ec in El. apply codec_from_name_loop_sound in El.
    destruct El as (entry & Hin & Hn & Ht). subst name c.
    unfold codec_info_table in Hin. cbn [In] in Hin.
    repeat (destruct Hin as [<- | Hin];
            [split; [split; by_computation | reflexivity] |]).
    contradiction.
  - intros codec Hc. unfold mux_codec_to_name.
    replace ((codec <? 0) || (MUX_CODEC_MAX <=? codec)) with true;
      [reflexivity |].
    symmetry. apply orb_true_iff.
    destruct Hc as [H | H]; [left; apply Z.ltb_lt | right; apply Z.leb_le];
      exact H.
  - reflexivity.
  - intros [name |]; reflexivity.
Qed.

Lemma codec_names_roundtrip_witness :
  mux_codec_to_name MUX_CODEC_AMR_WB = Some "amr-wb"%string /\
  mux_codec_from_name (Some "amr-wb"%string) true =
    (MUX_OK, Some MUX_CODEC_AMR_WB) /\
  mux_codec_to_name 10 = None.
Proof.
  destruct codec_names_roundtrip as (_ & _ & H3 & _).
  split; [reflexivity | split; [reflexivity |]].
  apply H3. right. by_computation.
Defined.



(** ** AMR frame sizes *)

Lemma holds_on_block_sound (k : nat) : forall (lo : Z) (p : Z -> bool),
  holds_on_block k lo p = true ->
  forall x : Z, lo <= x < lo + 2 ^ Z.of_nat k -> p x = true.
Proof.
  induction k as [| k IH]; intros lo p H x Hx.
  - cbn in Hx. assert (x = lo) by lia. subst x. exact H.
  - cbn [holds_on_block] in H. apply andb_true_iff in H.
    destruct H as [H1 H2].
    rewrite Nat2Z.inj_succ, Z.pow_succ_r in Hx by lia.
    destruct (Z_lt_ge_dec x (lo + 2 ^ Z.of_nat k)) as [Hlt | Hge].
    + apply (IH lo p H1). lia.
    + apply (IH _ p H2). lia.
Qed.

(** For every mode byte the frame size is one of the table's entries,
    between 0 and the 32 bytes of the largest frame: the [-1] branch
    cannot be taken.  It is 0 exactly for the reserved frame types 9 to
    14, and it is decided by bits 3 to 6 alone. *)
Theorem amr_frame_size_of_mode_byte (mode_byte : Z) :
  0 <= mode_byte < 256 ->
  0 <= amr_get_frame_size mode_byte <= AMR_MAX_FRAME_SIZE /\
  In (amr_get_frame_size mode_byte) frame_sizes /\
  (amr_get_frame_size mode_byte = 0 <->
   9 <= (mode_byte / 8) mod 16 <= 14) /\
  amr_get_frame_size mode_byte = amr_get_frame_size (Z.land mode_byte 0x78).
Proof.
  intros Hb.
  pose (p := fun b : Z =>
    let s := amr_get_frame_size b in
    (0 <=? s) && (s <=? AMR_MAX_FRAME_SIZE)
    && existsb (Z.eqb s) frame_sizes
    && Bool.eqb (s =? 0) ((9 <=? (b / 8) mod 16) && ((b / 8) mod 16 <=? 14))
    && (s =? amr_get_frame_size (Z.land b 0x78))).
  assert (Hall : holds_on_block 8 0 p = true) by (vm_compute; reflexivity).
  pose proof (holds_on_block_sound 8 0 p Hall mode_byte
                ltac:(change (2 ^ Z.of_nat 8) with 256; lia)) as Hp.
  unfold p in Hp. cbv zeta in Hp.
  apply andb_true_iff in Hp. destruct Hp as [Hp Hsame].
  apply andb_true_iff in Hp. destruct Hp as [Hp Hzero].
  apply andb_true_iff in Hp. destruct Hp as [Hp Hin].
  apply andb_true_iff in Hp. destruct Hp as [Hlo Hhi].
  apply Z.leb_le in Hlo, Hhi. apply Z.eqb_eq in Hsame.
  apply Bool.eqb_prop in Hzero.
  split; [lia |]. split; [| split; [| exact Hsame]].
  - apply existsb_exists in Hin. destruct Hin as (s & Hin & Hs).
    apply Z.eqb_eq in Hs. rewrite Hs. exact Hin.
  - split.
    + intros Hz. apply Z.eqb_eq in Hz. rewrite Hz in Hzero.
      symmetry in Hzero. apply andb_true_iff in Hzero.
      destruct Hzero as [H9 H14]. apply Z.leb_le in H9, H14. lia.
    + intros [H9 H14]. apply Z.eqb_eq. rewrite Hzero.
      apply andb_true_iff. split; apply Z.leb_le; assumption.
Qed.

Lemma amr_frame_size_of_mode_byte_witness :
  0 <= amr_get_frame_size 0x3C <= AMR_MAX_FRAME_SIZE /\
  amr_get_frame_size 0x4C = 0.
Proof.
  destruct (amr_frame_size_of_mode_byte 0x3C ltac:(lia)) as (H1 & _).
  destruct (amr_frame_size_of_mode_byte 0x4C ltac:(lia)) as (_ & _ & H3 & _).
  split; [exact H1 |]. apply H3. split; by_computation.
Defined.

(** ** G.711 sample conversions *)

Lemma uint8_block (x : Z) : 0 <= x < 256 -> 0 <= x < 0 + 2 ^ Z.of_nat 8.
Proof. change (2 ^ Z.of_nat 8) with 256. lia. Qed.

Lemma holds_along_sound (f : Z -> Z) (ok : Z -> Z -> bool) (last : Z)
    (n : nat) : forall x : Z,
  holds_along n f ok last x (f x) = true ->
  forall j : Z, 0 <= j < Z.of_nat n ->
    ok (x + j) (f (x + j)) = true /\
    (x + j < last -> f (x + j) <= f (x + j + 1)).
Proof.
  induction n as [| n IH]; intros x H j Hj; [lia |].
  cbn [holds_along] in H. cbv zeta in H.
  apply andb_true_iff in H. destruct H as [H Hrest].
  apply andb_true_iff in H. destruct H as [Hok Hstep].
  destruct (Z.eq_dec j 0) as [-> | Hnz].
  - rewrite Z.add_0_r. split; [exact Hok |].
    intros Hlt. apply orb_true_iff in Hstep.
    destruct Hstep as [Hl | Hl]; apply Z.leb_le in Hl; [lia | exact Hl].
  - replace (x + j) with (x + 1 + (j - 1)) by lia.
    apply (IH (x + 1) Hrest). lia.
Qed.

(** Every integer from 0 to 32767, reached as the [j]-th member of the
    run of 16 that starts at a multiple of 16. *)
Lemma holds_along_runs (f : Z -> Z) (ok : Z -> Z -> bool) (last : Z) :
  holds_on_block 11 0
    (fun i => holds_along 16 f ok last (16 * i) (f (16 * i))) = true ->
  forall x : Z, 0 <= x <= 32767 ->
    ok x (f x) = true /\ (x < last -> f x <= f (x + 1)).
Proof.
  intros H x Hx.
  pose proof (holds_on_block_sound 11 0 _ H (x / 16)) as Hrun.
  cbv beta in Hrun.
  assert (Hq : 0 <= x / 16 < 0 + 2 ^ Z.of_nat 11).
  { change (2 ^ Z.of_nat 11) with 2048.
    split; [apply Z.div_pos; lia | apply Z.div_lt_upper_bound; lia]. }
  pose proof (holds_along_sound f ok last 16 (16 * (x / 16)) (Hrun Hq)
                (x mod 16)) as Hat.
  rewrite <- Z.div_mod in Hat by lia.
  apply Hat. change (Z.of_nat 16) with 16. apply Z.mod_pos_bound. lia.
Qed.

Lemma monotone_from_steps (f : Z -> Z) (lo hi : Z) :
  (forall x : Z, lo <= x < hi -> f x <= f (x + 1)) ->
  forall x y : Z, lo <= x -> x <= y -> y <= hi -> f x <= f y.
Proof.
  intros Hstep x y Hlo Hxy Hhi.
  replace y with (x + Z.of_nat (Z.to_nat (y - x))) in * by lia.
  induction (Z.to_nat (y - x)) as [| n IH].
  - rewrite Z.add_0_r. lia.
  - rewrite Nat2Z.inj_succ in *.
    apply Z.le_trans with (f (x + Z.of_nat n)); [apply IH; lia |].
    replace (x + Z.succ (Z.of_nat n)) with (x + Z.of_nat n + 1) by lia.
    apply Hstep. lia.
Qed.

(** A round trip that is odd away from 0 and does not decrease on the
    samples from 0 up does not decrease on the samples from -32767 up. *)
Lemma odd_monotone (f : Z -> Z) :
  (forall x : Z, 0 <= x <= 32767 ->
     0 <= f x /\ (x <> 0 -> f (- x) = - f x) /\
     (x < 32767 -> f x <= f (x + 1))) ->
  forall x y : Z, - 32767 <= x -> x <= y -> y <= 32767 -> f x <= f y.
Proof.
  intros H.
  assert (Hup : forall x y, 0 <= x -> x <= y -> y <= 32767 -> f x <= f y).
  { apply monotone_from_steps. intros z Hz. apply H; lia. }
  intros x y Hlo Hxy Hhi.
  destruct (Z_lt_ge_dec x 0) as [Hx | Hx]; [| apply Hup; lia].
  destruct (H (- x) ltac:(lia)) as (Hpx & Hox & _).
  specialize (Hox ltac:(lia)). rewrite Z.opp_involutive in Hox.
  destruct (Z_lt_ge_dec y 0) as [Hy | Hy].
  - destruct (H (- y) ltac:(lia)) as (_ & Hoy & _).
    specialize (Hoy ltac:(lia)). rewrite Z.opp_involutive in Hoy.
    pose proof (Hup (- y) (- x) ltac:(lia) ltac:(lia) ltac:(lia)). lia.
  - destruct (H y ltac:(lia)) as (Hpy & _). lia.
Qed.

Lemma alaw_samples_from_zero (x : Z) :
  0 <= x <= 32767 ->
  Z.abs (alaw_there_and_back x - x) <= Z.max 8 (x / 32) /\
  0 < alaw_there_and_back x /\
  (x <> 0 -> alaw_there_and_back (- x) = - alaw_there_and_back x) /\
  (x < 32767 -> alaw_there_and_back x <= alaw_there_and_back (x + 1)).
Proof.
  intros Hx.
  pose (ok := fun x y : Z =>
    (Z.abs (y - x) <=? Z.max 8 (x / 32)) && (0 <? y)
    && ((x =? 0) || (alaw_there_and_back (- x) =? - y))).
  assert (Hall : holds_on_block 11 0
            (fun i => holds_along 16 alaw_there_and_back ok 32767 (16 * i)
                        (alaw_there_and_back (16 * i))) = true)
    by (vm_compute; reflexivity).
  destruct (holds_along_runs _ ok 32767 Hall x Hx) as [Hok Hstep].
  unfold ok in Hok.
  apply andb_true_iff in Hok. destruct Hok as [Hok Hodd].
  apply andb_true_iff in Hok. destruct Hok as [Herr Hpos].
  apply Z.leb_le in Herr. apply Z.ltb_lt in Hpos.
  split; [exact Herr |]. split; [exact Hpos |]. split; [| exact Hstep].
  intros Hnz. apply orb_true_iff in Hodd.
  destruct Hodd as [H | H]; apply Z.eqb_eq in H; [contradiction | exact H].
Qed.

Lemma alaw_decoded_is_fixed (alaw : Z) :
  0 <= alaw < 256 ->
  alaw_there_and_back (alaw_decode_sample alaw) = alaw_decode_sample alaw.
Proof.
  intros Ha.
  pose (p := fun a : Z =>
    alaw_there_and_back (alaw_decode_sample a) =? alaw_decode_sample a).
  assert (Hall : holds_on_block 8 0 p = true) by (vm_compute; reflexivity).
  pose proof (holds_on_block_sound 8 0 p Hall alaw (uint8_block alaw Ha))
    as Hp.
  apply Z.eqb_eq in Hp. exact Hp.
Qed.

Lemma alaw_encode_is_byte (pcm : Z) : 0 <= alaw_encode_sample pcm < 256.
Proof.
  unfold alaw_encode_sample. cbv zeta.
  destruct (if _ <? 256 then _ else _) as [exponent mantissa].
  unfold u8 at 1. apply Z.mod_pos_bound. reflexivity.
Qed.

(** A-law quantisation.  For every 16-bit sample but the most negative
    one, encoding and decoding moves it by at most 8 or a 32nd of its
    magnitude, whichever is larger, keeps its sign (zero comes back
    positive, as 8), and treats a sample and its negative alike.  What
    comes back is a fixed point of the round trip.  The most negative
    sample, whose negation does not fit in 16 bits, comes back as -8. *)
Theorem alaw_quantisation_error (pcm : Z) :
  - 32768 <= pcm < 32768 ->
  let back := alaw_there_and_back pcm in
  (pcm = - 32768 -> back = - 8) /\
  (pcm <> - 32768 ->
   Z.abs (back - pcm) <= Z.max 8 (Z.abs pcm / 32) /\
   (0 <= pcm -> 0 < back) /\ (pcm < 0 -> back < 0) /\
   (pcm <> 0 -> alaw_there_and_back (- pcm) = - back)) /\
  alaw_there_and_back back = back.
Proof.
  intros Hx back.
  split; [intros ->; reflexivity |].
  split; [| apply alaw_decoded_is_fixed, alaw_encode_is_byte].
  intros Hmin.
  destruct (Z_lt_ge_dec pcm 0) as [Hneg | Hpos].
  - destruct (alaw_samples_from_zero (- pcm) ltac:(lia))
      as (Herr & Hsign & Hodd & _).
    specialize (Hodd ltac:(lia)). rewrite Z.opp_involutive in Hodd.
    unfold back. rewrite Hodd. rewrite (Z.abs_neq pcm) by lia.
    revert Herr Hsign. generalize (alaw_there_and_back (- pcm)).
    intros r Herr Hsign.
    split; [lia |]. split; [lia |]. split; [lia |].
    intros _. lia.
  - destruct (alaw_samples_from_zero pcm ltac:(lia))
      as (Herr & Hsign & Hodd & _).
    unfold back. rewrite (Z.abs_eq pcm) by lia.
    split; [exact Herr |]. split; [intros _; exact Hsign |].
    split; [lia | exact Hodd].
Qed.

Lemma alaw_quantisation_error_witness :
  Z.abs (alaw_there_and_back 1000 - 1000) <= Z.max 8 (Z.abs 1000 / 32) /\
  alaw_there_and_back (- 32768) = - 8.
Proof.
  destruct (alaw_quantisation_error 1000 ltac:(lia)) as (_ & H & _).
  destruct (alaw_quantisation_error (- 32768) ltac:(lia)) as (Hmin & _).
  split; [apply H; lia | apply Hmin; reflexivity].
Defined.

(** Every A-law byte is the code of the sample it decodes to, so the 256
    bytes decode to 256 different samples.  The decoded samples lie
    between -32256 and 32256, none of them is 0, and flipping the top
    bit of the byte negates the sample. *)
Theorem alaw_bytes_are_their_own_codes (alaw : Z) :
  0 <= alaw < 256 ->
  alaw_encode_sample (alaw_decode_sample alaw) = alaw /\
  8 <= Z.abs (alaw_decode_sample alaw) <= 32256 /\
  alaw_decode_sample (Z.lxor alaw 0x80) = - alaw_decode_sample alaw /\
  (forall other : Z, 0 <= other < 256 ->
     alaw_decode_sample other = alaw_decode_sample alaw -> other = alaw).
Proof.
  intros Ha.
  pose (p := fun a : Z =>
    let s := alaw_decode_sample a in
    (alaw_encode_sample s =? a) && (8 <=? Z.abs s) && (Z.abs s <=? 32256)
    && (alaw_decode_sample (Z.lxor a 0x80) =? - s)).
  assert (Hall : holds_on_block 8 0 p = true) by (vm_compute; reflexivity).
  assert (Hp : forall a, 0 <= a < 256 -> p a = true)
    by (intros a Hr; apply (holds_on_block_sound 8 0 p Hall a),
          uint8_block, Hr).
  assert (Hcode : forall a, 0 <= a < 256 ->
            alaw_encode_sample (alaw_decode_sample a) = a).
  { intros a Hr. specialize (Hp a Hr). unfold p in Hp. cbv zeta in Hp.
    repeat (apply andb_true_iff in Hp; destruct Hp as [Hp _]).
    apply Z.eqb_eq in Hp. exact Hp. }
  specialize (Hp alaw Ha). unfold p in Hp. cbv zeta in Hp.
  apply andb_true_iff in Hp. destruct Hp as [Hp Hflip].
  apply andb_true_iff in Hp. destruct Hp as [Hp Hhi].
  apply andb_true_iff in Hp. destruct Hp as [_ Hlo].
  apply Z.leb_le in Hlo, Hhi. apply Z.eqb_eq in Hflip.
  split; [apply Hcode, Ha | split; [lia | split; [exact Hflip |]]].
  intros other Ho E.
  rewrite <- (Hcode other Ho), E. apply Hcode, Ha.
Qed.

Lemma alaw_bytes_are_their_own_codes_witness :
  alaw_encode_sample (alaw_decode_sample 0xD5) = 0xD5.
Proof.
  exact (proj1 (alaw_bytes_are_their_own_codes 0xD5 ltac:(lia))).
Defined.

Lemma mulaw_samples_from_zero (x : Z) :
  0 <= x <= 32767 ->
  Z.abs (mulaw_there_and_back x - x) <= Z.max 8 (x / 16) /\
  0 <= mulaw_there_and_back x /\
  mulaw_there_and_back (- x) = - mulaw_there_and_back x /\
  (x < 32767 -> mulaw_there_and_back x <= mulaw_there_and_back (x + 1)).
Proof.
  intros Hx.
  pose (ok := fun x y : Z =>
    (Z.abs (y - x) <=? Z.max 8 (x / 16)) && (0 <=? y)
    && (mulaw_there_and_back (- x) =? - y)).
  assert (Hall : holds_on_block 11 0
            (fun i => holds_along 16 mulaw_there_and_back ok 32767 (16 * i)
                        (mulaw_there_and_back (16 * i))) = true)
    by (vm_compute; reflexivity).
  destruct (holds_along_runs _ ok 32767 Hall x Hx) as [Hok Hstep].
  unfold ok in Hok.
  apply andb_true_iff in Hok. destruct Hok as [Hok Hodd].
  apply andb_true_iff in Hok. destruct Hok as [Herr Hpos].
  apply Z.leb_le in Herr, Hpos. apply Z.eqb_eq in Hodd.
  split; [exact Herr |]. split; [exact Hpos |].
  split; [exact Hodd | exact Hstep].
Qed.

Lemma mulaw_decoded_is_fixed (mulaw : Z) :
  0 <= mulaw < 256 ->
  mulaw_there_and_back (mulaw_decode_sample mulaw)
  = mulaw_decode_sample mulaw.
Proof.
  intros Ha.
  pose (p := fun a : Z =>
    mulaw_there_and_back (mulaw_decode_sample a) =? mulaw_decode_sample a).
  assert (Hall : holds_on_block 8 0 p = true) by (vm_compute; reflexivity).
  pose proof (holds_on_block_sound 8 0 p Hall mulaw (uint8_block mulaw Ha))
    as Hp.
  apply Z.eqb_eq in Hp. exact Hp.
Qed.

Lemma mulaw_encode_is_byte (pcm : Z) : 0 <= mulaw_encode_sample pcm < 256.
Proof.
  unfold mulaw_encode_sample. cbv zeta.
  unfold u8. apply Z.mod_pos_bound. reflexivity.
Qed.

(** Mu-law quantisation.  For every 16-bit sample but the most negative
    one, encoding and decoding moves it by at most 8 or a 16th of its
    magnitude, whichever is larger, never across zero, and treats a
    sample and its negative alike; what comes back is a fixed point of
    the round trip.  The most negative sample comes back as 0. *)
Theorem mulaw_quantisation_error (pcm : Z) :
  - 32768 <= pcm < 32768 ->
  let back := mulaw_there_and_back pcm in
  (pcm = - 32768 -> back = 0) /\
  (pcm <> - 32768 ->
   Z.abs (back - pcm) <= Z.max 8 (Z.abs pcm / 16) /\
   (0 <= pcm -> 0 <= back) /\ (pcm <= 0 -> back <= 0) /\
   mulaw_there_and_back (- pcm) = - back) /\
  mulaw_there_and_back back = back.
Proof.
  intros Hx back.
  split; [intros ->; reflexivity |].
  split; [| apply mulaw_decoded_is_fixed, mulaw_encode_is_byte].
  intros Hmin.
  destruct (Z_lt_ge_dec pcm 0) as [Hneg | Hpos].
  - destruct (mulaw_samples_from_zero (- pcm) ltac:(lia))
      as (Herr & Hsign & Hodd & _).
    rewrite Z.opp_involutive in Hodd.
    unfold back. rewrite Hodd. rewrite (Z.abs_neq pcm) by lia.
    revert Herr Hsign. generalize (mulaw_there_and_back (- pcm)).
    intros r Herr Hsign.
    split; [lia |]. split; [lia |]. split; [lia |]. lia.
  - destruct (mulaw_samples_from_zero pcm ltac:(lia))
      as (Herr & Hsign & Hodd & _).
    unfold back. rewrite (Z.abs_eq pcm) by lia.
    split; [exact Herr |]. split; [intros _; exact Hsign |].
    split; [| exact Hodd].
    intros Hz. assert (pcm = 0) by lia. subst pcm. by_computation.
Qed.

Lemma mulaw_quantisation_error_witness :
  Z.abs (mulaw_there_and_back 1000 - 1000) <= Z.max 8 (Z.abs 1000 / 16) /\
  mulaw_there_and_back (- 32768) = 0.
Proof.
  destruct (mulaw_quantisation_error 1000 ltac:(lia)) as (_ & H & _).
  destruct (mulaw_quantisation_error (- 32768) ltac:(lia)) as (Hmin & _).
  split; [apply H; lia | apply Hmin; reflexivity].
Defined.

(** Every mu-law byte but one is the code of the sample it decodes to.
    The exception is 0x7F: it decodes to 0 like 0xFF, and 0 is encoded as
    0xFF, so the 256 bytes decode to 255 different samples.  The decoded
    samples lie between -32124 and 32124. *)
Theorem mulaw_bytes_are_their_own_codes_but_one (mulaw : Z) :
  0 <= mulaw < 256 ->
  (mulaw <> 0x7F ->
   mulaw_encode_sample (mulaw_decode_sample mulaw) = mulaw) /\
  (mulaw = 0x7F \/ mulaw = 0xFF <-> mulaw_decode_sample mulaw = 0) /\
  mulaw_encode_sample 0 = 0xFF /\
  Z.abs (mulaw_decode_sample mulaw) <= 32124.
Proof.
  intros Ha.
  pose (p := fun a : Z =>
    let s := mulaw_decode_sample a in
    ((a =? 0x7F) || (mulaw_encode_sample s =? a))
    && Bool.eqb ((a =? 0x7F) || (a =? 0xFF)) (s =? 0)
    && (Z.abs s <=? 32124)).
  assert (Hall : holds_on_block 8 0 p = true) by (vm_compute; reflexivity).
  pose proof (holds_on_block_sound 8 0 p Hall mulaw (uint8_block mulaw Ha))
    as Hp.
  unfold p in Hp. cbv zeta in Hp.
  apply andb_true_iff in Hp. destruct Hp as [Hp Hhi].
  apply andb_true_iff in Hp. destruct Hp as [Hcode Hzero].
  apply Z.leb_le in Hhi. apply Bool.eqb_prop in Hzero.
  split; [| split; [| split; [reflexivity | exact Hhi]]].
  - intros Hne. apply orb_true_iff in Hcode.
    destruct Hcode as [H | H]; apply Z.eqb_eq in H; [contradiction | exact H].
  - split.
    + intros H. apply Z.eqb_eq. rewrite <- Hzero. apply orb_true_iff.
      destruct H as [H | H]; [left | right]; apply Z.eqb_eq; exact H.
    + intros H. apply Z.eqb_eq in H. rewrite H in Hzero.
      apply orb_true_iff in Hzero.
      destruct Hzero as [H1 | H1]; apply Z.eqb_eq in H1; [left | right];
        exact H1.
Qed.

Lemma mulaw_bytes_are_their_own_codes_but_one_witness :
  mulaw_encode_sample (mulaw_decode_sample 0x2A) = 0x2A /\
  mulaw_decode_sample 0x7F = 0.
Proof.
  destruct (mulaw_bytes_are_their_own_codes_but_one 0x2A ltac:(lia))
    as (H1 & _).
  destruct (mulaw_bytes_are_their_own_codes_but_one 0x7F ltac:(lia))
    as (_ & H2 & _).
  split; [apply H1; discriminate | apply H2; left; reflexivity].
Defined.

(** Both companding laws keep the order of samples: of two 16-bit
    samples other than the most negative one, the larger never comes back
    smaller than the other. *)
Theorem companding_keeps_order (x y : Z) :
  - 32767 <= x -> x <= y -> y <= 32767 ->
  alaw_there_and_back x <= alaw_there_and_back y /\
  mulaw_there_and_back x <= mulaw_there_and_back y.
Proof.
  intros Hlo Hxy Hhi. split.
  - apply (odd_monotone alaw_there_and_back); try assumption.
    intros z Hz.
    destruct (alaw_samples_from_zero z Hz) as (_ & Hpos & Hodd & Hstep).
    split; [lia |]. split; [exact Hodd | exact Hstep].
  - apply (odd_monotone mulaw_there_and_back); try assumption.
    intros z Hz.
    destruct (mulaw_samples_from_zero z Hz) as (_ & Hpos & Hodd & Hstep).
    split; [exact Hpos |]. split; [intros _; exact Hodd | exact Hstep].
Qed.

Lemma companding_keeps_order_witness :
  alaw_there_and_back (- 5) <= alaw_there_and_back 700 /\
  mulaw_there_and_back (- 5) <= mulaw_there_and_back 700.
Proof.
  apply companding_keeps_order; lia.
Defined.

(** ** G.711 adapters *)

Lemma samples_of_bytes_enough (n : nat) : forall bytes : list Z,
  (2 * n <= length bytes)%nat -> (n <= length (samples_of_bytes bytes))%nat.
Proof.
  induction n as [| n IH]; intros bytes Hlen; [lia |].
  destruct bytes as [| lo [| hi rest]]; try (cbn in Hlen; lia).
  cbn [samples_of_bytes length]. apply le_n_S, IH. cbn in Hlen. lia.
Qed.

Lemma bytes_of_samples_length (samples : list Z) :
  length (bytes_of_samples samples) = (2 * length samples)%nat.
Proof.
  induction samples as [| s rest IH]; [reflexivity |].
  cbn [bytes_of_samples length]. rewrite IH. lia.
Qed.

Section G711Props.

Variable alloc_ok : Z -> bool.
Hypothesis alloc_always : forall n : Z, alloc_ok n = true.
Variable E : Type.
Variables encode_sample decode_sample : Z -> Z.

Let encode := g711_encoder_encode alloc_ok E encode_sample.

Lemma g711_encode_audio (enc : mux_encoder E) (bytes : list Z)
    (input_size : Z) :
  buf_ok (enc_output enc) ->
  enc_num_streams enc = 1 \/ enc_num_streams enc = 2 ->
  0 < input_size <= Z.of_nat (length bytes) -> input_size < 2 ^ 62 ->
  size (enc_output enc) + 9 + input_size < U64_MOD ->
  let payload :=
    map encode_sample
        (firstn (Z.to_nat (input_size / 2)) (samples_of_bytes bytes)) in
  exists r : encode_outcome E,
    encode enc (Some bytes) input_size MUX_STREAM_AUDIO = Some r /\
    eo_ret r = MUX_OK /\
    eo_input_consumed r = Some (2 * (input_size / 2)) /\
    Z.of_nat (length payload) = input_size / 2 /\
    buf_ok (enc_output (eo_enc r)) /\
    unread (enc_output (eo_enc r)) =
      unread (enc_output enc)
        ++ (if input_size <? 2 then []
            else wire (enc_num_streams enc) MUX_STREAM_AUDIO payload) /\
    size (enc_output (eo_enc r)) <= size (enc_output enc) + 9 + input_size /\
    enc_num_streams (eo_enc r) = enc_num_streams enc /\
    enc_codec_data (eo_enc r) = enc_codec_data enc.
Proof.
  intros Hout Hns Hsize Hfield Hroom payload.
  pose proof U64_MOD_eq as HU.
  change (2 ^ 62) with 4611686018427387904 in Hfield.
  assert (Hsz0 : 0 <= size (enc_output enc))
    by (destruct Hout as ((? & ? & ?) & _); lia).
  unfold encode, g711_encoder_encode.
  assert (Hnz : (input_size =? 0) = false) by (apply Z.eqb_neq; lia).
  rewrite Hnz.
  change (MUX_STREAM_AUDIO =? MUX_STREAM_AUDIO) with true.
  cbv iota. cbv zeta.
  assert (Hhalf : 0 <= input_size / 2) by (apply Z.div_pos; lia).
  assert (Hdown : 2 * (input_size / 2) <= input_size)
    by (apply Z.mul_div_le; lia).
  assert (Hplen : Z.of_nat (length payload) = input_size / 2).
  { unfold payload. rewrite length_map, length_firstn.
    pose proof (samples_of_bytes_enough (Z.to_nat (input_size / 2)) bytes).
    lia. }
  destruct (input_size / 2 =? 0) eqn:Hzero.
  - apply Z.eqb_eq in Hzero.
    eexists. split; [reflexivity |]. cbn [eo_ret eo_input_consumed eo_enc].
    rewrite Hplen.
    assert (Hone : (input_size <? 2) = true).
    { apply Z.ltb_lt. apply Z.div_small_iff in Hzero; lia. }
    rewrite Hone, Hzero, app_nil_r.
    split; [reflexivity |]. split; [reflexivity |].
    split; [lia |]. split; [exact Hout |].
    split; [reflexivity |]. split; [lia |]. split; reflexivity.
  - apply Z.eqb_neq in Hzero.
    rewrite alloc_always. cbn [negb].
    fold payload.
    destruct (write_frame_ok alloc_ok alloc_always (enc_output enc) payload
                MUX_STREAM_AUDIO (enc_num_streams enc) Hout)
      as (out1 & Ew & Hok1 & Hun1 & Hsz1);
      [ rewrite Hplen; change (2 ^ 62) with 4611686018427387904; lia
      | left; reflexivity | exact Hns | rewrite Hplen; lia |].
    rewrite Hplen in Ew, Hsz1. rewrite Ew.
    change (negb (MUX_OK =? MUX_OK)) with false. cbv iota.
    eexists. split; [reflexivity |].
    cbn [eo_ret eo_input_consumed eo_enc enc_with_output enc_output
         enc_num_streams enc_codec_data].
    rewrite u64_small by lia.
    assert (Hone : (input_size <? 2) = false).
    { apply Z.ltb_ge.
      destruct (Z_lt_ge_dec input_size 2) as [Hlt | Hge]; [| lia].
      rewrite Z.div_small in Hzero by lia. contradiction. }
    rewrite Hone.
    split; [reflexivity |]. split; [f_equal; lia |].
    split; [exact Hplen |]. split; [exact Hok1 |].
    split; [exact Hun1 |]. split; [lia |]. split; reflexivity.
Qed.

Lemma g711_encode_side (enc : mux_encoder E) (bytes : list Z)
    (input_size : Z) :
  buf_ok (enc_output enc) ->
  enc_num_streams enc = 1 \/ enc_num_streams enc = 2 ->
  0 < input_size <= Z.of_nat (length bytes) -> input_size < 2 ^ 62 ->
  size (enc_output enc) + 9 + input_size < U64_MOD ->
  let payload := firstn (Z.to_nat input_size) bytes in
  exists r : encode_outcome E,
    encode enc (Some bytes) input_size MUX_STREAM_SIDE_CHANNEL = Some r /\
    eo_ret r = MUX_OK /\
    eo_input_consumed r = Some input_size /\
    Z.of_nat (length payload) = input_size /\
    buf_ok (enc_output (eo_enc r)) /\
    unread (enc_output (eo_enc r)) =
      unread (enc_output enc)
        ++ wire (enc_num_streams enc) MUX_STREAM_SIDE_CHANNEL payload /\
    size (enc_output (eo_enc r)) <= size (enc_output enc) + 9 + input_size /\
    enc_num_streams (eo_enc r) = enc_num_streams enc /\
    enc_codec_data (eo_enc r) = enc_codec_data enc.
Proof.
  intros Hout Hns Hsize Hfield Hroom payload.
  pose proof U64_MOD_eq as HU.
  change (2 ^ 62) with 4611686018427387904 in Hfield.
  unfold encode, g711_encoder_encode.
  assert (Hnz : (input_size =? 0) = false) by (apply Z.eqb_neq; lia).
  rewrite Hnz.
  change (MUX_STREAM_SIDE_CHANNEL =? MUX_STREAM_AUDIO) with false.
  cbv iota.
  assert (Hplen : Z.of_nat (length payload) = input_size)
    by (unfold payload; rewrite length_firstn; lia).
  rewrite write_frame_prefix. fold payload.
  destruct (write_frame_ok alloc_ok alloc_always (enc_output enc) payload
              MUX_STREAM_SIDE_CHANNEL (enc_num_streams enc) Hout)
    as (out1 & Ew & Hok1 & Hun1 & Hsz1);
    [ rewrite Hplen; change (2 ^ 62) with 4611686018427387904; lia
    | right; reflexivity | exact Hns | rewrite Hplen; lia |].
  rewrite Hplen in Ew, Hsz1. rewrite Ew.
  change (negb (MUX_OK =? MUX_OK)) with false. cbv iota.
  eexists. split; [reflexivity |].
  cbn [eo_ret eo_input_consumed eo_enc enc_with_output enc_output
       enc_num_streams enc_codec_data].
  split; [reflexivity |]. split; [reflexivity |].
  split; [exact Hplen |]. split; [exact Hok1 |].
  split; [exact Hun1 |]. split; [lia |]. split; reflexivity.
Qed.

(** One [encode] call of a G.711 encoder.  Audio: the whole 16-bit
    samples of the input are converted one by one and appended to the
    output as one frame; an odd trailing byte is not consumed, and an
    input of a single byte is accepted with nothing consumed and nothing
    written.  Side channel: the bytes are appended unchanged as one frame
    and all are consumed.  In single-stream mode a frame is its bare
    payload, so side-channel bytes land among the audio bytes. *)
Theorem g711_encode_appends_one_frame (enc : mux_encoder E)
    (bytes : list Z) (input_size stream_type : Z) :
  buf_ok (enc_output enc) ->
  enc_num_streams enc = 1 \/ enc_num_streams enc = 2 ->
  stream_type = MUX_STREAM_AUDIO \/ stream_type = MUX_STREAM_SIDE_CHANNEL ->
  0 < input_size <= Z.of_nat (length bytes) -> input_size < 2 ^ 62 ->
  size (enc_output enc) + 9 + input_size < U64_MOD ->
  let payload :=
    if stream_type =? MUX_STREAM_AUDIO
    then map encode_sample
           (firstn (Z.to_nat (input_size / 2)) (samples_of_bytes bytes))
    else firstn (Z.to_nat input_size) bytes in
  exists r : encode_outcome E,
    encode enc (Some bytes) input_size stream_type = Some r /\
    eo_ret r = MUX_OK /\
    eo_input_consumed r =
      Some (if stream_type =? MUX_STREAM_AUDIO
            then 2 * (input_size / 2) else input_size) /\
    Z.of_nat (length payload) =
      (if stream_type =? MUX_STREAM_AUDIO
       then input_size / 2 else input_size) /\
    buf_ok (enc_output (eo_enc r)) /\
    unread (enc_output (eo_enc r)) =
      unread (enc_output enc)
        ++ (if (stream_type =? MUX_STREAM_AUDIO) && (input_size <? 2)
            then [] else wire (enc_num_streams enc) stream_type payload) /\
    enc_num_streams (eo_enc r) = enc_num_streams enc /\
    enc_codec_data (eo_enc r) = enc_codec_data enc.
Proof.
  intros Hout Hns Hst Hsize Hfield Hroom payload.
  destruct Hst as [-> | ->].
  - destruct (g711_encode_audio enc bytes input_size Hout Hns Hsize Hfield
                Hroom)
      as (r & Er & Hret & Hcons & Hlen & Hok & Hun & _ & Hns1 & Hcd).
    exists r. subst payload.
    change (MUX_STREAM_AUDIO =? MUX_STREAM_AUDIO) with true. cbn [andb].
    split; [exact Er |]. split; [exact Hret |]. split; [exact Hcons |].
    split; [exact Hlen |]. split; [exact Hok |]. split; [exact Hun |].
    split; [exact Hns1 | exact Hcd].
  - destruct (g711_encode_side enc bytes input_size Hout Hns Hsize Hfield
                Hroom)
      as (r & Er & Hret & Hcons & Hlen & Hok & Hun & _ & Hns1 & Hcd).
    exists r. subst payload.
    change (MUX_STREAM_SIDE_CHANNEL =? MUX_STREAM_AUDIO) with false.
    cbn [andb].
    split; [exact Er |]. split; [exact Hret |]. split; [exact Hcons |].
    split; [exact Hlen |]. split; [exact Hok |]. split; [exact Hun |].
    split; [exact Hns1 | exact Hcd].
Qed.

End G711Props.

Lemma g711_encode_appends_one_frame_witness :
  let ok := fun _ : Z => true in
  let enc :=
    mk_encoder MUX_CODEC_ALAW (Some mux_codec_alaw_ops) 8000 1 2
      (snd (mux_buffer_init ok 4096)) no_error (@None unit) in
  exists r : encode_outcome unit,
    alaw_encoder_encode ok unit enc (Some [0xE8; 0x03; 0x18; 0xFC; 0x07]) 5
      MUX_STREAM_AUDIO = Some r /\
    eo_ret r = MUX_OK /\ eo_input_consumed r = Some 4 /\
    unread (enc_output (eo_enc r)) = [4; 0x7A; 0xFA].
Proof.
  intros ok enc.
  assert (Hout : buf_ok (enc_output enc)).
  { unfold buf_ok, buf_inv. cbn.
    repeat split; try lia; try discriminate; reflexivity. }
  destruct (g711_encode_appends_one_frame ok (fun _ => eq_refl) unit
              alaw_encode_sample enc [0xE8; 0x03; 0x18; 0xFC; 0x07] 5
              MUX_STREAM_AUDIO Hout (or_intror eq_refl) (or_introl eq_refl)
              ltac:(split; by_computation) ltac:(by_computation)
              ltac:(by_computation))
    as (r & Er & Hret & Hcons & _ & _ & Hun & _).
  exists r. split; [exact Er |]. split; [exact Hret |].
  split; [exact Hcons | exact Hun].
Defined.
Section G711DecodeProps.

Variable alloc_ok : Z -> bool.
Hypothesis alloc_always : forall n : Z, alloc_ok n = true.
Variable decode_sample : Z -> Z.

Let loop := g711_decode_loop alloc_ok decode_sample.

Lemma g711_decode_loop_step (fuel : nat) (dec : g711_decoder)
    (input_buf : mux_buffer) (cap frame_size stream_type : Z) :
  loop (S fuel) dec input_buf cap frame_size stream_type =
  let r := mux_leb128_read_frame input_buf true cap (dec_num_streams dec) in
  let frame_size1 :=
    match fr_payload_size r with Some n => n | None => frame_size end in
  let stream_type1 :=
    match fr_stream_type r with Some s => s | None => stream_type end in
  if fr_ret r =? MUX_ERROR_AGAIN
  then Some (MUX_OK, dec_with_input_buf dec (fr_buf r))
  else
    let retry := (fr_ret r =? MUX_ERROR_INVAL) && (cap <? frame_size1) in
    if retry && negb (alloc_ok frame_size1)
    then Some (MUX_ERROR_NOMEM, dec_with_input_buf dec (fr_buf r))
    else
      let cap1 := if retry then frame_size1 else cap in
      let r1 :=
        if retry
        then mux_leb128_read_frame (fr_buf r) true cap1 (dec_num_streams dec)
        else r in
      let frame_size2 :=
        match fr_payload_size r1 with Some n => n | None => frame_size1 end in
      let stream_type2 :=
        match fr_stream_type r1 with Some s => s | None => stream_type1 end in
      if negb (fr_ret r1 =? MUX_OK)
      then Some (fr_ret r1, dec_with_input_buf dec (fr_buf r1))
      else
        let frame_buf :=
          match fr_payload r1 with Some bytes => bytes | None => [] end in
        let dec1 := dec_with_input_buf dec (fr_buf r1) in
        if stream_type2 =? MUX_STREAM_AUDIO then
          if negb (alloc_ok (u64 (frame_size2 * 2)))
          then Some (MUX_ERROR_NOMEM, dec1)
          else
            let pcm_out :=
              map decode_sample (firstn (Z.to_nat frame_size2) frame_buf) in
            let (ret, out) :=
              mux_buffer_write alloc_ok (audio_output dec1)
                (Some (bytes_of_samples pcm_out)) (u64 (frame_size2 * 2)) in
            if negb (ret =? MUX_OK)
            then Some (ret, with_audio_output g711_codec_data dec1 out)
            else loop fuel (with_audio_output g711_codec_data dec1 out)
                      (fr_buf r1) cap1 frame_size2 stream_type2
        else
          let (ret, out) :=
            mux_buffer_write alloc_ok (side_output dec1)
              (Some frame_buf) frame_size2 in
          if negb (ret =? MUX_OK)
          then Some (ret, with_side_output g711_codec_data dec1 out)
          else loop fuel (with_side_output g711_codec_data dec1 out)
                    (fr_buf r1) cap1 frame_size2 stream_type2.
Proof. reflexivity. Qed.


Lemma frame_wire_length (st : Z) (P : list Z) :
  Z.of_nat (length (frame_wire st P)) =
  Z.of_nat (length (frame_header (Z.of_nat (length P)) st))
  + Z.of_nat (length P).
Proof. unfold frame_wire. rewrite length_app. lia. Qed.

Lemma read_frame_size_le (b : mux_buffer) (payload : bool)
    (cap ns : Z) :
  0 <= size b ->
  size (fr_buf (mux_leb128_read_frame b payload cap ns)) <= size b.
Proof.
  intros Hs. unfold mux_leb128_read_frame.
  assert (Hreset : forall k, size (reset_if_drained (advance b k)) <= size b).
  { intros k. unfold reset_if_drained, advance. cbn [read_pos size].
    destruct (_ =? _); cbn [size]; lia. }
  assert (Hreset2 : forall j k,
            size (reset_if_drained (advance (advance b j) k)) <= size b).
  { intros j k. unfold reset_if_drained, advance. cbn [read_pos size].
    destruct (_ =? _); cbn [size]; lia. }
  destruct (ns =? 1).
  - destruct (_ =? 0); cbn [fr_buf]; [lia | apply Hreset].
  - cbv zeta.
    generalize (mux_leb128_decode
                  (data_ptr b (u64 (size b - read_pos b)))).
    intros d.
    destruct (dr_ret d =? MUX_OK), (dr_value d), (dr_bytes_read d);
      cbn [fr_buf]; try lia.
    destruct (_ <? _); cbn [fr_buf]; [lia |].
    destruct (_ && _); cbn [fr_buf]; [lia | apply Hreset2].
Qed.

Lemma g711_loop_one_frame (fuel : nat) (dec : g711_decoder)
    (ib : mux_buffer) (cap fs0 st0 st : Z) (P rest : list Z) :
  dec_num_streams dec = 2 -> buf_ok ib ->
  unread ib = frame_wire st P ++ rest ->
  Z.of_nat (length P) < 2 ^ 62 -> st = 0 \/ st = 1 ->
  buf_ok (audio_output dec) -> buf_ok (side_output dec) ->
  size (audio_output dec) + 2 * Z.of_nat (length P) < U64_MOD ->
  size (side_output dec) + Z.of_nat (length P) < U64_MOD ->
  exists (ib1 : mux_buffer) (cap1 : Z) (dec1 : g711_decoder),
    loop (S fuel) dec ib cap fs0 st0 =
      loop fuel dec1 ib1 cap1 (Z.of_nat (length P)) st /\
    buf_ok ib1 /\ unread ib1 = rest /\ size ib1 <= size ib /\
    dec_num_streams dec1 = 2 /\
    buf_ok (audio_output dec1) /\ buf_ok (side_output dec1) /\
    unread (audio_output dec1) =
      unread (audio_output dec)
        ++ (if st =? MUX_STREAM_AUDIO
            then bytes_of_samples (map decode_sample P) else []) /\
    unread (side_output dec1) =
      unread (side_output dec)
        ++ (if st =? MUX_STREAM_AUDIO then [] else P) /\
    size (audio_output dec1) <=
      size (audio_output dec) + 2 * Z.of_nat (length P) /\
    size (side_output dec1) <=
      size (side_output dec) + Z.of_nat (length P) /\
    dec_codec_type dec1 = dec_codec_type dec /\
    dec_ops dec1 = dec_ops dec /\ dec_error dec1 = dec_error dec.
Proof.
  intros Hns Hib Hun HP Hst Haud Hside Haroom Hsroom.
  pose proof U64_MOD_eq as HU.
  pose proof (frame_wire_complete st P HP Hst ib rest Hun) as Hc.
  cbv zeta in Hc.
  set (n := Z.of_nat (length P)) in *.
  destruct (header_split n st ltac:(lia) Hst) as [Hshr Hland].
  pose proof (frame_header_length n st
                ltac:(split; [lia | exact HP]) Hst) as Hhdr.
  set (hb := Z.of_nat (length (frame_header n st))) in *.
  (* the read that succeeds, after the retry if there is one *)
  assert (Hread : exists (cap1 : Z) (ib1 : mux_buffer),
    loop (S fuel) dec ib cap fs0 st0 =
      (let r1 := mk_frame_result MUX_OK ib1
                   (if 0 <? n then Some P else None) (Some n) (Some st) in
       let frame_buf :=
         match fr_payload r1 with Some bytes => bytes | None => [] end in
       let dec1 := dec_with_input_buf dec ib1 in
       if st =? MUX_STREAM_AUDIO then
         if negb (alloc_ok (u64 (n * 2)))
         then Some (MUX_ERROR_NOMEM, dec1)
         else
           let pcm_out :=
             map decode_sample (firstn (Z.to_nat n) frame_buf) in
           let (ret, out) :=
             mux_buffer_write alloc_ok (audio_output dec1)
               (Some (bytes_of_samples pcm_out)) (u64 (n * 2)) in
           if negb (ret =? MUX_OK)
           then Some (ret, with_audio_output g711_codec_data dec1 out)
           else loop fuel (with_audio_output g711_codec_data dec1 out)
                     ib1 cap1 n st
       else
         let (ret, out) :=
           mux_buffer_write alloc_ok (side_output dec1)
             (Some frame_buf) n in
         if negb (ret =? MUX_OK)
         then Some (ret, with_side_output g711_codec_data dec1 out)
         else loop fuel (with_side_output g711_codec_data dec1 out)
                   ib1 cap1 n st) /\
    buf_ok ib1 /\ unread ib1 = rest /\ size ib1 <= size ib).
  { assert (Hszib : forall c, size (fr_buf (mux_leb128_read_frame ib true c 2))
                               <= size ib).
    { intros c. apply read_frame_size_le.
      destruct Hib as ((? & ? & ?) & _). lia. }
    assert (Hpay : firstn (Z.to_nat n) (skipn (Z.to_nat hb) (unread ib)) = P).
    { rewrite Hun. unfold n, hb. rewrite !Nat2Z.id.
      apply frame_wire_payload. }
    assert (Hrest : skipn (Z.to_nat (hb + n)) (unread ib) = rest).
    { rewrite Hun. rewrite skipn_app.
      pose proof (frame_wire_length st P) as Hl. fold n hb in Hl.
      rewrite skipn_all2 by lia.
      replace (Z.to_nat (hb + n) - length (frame_wire st P))%nat with 0%nat
        by lia.
      reflexivity. }
    rewrite g711_decode_loop_step, Hns.
    destruct (cap <? n) eqn:Hcap.
    - apply Z.ltb_lt in Hcap.
      rewrite (read_frame_small_destination ib true cap Hib _ _ Hc eq_refl)
        by (rewrite Hshr; exact Hcap).
      cbv zeta. cbn [fr_ret fr_buf fr_payload fr_payload_size fr_stream_type].
      change (MUX_ERROR_INVAL =? MUX_ERROR_AGAIN) with false.
      change (MUX_ERROR_INVAL =? MUX_ERROR_INVAL) with true.
      rewrite Hshr, Hland.
      assert (Hlt : (cap <? n) = true) by (apply Z.ltb_lt; exact Hcap).
      rewrite Hlt. cbn [andb]. rewrite alloc_always. cbn [negb].
      destruct (read_frame_complete ib true n Hib _ _ Hc)
        as (ib1 & Er & Hok1 & Hun1); [intros _; rewrite Hshr; lia |].
      rewrite Hshr, Hland in Er. cbn [andb] in Er.
      rewrite Hpay in Er. rewrite Hshr in Hun1.
      pose proof (Hszib n) as Hsz1. rewrite Er in Hsz1. cbn [fr_buf] in Hsz1.
      rewrite Er.
      cbn [fr_ret fr_buf fr_payload fr_payload_size fr_stream_type].
      change (negb (MUX_OK =? MUX_OK)) with false. cbv iota.
      exists n, ib1. split; [reflexivity |].
      split; [exact Hok1 | split; [rewrite Hun1; exact Hrest | exact Hsz1]].
    - apply Z.ltb_ge in Hcap.
      destruct (read_frame_complete ib true cap Hib _ _ Hc)
        as (ib1 & Er & Hok1 & Hun1); [intros _; rewrite Hshr; lia |].
      rewrite Hshr, Hland in Er. cbn [andb] in Er.
      rewrite Hpay in Er. rewrite Hshr in Hun1.
      pose proof (Hszib cap) as Hsz1. rewrite Er in Hsz1.
      cbn [fr_buf] in Hsz1.
      rewrite Er. cbv zeta.
      cbn [fr_ret fr_buf fr_payload fr_payload_size fr_stream_type].
      change (MUX_OK =? MUX_ERROR_AGAIN) with false.
      change (MUX_OK =? MUX_ERROR_INVAL) with false.
      cbn [andb]. cbv iota.
      change (negb (MUX_OK =? MUX_OK)) with false. cbv iota.
      exists cap, ib1. split; [reflexivity |].
      split; [exact Hok1 | split; [rewrite Hun1; exact Hrest | exact Hsz1]]. }
  destruct Hread as (cap1 & ib1 & Eloop & Hok1 & Hun1 & Hszi).
  assert (Hbuf : match (if 0 <? n then Some P else None) with
                 | Some bytes => bytes | None => [] end = P).
  { destruct (0 <? n) eqn:Hpos; [reflexivity |].
    apply Z.ltb_ge in Hpos. destruct P; [reflexivity |].
    unfold n in Hpos. cbn [length] in Hpos. lia. }
  cbv zeta in Eloop. cbn [fr_payload] in Eloop. rewrite Hbuf in Eloop.
  assert (Hall : firstn (Z.to_nat n) P = P)
    by (unfold n; rewrite Nat2Z.id; apply firstn_all).
  rewrite Hall in Eloop.
  assert (Hrp : 0 <= size (audio_output dec) /\ 0 <= size (side_output dec)).
  { destruct Haud as ((? & ? & ?) & _), Hside as ((? & ? & ?) & _). lia. }
  exists ib1, cap1.
  destruct Hst as [-> | ->].
  - change (0 =? MUX_STREAM_AUDIO) with true in *. cbv iota in Eloop.
    rewrite alloc_always in Eloop. cbn [negb] in Eloop.
    rewrite u64_small in Eloop by lia.
    pose proof (bytes_of_samples_length (map decode_sample P)) as Hbl.
    rewrite length_map in Hbl.
    destruct (buffer_write_ok alloc_ok alloc_always (audio_output dec)
                (bytes_of_samples (map decode_sample P)) Haud)
      as (out & Ew & Hoko & Huno & _ & Hszo); [fold n in Hbl; lia |].
    replace (Z.of_nat (length (bytes_of_samples (map decode_sample P))))
      with (n * 2) in Ew by (fold n in Hbl; lia).
    cbn [audio_output dec_with_input_buf] in Eloop.
    rewrite Ew in Eloop.
    change (negb (MUX_OK =? MUX_OK)) with false in Eloop. cbv iota in Eloop.
    eexists. split; [exact Eloop |].
    cbn [with_audio_output dec_with_input_buf dec_num_streams audio_output
         side_output dec_codec_type dec_ops dec_error].
    rewrite app_nil_r.
    split; [exact Hok1 |]. split; [exact Hun1 |]. split; [exact Hszi |].
    split; [exact Hns |].
    split; [exact Hoko |]. split; [exact Hside |]. split; [exact Huno |].
    split; [reflexivity |]. split; [fold n in Hbl; lia |].
    split; [lia |]. split; [reflexivity |]. split; reflexivity.
  - change (1 =? MUX_STREAM_AUDIO) with false in *. cbv iota in Eloop.
    destruct (buffer_write_ok alloc_ok alloc_always (side_output dec) P Hside)
      as (out & Ew & Hoko & Huno & _ & Hszo); [fold n; lia |].
    fold n in Ew.
    cbn [side_output dec_with_input_buf] in Eloop.
    rewrite Ew in Eloop.
    change (negb (MUX_OK =? MUX_OK)) with false in Eloop. cbv iota in Eloop.
    eexists. split; [exact Eloop |].
    cbn [with_side_output dec_with_input_buf dec_num_streams audio_output
         side_output dec_codec_type dec_ops dec_error].
    rewrite app_nil_r.
    split; [exact Hok1 |]. split; [exact Hun1 |]. split; [exact Hszi |].
    split; [exact Hns |].
    split; [exact Haud |]. split; [exact Hoko |]. split; [reflexivity |].
    split; [exact Huno |]. split; [lia |].
    split; [fold n in Hszo; lia |]. split; [reflexivity |]. split; reflexivity.
Qed.

Lemma frames_wire_cons (st : Z) (P : list Z) (frames : list (Z * list Z)) :
  frames_wire ((st, P) :: frames) = frame_wire st P ++ frames_wire frames.
Proof. reflexivity. Qed.

Lemma g711_loop_frames (frames : list (Z * list Z)) :
  forall (fuel : nat) (dec : g711_decoder) (ib : mux_buffer)
         (cap fs0 st0 : Z) (tail : list Z),
  dec_num_streams dec = 2 -> buf_ok ib ->
  unread ib = frames_wire frames ++ tail ->
  frames_fit frames -> frame_begun tail ->
  buf_ok (audio_output dec) -> buf_ok (side_output dec) ->
  size (audio_output dec)
    + 2 * Z.of_nat (length (frames_wire frames)) < U64_MOD ->
  size (side_output dec) + Z.of_nat (length (frames_wire frames)) < U64_MOD ->
  (length frames < fuel)%nat ->
  exists (dec1 : g711_decoder) (ib1 : mux_buffer),
    loop fuel dec ib cap fs0 st0 = Some (MUX_OK, dec1) /\
    dec_codec_data dec1 = Some (mk_g711_codec_data ib1) /\
    buf_ok ib1 /\ unread ib1 = tail /\
    buf_ok (audio_output dec1) /\ buf_ok (side_output dec1) /\
    unread (audio_output dec1) =
      unread (audio_output dec) ++ audio_of_frames decode_sample frames /\
    unread (side_output dec1) =
      unread (side_output dec) ++ side_of_frames frames /\
    dec_num_streams dec1 = 2 /\
    dec_codec_type dec1 = dec_codec_type dec /\
    dec_ops dec1 = dec_ops dec /\ dec_error dec1 = dec_error dec /\
    size ib1 <= size ib /\
    size (audio_output dec1) <=
      size (audio_output dec) + 2 * Z.of_nat (length (frames_wire frames)) /\
    size (side_output dec1) <=
      size (side_output dec) + Z.of_nat (length (frames_wire frames)).
Proof.
  induction frames as [| [st P] frames IH];
    intros fuel dec ib cap fs0 st0 tail Hns Hib Hun Hfit Htail Haud Hside
           Haroom Hsroom Hfuel.
  - destruct fuel as [| fuel]; [cbn in Hfuel; lia |].
    cbn [frames_wire map concat app] in Hun.
    assert (Hinc : frame_incomplete ib).
    { destruct Htail as (st & P & R & Hst & HP & HR & E).
      apply (frame_wire_prefix_incomplete st P HP Hst ib R);
        [rewrite Hun; exact E | exact HR]. }
    rewrite g711_decode_loop_step, Hns.
    rewrite (read_frame_incomplete ib true cap Hib Hinc).
    cbv zeta. cbn [fr_ret fr_buf].
    change (MUX_ERROR_AGAIN =? MUX_ERROR_AGAIN) with true. cbv iota.
    exists (dec_with_input_buf dec ib), ib.
    cbn [dec_with_input_buf dec_codec_data audio_output side_output
         dec_num_streams dec_codec_type dec_ops dec_error
         audio_of_frames side_of_frames map concat].
    rewrite !app_nil_r.
    split; [reflexivity |]. split; [reflexivity |]. split; [exact Hib |].
    split; [exact Hun |]. split; [exact Haud |]. split; [exact Hside |].
    split; [reflexivity |]. split; [reflexivity |]. split; [exact Hns |].
    split; [reflexivity |]. split; [reflexivity |]. split; [reflexivity |].
    cbn [frames_wire map concat length]. lia.
  - destruct fuel as [| fuel]; [cbn in Hfuel; lia |].
    rewrite frames_wire_cons in Hun, Haroom, Hsroom |- *.
    rewrite <- app_assoc in Hun.
    rewrite length_app, Nat2Z.inj_add, frame_wire_length in Haroom, Hsroom.
    apply Forall_cons_iff in Hfit. destruct Hfit as [[Hst HP] Hfit].
    cbn [fst snd] in Hst, HP.
    assert (Hrp : 0 <= size (audio_output dec)
                  /\ 0 <= size (side_output dec)).
    { destruct Haud as ((? & ? & ?) & _), Hside as ((? & ? & ?) & _). lia. }
    destruct (g711_loop_one_frame fuel dec ib cap fs0 st0 st P
                (frames_wire frames ++ tail) Hns Hib Hun HP Hst Haud Hside)
      as (ib1 & cap1 & dec1 & Eloop & Hok1 & Hun1 & Hszi & Hns1 & Haud1
          & Hside1 & Hua & Hus & Hsa & Hss & Hct & Hops & Herr);
      [lia | lia |].
    destruct (IH fuel dec1 ib1 cap1 (Z.of_nat (length P)) st tail
                Hns1 Hok1 Hun1 Hfit Htail Haud1 Hside1)
      as (dec2 & ib2 & Eloop2 & Hcd & Hok2 & Hun2 & Haud2 & Hside2 & Hua2
          & Hus2 & Hns2 & Hct2 & Hops2 & Herr2 & Hszi2 & Hsa2 & Hss2);
      [lia | lia | cbn [length] in Hfuel; lia |].
    exists dec2, ib2.
    split; [rewrite Eloop; exact Eloop2 |]. split; [exact Hcd |].
    split; [exact Hok2 |]. split; [exact Hun2 |]. split; [exact Haud2 |].
    split; [exact Hside2 |].
    split; [rewrite Hua2, Hua, <- app_assoc; reflexivity |].
    split; [rewrite Hus2, Hus, <- app_assoc; reflexivity |].
    split; [exact Hns2 |]. split; [congruence |]. split; [congruence |].
    split; [congruence |].
    rewrite length_app, Nat2Z.inj_add, frame_wire_length. lia.
Qed.

Lemma frames_wire_at_least (frames : list (Z * list Z)) :
  frames_fit frames -> (length frames <= length (frames_wire frames))%nat.
Proof.
  induction 1 as [| [st P] frames [Hst HP] _ IH]; [cbn; lia |].
  rewrite frames_wire_cons, length_app. cbn [length fst snd] in *.
  pose proof (frame_wire_length st P) as Hl.
  pose proof (frame_header_length (Z.of_nat (length P)) st
                ltac:(lia) Hst) as Hh.
  lia.
Qed.

Lemma g711_decode_frames (fs0 st0 : Z) (dec : g711_decoder)
    (data : g711_codec_data) (input tail : list Z)
    (frames : list (Z * list Z)) :
  dec_codec_data dec = Some data -> dec_num_streams dec = 2 ->
  buf_ok (g711_input_buf data) ->
  unread (g711_input_buf data) ++ input = frames_wire frames ++ tail ->
  frames_fit frames -> frame_begun tail ->
  buf_ok (audio_output dec) -> buf_ok (side_output dec) ->
  size (g711_input_buf data) + Z.of_nat (length input) < U64_MOD ->
  size (audio_output dec)
    + 2 * Z.of_nat (length (frames_wire frames)) < U64_MOD ->
  size (side_output dec) + Z.of_nat (length (frames_wire frames)) < U64_MOD ->
  exists (r : decode_outcome g711_codec_data) (ib1 : mux_buffer),
    g711_decoder_decode alloc_ok decode_sample fs0 st0 dec (Some input)
      (Z.of_nat (length input)) = Some r /\
    do_ret r = MUX_OK /\
    do_input_consumed r = Some (Z.of_nat (length input)) /\
    unread (audio_output (do_dec r)) =
      unread (audio_output dec) ++ audio_of_frames decode_sample frames /\
    unread (side_output (do_dec r)) =
      unread (side_output dec) ++ side_of_frames frames /\
    dec_codec_data (do_dec r) = Some (mk_g711_codec_data ib1) /\
    unread ib1 = tail /\
    buf_ok ib1 /\ buf_ok (audio_output (do_dec r)) /\
    buf_ok (side_output (do_dec r)) /\
    dec_num_streams (do_dec r) = 2 /\
    size ib1 <= size (g711_input_buf data) + Z.of_nat (length input) /\
    size (audio_output (do_dec r)) <=
      size (audio_output dec) + 2 * Z.of_nat (length (frames_wire frames)) /\
    size (side_output (do_dec r)) <=
      size (side_output dec) + Z.of_nat (length (frames_wire frames)).
Proof.
  intros Hcd Hns Hib Hun Hfit Htail Haud Hside Hiroom Haroom Hsroom.
  unfold g711_decoder_decode. rewrite Hcd, alloc_always. cbn [negb].
  destruct (buffer_write_ok alloc_ok alloc_always (g711_input_buf data)
              input Hib Hiroom) as (ib & Ew & Hokb & Hunb & _ & Hszb).
  rewrite Ew. change (negb (MUX_OK =? MUX_OK)) with false. cbv iota.
  rewrite Hun in Hunb.
  rewrite (available_unread ib Hokb).
  destruct (g711_loop_frames frames
              (S (Z.to_nat (Z.of_nat (length (unread ib))))) dec ib 8192
              fs0 st0 tail Hns Hokb Hunb Hfit Htail Haud Hside Haroom Hsroom)
    as (dec1 & ib1 & Eloop & Hcd1 & Hok1 & Hun1 & Haud1 & Hside1 & Hua & Hus
        & Hns1 & _ & _ & _ & Hszi & Hsa & Hss).
  { pose proof (frames_wire_at_least frames Hfit).
    rewrite Hunb, length_app. lia. }
  fold loop. rewrite Eloop.
  change (negb (MUX_OK =? MUX_OK)) with false. cbv iota.
  eexists. exists ib1. split; [reflexivity |].
  cbn [do_ret do_dec do_input_consumed].
  split; [reflexivity |]. split; [reflexivity |]. split; [exact Hua |].
  split; [exact Hus |]. split; [exact Hcd1 |]. split; [exact Hun1 |].
  split; [exact Hok1 |]. split; [exact Haud1 |]. split; [exact Hside1 |].
  split; [exact Hns1 |]. split; [lia |]. split; [exact Hsa | exact Hss].
Qed.

Lemma frames_wire_app (f1 f2 : list (Z * list Z)) :
  frames_wire (f1 ++ f2) = frames_wire f1 ++ frames_wire f2.
Proof. unfold frames_wire. rewrite map_app, concat_app. reflexivity. Qed.

Lemma audio_of_frames_app (f1 f2 : list (Z * list Z)) :
  audio_of_frames decode_sample (f1 ++ f2) =
  audio_of_frames decode_sample f1 ++ audio_of_frames decode_sample f2.
Proof. unfold audio_of_frames. rewrite map_app, concat_app. reflexivity. Qed.

Lemma side_of_frames_app (f1 f2 : list (Z * list Z)) :
  side_of_frames (f1 ++ f2) = side_of_frames f1 ++ side_of_frames f2.
Proof. unfold side_of_frames. rewrite map_app, concat_app. reflexivity. Qed.

(** Where a cut falls in a sequence of frames: after some whole frames
    and, unless it falls on a frame boundary, inside the next one. *)
Lemma frames_wire_cut (frames : list (Z * list Z)) :
  forall pre post : list Z,
  pre ++ post = frames_wire frames ->
  exists (frames1 frames2 : list (Z * list Z)) (tail : list Z),
    frames = frames1 ++ frames2 /\
    pre = frames_wire frames1 ++ tail /\
    tail ++ post = frames_wire frames2 /\
    (tail = [] \/
     exists (st : Z) (P : list Z) (fr : list (Z * list Z)) (R : list Z),
       frames2 = (st, P) :: fr /\ R <> [] /\ tail ++ R = frame_wire st P).
Proof.
  induction frames as [| [st P] frames IH]; intros pre post E.
  - cbn in E. apply app_eq_nil in E. destruct E as [-> ->].
    exists [], [], []. repeat split; try reflexivity. left. reflexivity.
  - rewrite frames_wire_cons in E.
    apply app_eq_app in E. destruct E as (l & [[Epre Epost] | [Ew Epost]]).
    + (* the cut is at or after the end of the first frame *)
      destruct (IH l post (eq_sym Epost))
        as (f1 & f2 & tail & Ef & El & Et & Hinv).
      exists ((st, P) :: f1), f2, tail.
      split; [rewrite Ef; reflexivity |].
      split; [rewrite Epre, El, frames_wire_cons, app_assoc; reflexivity |].
      split; [exact Et | exact Hinv].
    + (* the cut is inside the first frame, or at its end *)
      destruct l as [| x l].
      * rewrite app_nil_r in Ew. cbn [app] in Epost.
        exists [(st, P)], frames, [].
        split; [reflexivity |].
        split; [rewrite frames_wire_cons, app_nil_r; cbn;
                rewrite app_nil_r; symmetry; exact Ew |].
        split; [exact Epost | left; reflexivity].
      * exists [], ((st, P) :: frames), pre.
        split; [reflexivity |]. split; [reflexivity |].
        split; [rewrite frames_wire_cons, Ew, Epost, app_assoc; reflexivity |].
        right. exists st, P, frames, (x :: l).
        split; [reflexivity |]. split; [discriminate |].
        symmetry. exact Ew.
Qed.

Lemma frames_fit_app (f1 f2 : list (Z * list Z)) :
  frames_fit (f1 ++ f2) -> frames_fit f1 /\ frames_fit f2.
Proof. unfold frames_fit. apply Forall_app. Qed.

Lemma frame_begun_nil : frame_begun [].
Proof.
  exists 0, [], (frame_wire 0 []).
  split; [left; reflexivity |]. split; [reflexivity |].
  split; [discriminate | reflexivity].
Qed.

Lemma g711_decode_chunks_frames (fs0 st0 : Z) (chunks : list (list Z)) :
  forall (dec : g711_decoder) (ib : mux_buffer)
         (frames : list (Z * list Z)),
  dec_codec_data dec = Some (mk_g711_codec_data ib) ->
  dec_num_streams dec = 2 -> buf_ok ib ->
  unread ib ++ concat chunks = frames_wire frames ->
  (unread ib = [] \/
   exists (st : Z) (P : list Z) (fr : list (Z * list Z)) (R : list Z),
     frames = (st, P) :: fr /\ R <> [] /\ unread ib ++ R = frame_wire st P) ->
  frames_fit frames ->
  buf_ok (audio_output dec) -> buf_ok (side_output dec) ->
  size ib + Z.of_nat (length (concat chunks)) < U64_MOD ->
  size (audio_output dec)
    + 2 * Z.of_nat (length (frames_wire frames)) < U64_MOD ->
  size (side_output dec) + Z.of_nat (length (frames_wire frames)) < U64_MOD ->
  exists (dec1 : g711_decoder) (ib1 : mux_buffer),
    g711_decode_chunks alloc_ok decode_sample fs0 st0 dec chunks =
      Some (MUX_OK, dec1) /\
    unread (audio_output dec1) =
      unread (audio_output dec) ++ audio_of_frames decode_sample frames /\
    unread (side_output dec1) =
      unread (side_output dec) ++ side_of_frames frames /\
    dec_codec_data dec1 = Some (mk_g711_codec_data ib1) /\
    unread ib1 = [].
Proof.
  induction chunks as [| c chunks IH];
    intros dec ib frames Hcd Hns Hib Hun Hinv Hfit Haud Hside Hiroom Haroom
           Hsroom.
  - cbn [concat] in Hun. rewrite app_nil_r in Hun.
    assert (Hnone : frames = [] /\ unread ib = []).
    { destruct Hinv as [Hnil | (st & P & fr & R & Ef & HR & ER)].
      - split; [| exact Hnil]. rewrite Hnil in Hun.
        destruct frames as [| [st P] fr]; [reflexivity |].
        apply Forall_cons_iff in Hfit. destruct Hfit as [[Hst HP] _].
        cbn [fst snd] in Hst, HP.
        rewrite frames_wire_cons in Hun. apply (f_equal (@length Z)) in Hun.
        rewrite length_app in Hun. cbn [length] in Hun.
        pose proof (frame_wire_length st P) as Hl.
        pose proof (frame_header_length (Z.of_nat (length P)) st
                      ltac:(lia) Hst) as Hh.
        lia.
      - exfalso. subst frames. rewrite frames_wire_cons in Hun.
        rewrite Hun in ER. apply (f_equal (@length Z)) in ER.
        rewrite !length_app in ER.
        destruct R; [contradiction | cbn [length] in ER; lia]. }
    destruct Hnone as [-> Hnil].
    exists dec, ib. cbn [g711_decode_chunks audio_of_frames side_of_frames
                         map concat].
    rewrite !app_nil_r.
    split; [reflexivity |]. split; [reflexivity |]. split; [reflexivity |].
    split; [exact Hcd | exact Hnil].
  - cbn [concat] in Hun, Hiroom. rewrite app_assoc in Hun.
    rewrite length_app, Nat2Z.inj_add in Hiroom.
    destruct (frames_wire_cut frames (unread ib ++ c) (concat chunks) Hun)
      as (f1 & f2 & tail & Ef & Epre & Epost & Hinv1).
    subst frames.
    apply frames_fit_app in Hfit. destruct Hfit as [Hfit1 Hfit2].
    rewrite frames_wire_app, length_app, Nat2Z.inj_add in Haroom, Hsroom.
    assert (Hbegun : frame_begun tail).
    { destruct Hinv1 as [-> | (st & P & fr & R & Ef2 & HR & ER)];
        [apply frame_begun_nil |].
      subst f2. apply Forall_cons_iff in Hfit2.
      destruct Hfit2 as [[Hst HP] _]. cbn [fst snd] in Hst, HP.
      exists st, P, R.
      split; [exact Hst |]. split; [exact HP |]. split; [exact HR | exact ER]. }
    destruct (g711_decode_frames fs0 st0 dec (mk_g711_codec_data ib) c tail
                f1 Hcd Hns Hib Epre Hfit1 Hbegun Haud Hside)
      as (r & ib1 & Er & Hret & _ & Hua & Hus & Hcd1 & Hun1 & Hok1 & Haud1
          & Hside1 & Hns1 & Hsz); [cbn [g711_input_buf]; lia | lia | lia |].
    cbn [g711_input_buf] in Hsz.
    cbn [g711_decode_chunks]. rewrite Er, Hret.
    change (MUX_OK =? MUX_OK) with true. cbv iota.
    destruct (IH (do_dec r) ib1 f2 Hcd1 Hns1 Hok1)
      as (dec2 & ib2 & Ec & Hua2 & Hus2 & Hcd2 & Hun2);
      [ rewrite Hun1; exact Epost
      | rewrite Hun1; exact Hinv1
      | exact Hfit2 | exact Haud1 | exact Hside1 | lia | lia | lia |].
    exists dec2, ib2.
    split; [exact Ec |].
    split; [rewrite Hua2, Hua, audio_of_frames_app, <- app_assoc;
            reflexivity |].
    split; [rewrite Hus2, Hus, side_of_frames_app, <- app_assoc;
            reflexivity |].
    split; [exact Hcd2 | exact Hun2].
Qed.

(** Decoding does not depend on how the stream is cut.  A dual-stream
    decoder with nothing pending is handed a sequence of frames in
    chunks, one [decode] call per chunk, the cuts falling anywhere, inside
    a length prefix or a payload as well.  Every call returns [MUX_OK];
    afterwards the audio output has gained the decoded samples of the
    audio frames, in order, the side-channel output the payloads of the
    side-channel frames, in order, and no byte is left pending.  What the
    uninitialised locals of [decode] held plays no part. *)
Theorem g711_decode_any_chunking (fs0 st0 : Z) (dec : g711_decoder)
    (ib : mux_buffer) (frames : list (Z * list Z))
    (chunks : list (list Z)) :
  dec_codec_data dec = Some (mk_g711_codec_data ib) ->
  dec_num_streams dec = 2 -> buf_ok ib -> unread ib = [] ->
  buf_ok (audio_output dec) -> buf_ok (side_output dec) ->
  frames_fit frames -> concat chunks = frames_wire frames ->
  size ib + Z.of_nat (length (frames_wire frames)) < U64_MOD ->
  size (audio_output dec)
    + 2 * Z.of_nat (length (frames_wire frames)) < U64_MOD ->
  size (side_output dec) + Z.of_nat (length (frames_wire frames)) < U64_MOD ->
  exists (dec1 : g711_decoder) (ib1 : mux_buffer),
    g711_decode_chunks alloc_ok decode_sample fs0 st0 dec chunks =
      Some (MUX_OK, dec1) /\
    unread (audio_output dec1) =
      unread (audio_output dec) ++ audio_of_frames decode_sample frames /\
    unread (side_output dec1) =
      unread (side_output dec) ++ side_of_frames frames /\
    dec_codec_data dec1 = Some (mk_g711_codec_data ib1) /\
    unread ib1 = [].
Proof.
  intros Hcd Hns Hib Hempty Haud Hside Hfit Hchunks Hiroom Haroom Hsroom.
  apply (g711_decode_chunks_frames fs0 st0 chunks dec ib frames Hcd Hns Hib);
    try assumption.
  - rewrite Hempty. exact Hchunks.
  - left. exact Hempty.
  - rewrite Hchunks. exact Hiroom.
Qed.

End G711DecodeProps.

Lemma g711_decode_any_chunking_witness :
  let ok := fun _ : Z => true in
  let dec :=
    mk_decoder MUX_CODEC_ALAW (Some mux_codec_alaw_ops) 2
      (snd (mux_buffer_init ok 4096)) (snd (mux_buffer_init ok 1024))
      no_error
      (Some (mk_g711_codec_data (snd (mux_buffer_init ok 4096)))) in
  exists dec1 : g711_decoder,
    g711_decode_chunks ok alaw_decode_sample 0 0 dec
      [[4; 0x7A]; [0xFA; 7; 7]; [8; 9]] = Some (MUX_OK, dec1) /\
    unread (audio_output dec1) =
      bytes_of_samples [alaw_decode_sample 0x7A; alaw_decode_sample 0xFA] /\
    unread (side_output dec1) = [7; 8; 9].
Proof.
  intros ok dec.
  assert (Hok : forall n : Z, 0 < n < 5000 ->
            buf_ok (snd (mux_buffer_init ok n))).
  { intros n Hn. unfold mux_buffer_init, ok.
    replace (0 <? n) with true by (symmetry; apply Z.ltb_lt; lia).
    unfold buf_ok, buf_inv. cbn [snd read_pos size capacity data storage].
    rewrite repeat_length, U64_MOD_eq.
    repeat split; try lia; discriminate. }
  destruct (g711_decode_any_chunking ok (fun _ => eq_refl) alaw_decode_sample
              0 0 dec (snd (mux_buffer_init ok 4096))
              [(0, [0x7A; 0xFA]); (1, [7; 8; 9])]
              [[4; 0x7A]; [0xFA; 7; 7]; [8; 9]]
              eq_refl eq_refl (Hok 4096 ltac:(lia)) eq_refl
              (Hok 4096 ltac:(lia)) (Hok 1024 ltac:(lia)))
    as (dec1 & ib1 & Ec & Hua & Hus & _).
  - apply Forall_cons; [| apply Forall_cons; [| apply Forall_nil]];
      cbn [fst snd length]; split;
      [left; reflexivity | by_computation | right; reflexivity
      | by_computation].
  - reflexivity.
  - by_computation.
  - by_computation.
  - by_computation.
  - exists dec1. split; [exact Ec |]. split; [exact Hua | exact Hus].
Defined.

Section G711EndToEnd.

Variable alloc_ok : Z -> bool.
Hypothesis alloc_always : forall n : Z, alloc_ok n = true.
Variable E : Type.
Variables encode_sample decode_sample : Z -> Z.

(** End to end in dual-stream mode.  An encoder with nothing pending is
    given a buffer of whole 16-bit samples as audio and then some bytes
    as side channel; everything it produced is read out in one call.
    Whatever way those bytes are cut into chunks for the decoder, the
    decoder ends up with every sample converted there and back, in
    order, on its audio output, with the side-channel bytes unchanged on
    its side-channel output, and with nothing left in its input
    buffer. *)
Theorem g711_encode_read_decode (enc : mux_encoder E) (dec : g711_decoder)
    (ib : mux_buffer) (pcm side : list Z) (output_size fs0 st0 : Z) :
  enc_num_streams enc = 2 -> buf_ok (enc_output enc) ->
  unread (enc_output enc) = [] ->
  pcm <> [] -> Nat.even (length pcm) = true -> side <> [] ->
  Z.of_nat (length pcm) < 2 ^ 62 -> Z.of_nat (length side) < 2 ^ 62 ->
  size (enc_output enc) + 18 + Z.of_nat (length pcm)
    + Z.of_nat (length side) < U64_MOD ->
  18 + Z.of_nat (length pcm) + Z.of_nat (length side) <= output_size ->
  dec_codec_data dec = Some (mk_g711_codec_data ib) ->
  dec_num_streams dec = 2 -> buf_ok ib -> unread ib = [] ->
  buf_ok (audio_output dec) -> buf_ok (side_output dec) ->
  size ib + 18 + Z.of_nat (length pcm) + Z.of_nat (length side) < U64_MOD ->
  size (audio_output dec) + 36 + 2 * Z.of_nat (length pcm)
    + 2 * Z.of_nat (length side) < U64_MOD ->
  size (side_output dec) + 18 + Z.of_nat (length pcm)
    + Z.of_nat (length side) < U64_MOD ->
  exists (r1 r2 : encode_outcome E) (sent : list Z),
    g711_encoder_encode alloc_ok E encode_sample enc (Some pcm)
      (Z.of_nat (length pcm)) MUX_STREAM_AUDIO = Some r1 /\
    eo_ret r1 = MUX_OK /\
    g711_encoder_encode alloc_ok E encode_sample (eo_enc r1) (Some side)
      (Z.of_nat (length side)) MUX_STREAM_SIDE_CHANNEL = Some r2 /\
    eo_ret r2 = MUX_OK /\
    (let r3 := g711_encoder_read E (eo_enc r2) true output_size in
     ero_ret r3 = MUX_OK /\ ero_output r3 = Some sent /\
     ero_output_written r3 = Some (Z.of_nat (length sent)) /\
     unread (enc_output (ero_enc r3)) = []) /\
    forall chunks : list (list Z), concat chunks = sent ->
      exists (dec1 : g711_decoder) (ib1 : mux_buffer),
        g711_decode_chunks alloc_ok decode_sample fs0 st0 dec chunks =
          Some (MUX_OK, dec1) /\
        unread (audio_output dec1) =
          unread (audio_output dec)
            ++ bytes_of_samples
                 (map (fun s => decode_sample (encode_sample s))
                      (samples_of_bytes pcm)) /\
        unread (side_output dec1) = unread (side_output dec) ++ side /\
        dec_codec_data dec1 = Some (mk_g711_codec_data ib1) /\
        unread ib1 = [].
Proof.
  intros Hns Hout Hempty Hpcm Heven Hside HPf HSf Hroom Hosz Hcd Hdns Hib
         Hibe Haud Hsd Hiroom Haroom Hsroom.
  pose proof U64_MOD_eq as HU.
  assert (Hplen : 0 < Z.of_nat (length pcm))
    by (destruct pcm; [contradiction | cbn [length]; lia]).
  assert (Hslen : 0 < Z.of_nat (length side))
    by (destruct side; [contradiction | cbn [length]; lia]).
  assert (Hsz0 : 0 <= size (enc_output enc))
    by (destruct Hout as ((? & ? & ?) & _); lia).
  (* audio *)
  destruct (g711_encode_audio alloc_ok alloc_always E encode_sample enc pcm
              (Z.of_nat (length pcm)) Hout (or_intror Hns)
              ltac:(lia) HPf ltac:(lia))
    as (r1 & E1 & Hret1 & _ & Hlen1 & Hok1 & Hun1 & Hsz1 & Hns1 & _).
  apply Nat.even_spec in Heven. destruct Heven as [k Hk].
  assert (Hhalf : Z.of_nat (length pcm) / 2 = Z.of_nat k).
  { rewrite Hk, Nat2Z.inj_mul. change (Z.of_nat 2) with 2.
    rewrite Z.mul_comm, Z.div_mul by lia. reflexivity. }
  assert (Hsamples : firstn (Z.to_nat (Z.of_nat (length pcm) / 2))
                            (samples_of_bytes pcm) = samples_of_bytes pcm).
  { rewrite Hhalf, Nat2Z.id. apply firstn_all2.
    rewrite (samples_of_bytes_length k pcm Hk). lia. }
  rewrite Hsamples in Hun1, Hlen1.
  assert (Htwo : (Z.of_nat (length pcm) <? 2) = false).
  { apply Z.ltb_ge. rewrite Hk, Nat2Z.inj_mul in *. lia. }
  rewrite Htwo, Hempty, Hns in Hun1. cbn [app] in Hun1.
  unfold wire in Hun1. change (2 =? 1) with false in Hun1. cbv iota in Hun1.
  set (P := map encode_sample (samples_of_bytes pcm)) in *.
  (* side channel *)
  rewrite Hns in Hns1.
  destruct (g711_encode_side alloc_ok alloc_always E encode_sample (eo_enc r1)
              side (Z.of_nat (length side)) Hok1 (or_intror Hns1)
              ltac:(lia) HSf ltac:(lia))
    as (r2 & E2 & Hret2 & _ & _ & Hok2 & Hun2 & Hsz2 & Hns2 & _).
  rewrite Nat2Z.id, firstn_all, Hun1, Hns1 in Hun2.
  unfold wire in Hun2. change (2 =? 1) with false in Hun2. cbv iota in Hun2.
  set (sent := frame_wire MUX_STREAM_AUDIO P
                 ++ frame_wire MUX_STREAM_SIDE_CHANNEL side) in *.
  assert (Hframes : sent = frames_wire [(0, P); (1, side)]).
  { unfold sent, frames_wire. cbn [map concat fst snd].
    rewrite app_nil_r. reflexivity. }
  assert (Hfit : frames_fit [(0, P); (1, side)]).
  { apply Forall_cons; [| apply Forall_cons; [| apply Forall_nil]];
      cbn [fst snd].
    - split; [left; reflexivity |].
      rewrite Hlen1, Hhalf. change (2 ^ 62) with 4611686018427387904 in *.
      lia.
    - split; [right; reflexivity | exact HSf]. }
  assert (Hsent : Z.of_nat (length sent)
                  <= 18 + Z.of_nat (length pcm) + Z.of_nat (length side)).
  { unfold sent. rewrite length_app, Nat2Z.inj_add, !frame_wire_length.
    pose proof (frame_header_length (Z.of_nat (length P)) 0) as H0.
    pose proof (frame_header_length (Z.of_nat (length side)) 1) as H1.
    change (2 ^ 62) with 4611686018427387904 in *.
    specialize (H0 ltac:(lia) (or_introl eq_refl)).
    specialize (H1 ltac:(lia) (or_intror eq_refl)).
    change MUX_STREAM_AUDIO with 0. change MUX_STREAM_SIDE_CHANNEL with 1.
    lia. }
  exists r1, r2, sent.
  split; [exact E1 |]. split; [exact Hret1 |]. split; [exact E2 |].
  split; [exact Hret2 |]. split.
  - (* draining the encoder *)
    assert (Hne : unread (enc_output (eo_enc r2)) <> []).
    { rewrite Hun2. unfold sent, frame_wire.
      pose proof (frame_header_length (Z.of_nat (length P)) 0) as H0.
      change (2 ^ 62) with 4611686018427387904 in *.
      specialize (H0 ltac:(lia) (or_introl eq_refl)).
      change MUX_STREAM_AUDIO with 0.
      destruct (frame_header (Z.of_nat (length P)) 0);
        [cbn [length] in H0; lia | discriminate]. }
    destruct (buffer_read_cases (enc_output (eo_enc r2)) true output_size
                Hok2 ltac:(lia) Hne)
      as (b1 & Er & Hokb & Hunb & _ & _ & _).
    rewrite Hun2 in Er, Hunb.
    replace (Z.min output_size (Z.of_nat (length sent)))
      with (Z.of_nat (length sent)) in Er, Hunb by lia.
    rewrite Nat2Z.id in Er, Hunb.
    rewrite firstn_all in Er. rewrite skipn_all in Hunb.
    cbv zeta. unfold g711_encoder_read. cbn [negb]. rewrite Er.
    cbn [rr_ret rr_buf rr_copied rr_bytes_read].
    change (negb (MUX_OK =? MUX_OK)) with false. cbv iota.
    cbn [ero_ret ero_output ero_output_written ero_enc enc_with_output
         enc_output].
    split; [reflexivity |]. split; [reflexivity |].
    split; [reflexivity | exact Hunb].
  - intros chunks Hchunks.
    assert (Hszi : 0 <= size ib /\ 0 <= size (audio_output dec)
                   /\ 0 <= size (side_output dec)).
    { destruct Hib as ((? & ? & ?) & _), Haud as ((? & ? & ?) & _),
               Hsd as ((? & ? & ?) & _). lia. }
    destruct (g711_decode_chunks_frames alloc_ok alloc_always decode_sample
                fs0 st0 chunks dec ib [(0, P); (1, side)] Hcd Hdns Hib)
      as (dec1 & ib1 & Ec & Hua & Hus & Hcdd & Hund);
      [ rewrite Hibe, Hchunks; exact Hframes
      | left; exact Hibe | exact Hfit | exact Haud | exact Hsd
      | rewrite Hchunks; lia
      | rewrite <- Hframes; lia
      | rewrite <- Hframes; lia |].
    exists dec1, ib1. split; [exact Ec |].
    unfold audio_of_frames, side_of_frames in Hua, Hus.
    cbn [map concat fst snd] in Hua, Hus.
    change (0 =? MUX_STREAM_AUDIO) with true in Hua, Hus.
    change (1 =? MUX_STREAM_AUDIO) with false in Hua, Hus.
    cbv iota in Hua, Hus. cbn [app] in Hua, Hus.
    rewrite !app_nil_r in Hua. rewrite app_nil_r in Hus.
    unfold P in Hua. rewrite map_map in Hua.
    split; [exact Hua |]. split; [exact Hus |].
    split; [exact Hcdd | exact Hund].
Qed.

End G711EndToEnd.

Lemma g711_encode_read_decode_witness :
  let ok := fun _ : Z => true in
  let enc :=
    mk_encoder MUX_CODEC_ALAW (Some mux_codec_alaw_ops) 8000 1 2
      (snd (mux_buffer_init ok 4096)) no_error (@None unit) in
  let dec :=
    mk_decoder MUX_CODEC_ALAW (Some mux_codec_alaw_ops) 2
      (snd (mux_buffer_init ok 4096)) (snd (mux_buffer_init ok 1024))
      no_error
      (Some (mk_g711_codec_data (snd (mux_buffer_init ok 4096)))) in
  exists (r1 r2 : encode_outcome unit) (dec1 : g711_decoder),
    alaw_encoder_encode ok unit enc (Some [0xE8; 0x03; 0x18; 0xFC]) 4
      MUX_STREAM_AUDIO = Some r1 /\
    alaw_encoder_encode ok unit (eo_enc r1) (Some [7; 8; 9]) 3
      MUX_STREAM_SIDE_CHANNEL = Some r2 /\
    ero_output (alaw_encoder_read unit (eo_enc r2) true 64) =
      Some [4; 0x7A; 0xFA; 7; 7; 8; 9] /\
    g711_decode_chunks ok alaw_decode_sample 0 0 dec
      [[4; 0x7A]; [0xFA; 7; 7]; [8; 9]] = Some (MUX_OK, dec1) /\
    unread (audio_output dec1) =
      bytes_of_samples [alaw_there_and_back 1000;
                        alaw_there_and_back (- 1000)] /\
    unread (side_output dec1) = [7; 8; 9].
Proof.
  intros ok enc dec.
  assert (Hok : forall n : Z, 0 < n < 5000 ->
            buf_ok (snd (mux_buffer_init ok n))).
  { intros n Hn. unfold mux_buffer_init, ok.
    replace (0 <? n) with true by (symmetry; apply Z.ltb_lt; lia).
    unfold buf_ok, buf_inv. cbn [snd read_pos size capacity data storage].
    rewrite repeat_length, U64_MOD_eq.
    repeat split; try lia; discriminate. }
  destruct (g711_encode_read_decode ok (fun _ => eq_refl) unit
              alaw_encode_sample alaw_decode_sample enc dec
              (snd (mux_buffer_init ok 4096)) [0xE8; 0x03; 0x18; 0xFC]
              [7; 8; 9] 64 0 0 eq_refl (Hok 4096 ltac:(lia)) eq_refl
              ltac:(discriminate) eq_refl ltac:(discriminate)
              ltac:(by_computation) ltac:(by_computation)
              ltac:(by_computation) ltac:(by_computation)
              eq_refl eq_refl (Hok 4096 ltac:(lia)) eq_refl
              (Hok 4096 ltac:(lia)) (Hok 1024 ltac:(lia))
              ltac:(by_computation) ltac:(by_computation)
              ltac:(by_computation))
    as (r1 & r2 & sent & E1 & _ & E2 & _ & (_ & Hsent & _) & Hdec).
  assert (Es : sent = [4; 0x7A; 0xFA; 7; 7; 8; 9]).
  { unfold alaw_encoder_encode in *.
    match type of E1 with ?x = _ => pose (v1 := x) end.
    assert (Ev1 : v1 = Some r1) by exact E1.
    vm_compute in Ev1. injection Ev1 as <-.
    match type of E2 with ?x = _ => pose (v2 := x) end.
    assert (Ev2 : v2 = Some r2) by exact E2.
    vm_compute in Ev2. injection Ev2 as <-.
    vm_compute in Hsent. injection Hsent as <-. reflexivity. }
  destruct (Hdec [[4; 0x7A]; [0xFA; 7; 7]; [8; 9]])
    as (dec1 & ib1 & Ec & Hua & Hus & _); [rewrite Es; reflexivity |].
  exists r1, r2, dec1.
  split; [exact E1 |]. split; [exact E2 |].
  split; [rewrite <- Es; exact Hsent |].
  split; [exact Ec |]. split; [exact Hua | exact Hus].
Defined.

(** ** AMR-NB encoder: the sample window *)

Lemma memcpy_at_fill (buf : list Z) (k : Z) (src : list Z) (c : Z) :
  0 <= k -> 0 <= c -> k + c <= Z.of_nat (length buf) ->
  c <= Z.of_nat (length src) ->
  firstn (Z.to_nat (k + c)) (memcpy_at buf k src c) =
    firstn (Z.to_nat k) buf ++ firstn (Z.to_nat c) src /\
  length (memcpy_at buf k src c) = length buf.
Proof.
  intros Hk Hc Hfit Hsrc.
  rewrite <- memcpy_at_prefix.
  set (src1 := firstn (Z.to_nat c) src).
  assert (Hlen : Z.of_nat (length src1) = c)
    by (unfold src1; rewrite length_firstn; lia).
  rewrite <- Hlen.
  split.
  - apply memcpy_at_written; lia.
  - apply memcpy_at_length; lia.
Qed.

Section AmrStreamProps.

Variable alloc_ok : Z -> bool.
Hypothesis alloc_always : forall n : Z, alloc_ok n = true.
Variable amr_state : Type.
Variable Encoder_Interface_Encode :
  amr_state -> Z -> list Z -> Z -> amr_state * Z * list Z.
Hypothesis native_ok : native_encoder_in_range Encoder_Interface_Encode.

Let loop := amr_encode_loop alloc_ok amr_state Encoder_Interface_Encode.
Let frames_of := amr_frames_of Encoder_Interface_Encode.

Lemma amr_loop_stream (fuel : nat) :
  forall (enc : amr_encoder amr_state) (d : amr_encoder_data amr_state)
         (samples : list Z) (sa consumed : Z),
  (Z.to_nat sa < fuel)%nat ->
  0 <= input_samples d < AMR_FRAME_SAMPLES ->
  length (input_buf d) = 160%nat ->
  0 <= sa <= Z.of_nat (length samples) ->
  0 <= consumed -> consumed + 2 * sa < U64_MOD ->
  enc_num_streams enc = 1 \/ enc_num_streams enc = 2 ->
  buf_ok (enc_output enc) ->
  size (enc_output enc) + 41 * ((input_samples d + sa) / 160) < U64_MOD ->
  let k := input_samples d in
  let all := firstn (Z.to_nat k) (input_buf d)
             ++ firstn (Z.to_nat sa) samples in
  let n := Z.to_nat ((k + sa) / 160) in
  exists (r : encode_result amr_state) (d1 : amr_encoder_data amr_state),
    loop fuel enc d samples sa consumed = Some r /\
    er_ret r = MUX_OK /\
    er_input_consumed r = Some (consumed + 2 * sa) /\
    buf_ok (enc_output (er_enc r)) /\
    unread (enc_output (er_enc r)) =
      unread (enc_output enc)
        ++ concat (map (wire (enc_num_streams enc) MUX_STREAM_AUDIO)
                       (fst (frames_of n (encoder d) (mode d) all))) /\
    enc_codec_data (er_enc r) = Some d1 /\
    encoder d1 = snd (frames_of n (encoder d) (mode d) all) /\
    input_samples d1 = (k + sa) mod 160 /\
    firstn (Z.to_nat (input_samples d1)) (input_buf d1) =
      skipn (160 * n) all /\
    length (input_buf d1) = 160%nat /\
    mode d1 = mode d /\ dtx d1 = dtx d /\
    enc_num_streams (er_enc r) = enc_num_streams enc.
Proof.
  unfold AMR_FRAME_SAMPLES.
  induction fuel as [| fuel IH];
    intros enc d samples sa consumed Hfuel Hk Hbuf Hsa Hc Hcfit Hns Hout
           Hroom; [lia |].
  set (k := input_samples d) in *.
  set (all := firstn (Z.to_nat k) (input_buf d)
              ++ firstn (Z.to_nat sa) samples).
  set (n := Z.to_nat ((k + sa) / 160)).
  pose proof U64_MOD_eq as HU.
  assert (Hsz0 : 0 <= size (enc_output enc))
    by (destruct Hout as ((? & ? & ?) & _); lia).
  unfold loop. rewrite amr_encode_loop_step. fold loop. cbv zeta.
  destruct (0 <? sa) eqn:Hpos; cbn [negb].
  - apply Z.ltb_lt in Hpos. fold k.
    change AMR_FRAME_SAMPLES with 160.
    rewrite (u64_small (160 - k)) by lia.
    destruct (sa <? 160 - k) eqn:Hlt.
    + (* the window is not filled *)
      apply Z.ltb_lt in Hlt.
      cbn [input_samples encoder mode dtx input_buf].
      rewrite (u64_small (k + sa)) by lia.
      rewrite s32_small by lia.
      assert (Hne : (k + sa =? 160) = false) by (apply Z.eqb_neq; lia).
      rewrite Hne, Z.sub_diag.
      change (u64 0) with 0.
      rewrite (u64_small (sa * 2)) by lia.
      rewrite (u64_small (consumed + sa * 2)) by lia.
      destruct fuel as [| fuel]; [lia |].
      unfold loop. rewrite amr_loop_exit.
      destruct (memcpy_at_fill (input_buf d) k samples sa)
        as [Hfill Hlen]; try lia.
      assert (Hn : n = 0%nat).
      { unfold n. rewrite Z.div_small by lia. reflexivity. }
      eexists.
      exists (mk_amr_encoder_data (encoder d) (mode d) (dtx d)
                (memcpy_at (input_buf d) k samples sa) (k + sa)).
      split; [reflexivity |].
      cbn [er_ret er_input_consumed er_enc with_codec_data enc_output
           enc_codec_data enc_num_streams].
      rewrite Hn. cbn [frames_of amr_frames_of fst snd map concat].
      rewrite app_nil_r.
      cbn [encoder input_samples input_buf mode dtx].
      split; [reflexivity |]. split; [f_equal; lia |].
      split; [exact Hout |]. split; [reflexivity |].
      split; [reflexivity |]. split; [reflexivity |].
      split; [rewrite Z.mod_small by lia; reflexivity |].
      split; [exact Hfill |]. split; [rewrite Hlen; exact Hbuf |].
      split; [reflexivity |]. split; reflexivity.
    + (* the window is filled and encoded *)
      apply Z.ltb_ge in Hlt.
      cbn [input_samples encoder mode dtx input_buf].
      replace (k + (160 - k)) with 160 by lia.
      change (s32 (u64 160) =? 160) with true. cbv iota.
      destruct (memcpy_at_fill (input_buf d) k samples (160 - k))
        as [Hfill Hlen]; try lia.
      replace (k + (160 - k)) with 160 in Hfill by lia.
      change (Z.to_nat 160) with 160%nat in Hfill.
      rewrite firstn_all2 in Hfill by lia.
      set (window := memcpy_at (input_buf d) k samples (160 - k)) in *.
      pose proof (native_ok (encoder d) (mode d) window
                    ltac:(rewrite Hlen; exact Hbuf)) as Hnat.
      destruct (Encoder_Interface_Encode (encoder d) (mode d) window 0)
        as [[st1 fs] fb] eqn:En.
      destruct Hnat as [Hfs Hfb]. unfold AMR_MAX_FRAME_SIZE in Hfs.
      assert (Hneg : (fs <? 0) = false) by (apply Z.ltb_ge; lia).
      rewrite Hneg.
      rewrite (u64_small fs) by lia.
      set (frame := firstn (Z.to_nat fs) fb).
      assert (Hframe : Z.of_nat (length frame) = fs)
        by (unfold frame; rewrite length_firstn; lia).
      assert (Hdiv : (k + sa) / 160 = 1 + (sa - (160 - k)) / 160).
      { replace (k + sa) with (1 * 160 + (sa - (160 - k))) by lia.
        rewrite Z.div_add_l by lia. reflexivity. }
      assert (Hq : 0 <= (sa - (160 - k)) / 160)
        by (apply Z.div_pos; lia).
      destruct (write_frame_ok alloc_ok alloc_always (enc_output enc) frame
                  MUX_STREAM_AUDIO (enc_num_streams enc) Hout)
        as (out1 & Ew & Hok1 & Hun1 & Hsz1);
        [ rewrite Hframe; change (2 ^ 62) with 4611686018427387904; lia
        | left; reflexivity | exact Hns | rewrite Hframe; lia |].
      rewrite Hframe in Ew, Hsz1.
      rewrite write_frame_prefix. fold frame. rewrite Ew.
      change (negb (MUX_OK =? MUX_OK)) with false. cbv iota.
      rewrite (u64_small ((160 - k) * 2)) by lia.
      rewrite (u64_small (consumed + (160 - k) * 2)) by lia.
      rewrite (u64_small (sa - (160 - k))) by lia.
      destruct (IH (with_output amr_state enc out1)
                   (mk_amr_encoder_data st1 (mode d) (dtx d) window 0)
                   (skipn (Z.to_nat (160 - k)) samples)
                   (sa - (160 - k)) (consumed + (160 - k) * 2))
        as (r & d1 & Er & Hret & Hcons & Hokr & Hunr & Hcd & Hst & His
            & Hwin & Hlen1 & Hmode & Hdtx & Hns1);
        cbn [input_samples input_buf with_output enc_num_streams enc_output];
        rewrite ?Z.add_0_l; try lia; try assumption.
      { rewrite length_skipn. lia. }
      cbn [input_samples input_buf encoder mode dtx with_output
           enc_num_streams enc_output] in Hunr, Hst, His, Hwin, Hns1.
      change (Z.to_nat 0) with 0%nat in Hunr, Hst, Hwin.
      rewrite Z.add_0_l in Hunr, Hst, His, Hwin.
      cbn [firstn app] in Hunr, Hst, Hwin.
      assert (Hall : all = window ++ firstn (Z.to_nat (sa - (160 - k)))
                                      (skipn (Z.to_nat (160 - k)) samples)).
      { unfold all. rewrite Hfill, <- app_assoc. f_equal.
        rewrite <- (firstn_skipn (Z.to_nat (160 - k))
                      (firstn (Z.to_nat sa) samples)) at 1.
        f_equal.
        - rewrite firstn_firstn. f_equal. lia.
        - rewrite skipn_firstn_comm. f_equal. lia. }
      assert (Hhead : firstn 160 all = window).
      { rewrite Hall, firstn_app, firstn_all2 by lia.
        replace (160 - length window)%nat with 0%nat by lia.
        cbn [firstn]. apply app_nil_r. }
      assert (Htail : skipn 160 all =
                firstn (Z.to_nat (sa - (160 - k)))
                       (skipn (Z.to_nat (160 - k)) samples)).
      { rewrite Hall, skipn_app, skipn_all2 by lia.
        replace (160 - length window)%nat with 0%nat by lia.
        reflexivity. }
      assert (Hn : n = S (Z.to_nat ((sa - (160 - k)) / 160))).
      { unfold n. rewrite Hdiv. lia. }
      exists r, d1. split; [exact Er |].
      rewrite Hn. cbn [frames_of amr_frames_of].
      rewrite Hhead, En, Htail.
      fold frames_of.
      destruct (frames_of (Z.to_nat ((sa - (160 - k)) / 160)) st1 (mode d)
                  (firstn (Z.to_nat (sa - (160 - k)))
                          (skipn (Z.to_nat (160 - k)) samples)))
        as [frames st2] eqn:Ef.
      cbn [fst snd map concat] in *.
      split; [exact Hret |]. split; [rewrite Hcons; f_equal; lia |].
      split; [exact Hokr |].
      split; [rewrite Hunr, Hun1, <- app_assoc; reflexivity |].
      split; [exact Hcd |]. split; [exact Hst |].
      split.
      { rewrite His. replace (k + sa) with (sa - (160 - k) + 1 * 160)
          by lia.
        rewrite Z.mod_add by lia. reflexivity. }
      split.
      { rewrite Hwin.
        replace (160 * S (Z.to_nat ((sa - (160 - k)) / 160)))%nat
          with (160 * Z.to_nat ((sa - (160 - k)) / 160) + 160)%nat
          by lia.
        rewrite <- skipn_skipn, Htail. reflexivity. }
      split; [exact Hlen1 |]. split; [exact Hmode |].
      split; [exact Hdtx | exact Hns1].
  - (* no samples left *)
    apply Z.ltb_ge in Hpos. assert (sa = 0) by lia. subst sa.
    assert (Hn : n = 0%nat).
    { unfold n. rewrite Z.add_0_r, Z.div_small by (fold k; lia).
      reflexivity. }
    eexists. exists d. split; [reflexivity |].
    cbn [er_ret er_input_consumed er_enc with_codec_data enc_output
         enc_codec_data enc_num_streams].
    rewrite Hn. cbn [frames_of amr_frames_of fst snd map concat].
    rewrite app_nil_r. fold k.
    split; [reflexivity |]. split; [f_equal; lia |].
    split; [exact Hout |]. split; [reflexivity |].
    split; [reflexivity |]. split; [reflexivity |].
    split; [rewrite Z.add_0_r, Z.mod_small by lia; reflexivity |].
    split; [unfold all; cbn [Z.to_nat firstn skipn Nat.mul];
            rewrite app_nil_r; reflexivity |].
    split; [exact Hbuf |]. split; [reflexivity |]. split; reflexivity.
Qed.

Let encode := amr_encoder_encode alloc_ok amr_state Encoder_Interface_Encode.

(** One audio [encode] call of the AMR-NB encoder, whatever the window
    holds and however many samples arrive.  The samples waiting in the
    window and the whole 16-bit samples of the input form one stream; it
    is cut into windows of 160 samples, every full window is encoded by
    the native encoder, in order, and appended to the output as one
    frame, and the samples after the last full window wait in the window
    for the next call.  All whole samples of the input are consumed; an
    odd trailing byte is not. *)
Theorem amr_encode_frames_every_160_samples
    (enc : amr_encoder amr_state) (d : amr_encoder_data amr_state)
    (bytes : list Z) (input_size : Z) :
  enc_codec_data enc = Some d ->
  0 <= input_samples d < AMR_FRAME_SAMPLES ->
  length (input_buf d) = 160%nat ->
  enc_num_streams enc = 1 \/ enc_num_streams enc = 2 ->
  buf_ok (enc_output enc) ->
  0 <= input_size <= Z.of_nat (length bytes) -> input_size < U64_MOD ->
  let k := input_samples d in
  let arrived := input_size / 2 in
  size (enc_output enc) + 41 * ((k + arrived) / 160) < U64_MOD ->
  let stream := firstn (Z.to_nat k) (input_buf d)
                ++ firstn (Z.to_nat arrived) (samples_of_bytes bytes) in
  let n := Z.to_nat ((k + arrived) / 160) in
  exists (r : encode_result amr_state) (d1 : amr_encoder_data amr_state),
    encode enc (Some bytes) input_size MUX_STREAM_AUDIO = Some r /\
    er_ret r = MUX_OK /\
    er_input_consumed r = Some (2 * arrived) /\
    unread (enc_output (er_enc r)) =
      unread (enc_output enc)
        ++ concat (map (wire (enc_num_streams enc) MUX_STREAM_AUDIO)
                       (fst (frames_of n (encoder d) (mode d) stream))) /\
    enc_codec_data (er_enc r) = Some d1 /\
    encoder d1 = snd (frames_of n (encoder d) (mode d) stream) /\
    input_samples d1 = (k + arrived) mod 160 /\
    firstn (Z.to_nat (input_samples d1)) (input_buf d1) =
      skipn (160 * n) stream /\
    length (input_buf d1) = 160%nat /\
    buf_ok (enc_output (er_enc r)).
Proof.
  intros Hcd Hk Hbuf Hns Hout Hsize Hszt k arrived Hroom stream n.
  unfold encode, amr_encoder_encode. rewrite Hcd.
  assert (Harr : 0 <= arrived) by (apply Z.div_pos; lia).
  assert (Hdown : 2 * arrived <= input_size) by (apply Z.mul_div_le; lia).
  destruct (input_size =? 0) eqn:Hzero.
  - apply Z.eqb_eq in Hzero.
    assert (Ha : arrived = 0) by (unfold arrived; rewrite Hzero; reflexivity).
    unfold AMR_FRAME_SAMPLES in Hk.
    assert (Hn : n = 0%nat).
    { unfold n. rewrite Ha, Z.add_0_r, Z.div_small by (fold k in Hk; lia).
      reflexivity. }
    eexists. exists d. split; [reflexivity |].
    cbn [er_ret er_input_consumed er_enc].
    rewrite Hn. cbn [frames_of amr_frames_of fst snd map concat].
    rewrite app_nil_r, Ha, Z.add_0_r.
    split; [reflexivity |]. split; [reflexivity |]. split; [reflexivity |].
    split; [exact Hcd |]. split; [reflexivity |].
    split; [rewrite Z.mod_small by (fold k in Hk; lia); reflexivity |].
    split; [| split; [exact Hbuf | exact Hout]].
    unfold stream. rewrite Ha. cbn [Z.to_nat firstn skipn Nat.mul].
    rewrite app_nil_r. reflexivity.
  - change (MUX_STREAM_AUDIO =? MUX_STREAM_AUDIO) with true. cbn [negb].
    fold arrived.
    destruct (amr_loop_stream (S (Z.to_nat arrived)) enc d
                (samples_of_bytes bytes) arrived 0)
      as (r & d1 & Er & Hret & Hcons & Hokr & Hunr & Hcd1 & Hst & His & Hwin
          & Hlen1 & _); try assumption; try lia.
    { split; [exact Harr |].
      pose proof (samples_of_bytes_enough (Z.to_nat arrived) bytes).
      lia. }
    exists r, d1. split; [exact Er |]. split; [exact Hret |].
    split; [rewrite Hcons; reflexivity |]. split; [exact Hunr |].
    split; [exact Hcd1 |]. split; [exact Hst |]. split; [exact His |].
    split; [exact Hwin |]. split; [exact Hlen1 | exact Hokr].
Qed.

End AmrStreamProps.

Section AmrEdgeProps.

Variable alloc_ok : Z -> bool.
Hypothesis alloc_always : forall n : Z, alloc_ok n = true.
Variable amr_state : Type.
Variable Encoder_Interface_Encode :
  amr_state -> Z -> list Z -> Z -> amr_state * Z * list Z.

Let encode := amr_encoder_encode alloc_ok amr_state Encoder_Interface_Encode.
Let finalize :=
  amr_encoder_finalize alloc_ok amr_state Encoder_Interface_Encode.

(** [finalize] flushes at most once.  With an empty window it returns
    [MUX_OK] and changes nothing.  With samples waiting, it pads them
    with zero samples to a full window and has that encoded; a positive
    frame size appends the frame, any other -- a failure of the native
    encoder included -- appends nothing, and either way the call returns
    [MUX_OK] with the window emptied.  A second [finalize] therefore
    returns [MUX_OK] and changes nothing. *)
Theorem amr_finalize_flushes_once
    (enc : amr_encoder amr_state) (d : amr_encoder_data amr_state)
    (st1 : amr_state) (frame_size : Z) (frame_buf : list Z) :
  enc_codec_data enc = Some d ->
  0 <= input_samples d < AMR_FRAME_SAMPLES ->
  length (input_buf d) = 160%nat ->
  enc_num_streams enc = 1 \/ enc_num_streams enc = 2 ->
  buf_ok (enc_output enc) -> size (enc_output enc) + 41 < U64_MOD ->
  let k := input_samples d in
  Encoder_Interface_Encode (encoder d) (mode d)
    (firstn (Z.to_nat k) (input_buf d) ++ repeat 0 (Z.to_nat (160 - k))) 0
    = (st1, frame_size, frame_buf) ->
  (0 < frame_size ->
   frame_size <= AMR_MAX_FRAME_SIZE /\ length frame_buf = 32%nat) ->
  (k = 0 -> finalize enc = Some (MUX_OK, enc)) /\
  (0 < k ->
   exists enc1 : amr_encoder amr_state,
     finalize enc = Some (MUX_OK, enc1) /\
     unread (enc_output enc1) =
       unread (enc_output enc)
         ++ (if 0 <? frame_size
             then wire (enc_num_streams enc) MUX_STREAM_AUDIO
                       (firstn (Z.to_nat frame_size) frame_buf)
             else []) /\
     enc_codec_data enc1 =
       Some (mk_amr_encoder_data st1 (mode d) (dtx d)
               (firstn (Z.to_nat k) (input_buf d)
                ++ repeat 0 (Z.to_nat (160 - k))) 0) /\
     enc_error enc1 = enc_error enc /\
     finalize enc1 = Some (MUX_OK, enc1)).
Proof.
  intros Hcd Hk Hbuf Hns Hout Hroom k En Hfb.
  unfold AMR_FRAME_SAMPLES, AMR_MAX_FRAME_SIZE in *.
  pose proof U64_MOD_eq as HU.
  split.
  - intros Hzero. unfold finalize, amr_encoder_finalize. rewrite Hcd.
    fold k. rewrite Hzero. reflexivity.
  - intros Hpos. unfold finalize, amr_encoder_finalize. rewrite Hcd.
    fold k.
    assert (Hp : (0 <? k) = true) by (apply Z.ltb_lt; exact Hpos).
    rewrite Hp. cbv zeta.
    cbn [encoder mode dtx input_buf input_samples].
    change AMR_FRAME_SAMPLES with 160.
    destruct (memcpy_at_fill (input_buf d) k
                (repeat 0 (Z.to_nat (160 - k))) (160 - k))
      as [Hfill Hlen]; try lia; [rewrite repeat_length; lia |].
    replace (k + (160 - k)) with 160 in Hfill by lia.
    change (Z.to_nat 160) with 160%nat in Hfill.
    rewrite firstn_all2 in Hfill by lia.
    rewrite (firstn_all2 (repeat 0 (Z.to_nat (160 - k)))) in Hfill
      by (rewrite repeat_length; lia).
    rewrite Hfill, En.
    destruct (0 <? frame_size) eqn:Hfs.
    + apply Z.ltb_lt in Hfs. destruct (Hfb Hfs) as [Hmax Hfblen].
      rewrite (u64_small frame_size) by lia.
      set (frame := firstn (Z.to_nat frame_size) frame_buf).
      assert (Hframe : Z.of_nat (length frame) = frame_size)
        by (unfold frame; rewrite length_firstn; lia).
      assert (Hsz0 : 0 <= size (enc_output enc))
        by (destruct Hout as ((? & ? & ?) & _); lia).
      destruct (write_frame_ok alloc_ok alloc_always (enc_output enc) frame
                  MUX_STREAM_AUDIO (enc_num_streams enc) Hout)
        as (out1 & Ew & Hok1 & Hun1 & Hsz1);
        [ rewrite Hframe; change (2 ^ 62) with 4611686018427387904; lia
        | left; reflexivity | exact Hns | rewrite Hframe; lia |].
      rewrite Hframe in Ew.
      rewrite write_frame_prefix. fold frame. rewrite Ew.
      change (negb (MUX_OK =? MUX_OK)) with false. cbv iota.
      eexists. split; [reflexivity |].
      cbn [with_codec_data with_output enc_output enc_codec_data enc_error
           encoder mode dtx input_buf input_samples].
      split; [exact Hun1 |]. split; [reflexivity |].
      split; [reflexivity |]. reflexivity.
    + eexists. split; [reflexivity |].
      cbn [with_codec_data with_output enc_output enc_codec_data enc_error
           encoder mode dtx input_buf input_samples].
      rewrite app_nil_r.
      split; [reflexivity |]. split; [reflexivity |].
      split; [reflexivity |]. reflexivity.
Qed.

(** A failure of the native encoder during [encode].  When the samples
    that arrive fill the window and the native encoder returns a negative
    frame size for it, the call returns [MUX_ERROR_ENCODE] and records
    the error with the native code; nothing is appended to the output and
    no consumed count is stored.  The samples of the failed window are
    not given back: the window stays full. *)
Theorem amr_encode_native_failure
    (enc : amr_encoder amr_state) (d : amr_encoder_data amr_state)
    (bytes : list Z) (input_size : Z) (st1 : amr_state) (frame_size : Z)
    (frame_buf : list Z) :
  enc_codec_data enc = Some d ->
  0 <= input_samples d < AMR_FRAME_SAMPLES ->
  length (input_buf d) = 160%nat ->
  0 <= input_size <= Z.of_nat (length bytes) -> input_size < U64_MOD ->
  let k := input_samples d in
  AMR_FRAME_SAMPLES - k <= input_size / 2 ->
  let window := firstn (Z.to_nat k) (input_buf d)
                ++ firstn (Z.to_nat (160 - k)) (samples_of_bytes bytes) in
  Encoder_Interface_Encode (encoder d) (mode d) window 0
    = (st1, frame_size, frame_buf) ->
  frame_size < 0 ->
  exists r : encode_result amr_state,
    encode enc (Some bytes) input_size MUX_STREAM_AUDIO = Some r /\
    er_ret r = MUX_ERROR_ENCODE /\
    er_input_consumed r = None /\
    enc_output (er_enc r) = enc_output enc /\
    enc_error (er_enc r) =
      mk_error_info MUX_ERROR_ENCODE (Some "AMR encoding failed"%string)
        frame_size (Some "opencore-amrnb"%string) None /\
    enc_codec_data (er_enc r) =
      Some (mk_amr_encoder_data st1 (mode d) (dtx d) window
                                AMR_FRAME_SAMPLES).
Proof.
  intros Hcd Hk Hbuf Hsize Hszt k Hfill window En Hneg.
  unfold AMR_FRAME_SAMPLES in Hk, Hfill |- *.
  pose proof U64_MOD_eq as HU.
  unfold encode, amr_encoder_encode. rewrite Hcd.
  assert (Hdown : 2 * (input_size / 2) <= input_size)
    by (apply Z.mul_div_le; lia).
  assert (Hnz : (input_size =? 0) = false).
  { apply Z.eqb_neq. intros Hz. rewrite Hz in Hfill.
    change (0 / 2) with 0 in Hfill. fold k in Hk. lia. }
  rewrite Hnz.
  change (MUX_STREAM_AUDIO =? MUX_STREAM_AUDIO) with true. cbn [negb].
  set (sa := input_size / 2) in *.
  rewrite amr_encode_loop_step. cbv zeta. fold k.
  assert (Hpos : (0 <? sa) = true) by (apply Z.ltb_lt; fold k in Hk; lia).
  rewrite Hpos. cbn [negb].
  change AMR_FRAME_SAMPLES with 160.
  rewrite (u64_small (160 - k)) by (fold k in Hk; lia).
  assert (Hlt : (sa <? 160 - k) = false) by (apply Z.ltb_ge; lia).
  rewrite Hlt.
  cbn [input_samples encoder mode dtx input_buf].
  replace (k + (160 - k)) with 160 by lia.
  change (s32 (u64 160) =? 160) with true. cbv iota.
  pose proof (samples_of_bytes_enough (Z.to_nat sa) bytes) as Hen.
  destruct (memcpy_at_fill (input_buf d) k (samples_of_bytes bytes) (160 - k))
    as [Hw Hlen]; try (fold k in Hk; lia).
  replace (k + (160 - k)) with 160 in Hw by lia.
  change (Z.to_nat 160) with 160%nat in Hw.
  rewrite firstn_all2 in Hw by lia.
  rewrite Hw. fold window. rewrite En.
  assert (Hn : (frame_size <? 0) = true) by (apply Z.ltb_lt; exact Hneg).
  rewrite Hn.
  eexists. split; [reflexivity |].
  cbn [er_ret er_input_consumed er_enc mux_encoder_set_error with_codec_data
       enc_output enc_error enc_codec_data].
  repeat split.
Qed.

End AmrEdgeProps.

Lemma amr_encode_frames_every_160_samples_witness :
  let ok := fun _ : Z => true in
  let native := fun (st : nat) (_ : Z) (_ : list Z) (_ : Z) =>
                  (S st, 13, repeat (Z.of_nat st) 32) in
  let enc :=
    mk_encoder MUX_CODEC_AMR (Some mux_codec_amr_ops) 8000 1 1
      (snd (mux_buffer_init ok 4096)) no_error
      (Some (mk_amr_encoder_data 0%nat 7 0 (repeat 5 160) 100)) in
  exists (r : encode_result nat) (d1 : amr_encoder_data nat),
    amr_encoder_encode ok nat native enc (Some (repeat 1 460)) 460
      MUX_STREAM_AUDIO = Some r /\
    er_ret r = MUX_OK /\ er_input_consumed r = Some 460 /\
    unread (enc_output (er_enc r)) = repeat 0 13 ++ repeat 1 13 /\
    enc_codec_data (er_enc r) = Some d1 /\
    encoder d1 = 2%nat /\ input_samples d1 = 10.
Proof.
  intros ok native enc.
  assert (Hout : buf_ok (enc_output enc)).
  { unfold buf_ok, buf_inv. cbn.
    repeat split; try lia; try discriminate; reflexivity. }
  assert (Hnative : native_encoder_in_range native).
  { intros st m speech _. cbn. split; [split; by_computation |].
    reflexivity. }
  destruct (amr_encode_frames_every_160_samples ok (fun _ => eq_refl) nat
              native Hnative enc
              (mk_amr_encoder_data 0%nat 7 0 (repeat 5 160) 100)
              (repeat 1 460) 460 eq_refl ltac:(split; by_computation)
              eq_refl (or_introl eq_refl) Hout ltac:(split; by_computation)
              ltac:(by_computation) ltac:(by_computation))
    as (r & d1 & E & Hret & Hcons & Hun & Hcd & Hst & His & _).
  exists r, d1. split; [exact E |]. split; [exact Hret |].
  split; [exact Hcons |]. split; [exact Hun |]. split; [exact Hcd |].
  split; [exact Hst | exact His].
Defined.

Lemma amr_finalize_flushes_once_witness :
  let ok := fun _ : Z => true in
  let native := fun (st : nat) (_ : Z) (speech : list Z) (_ : Z) =>
                  (S st, 13, firstn 32 speech) in
  let enc :=
    mk_encoder MUX_CODEC_AMR (Some mux_codec_amr_ops) 8000 1 1
      (snd (mux_buffer_init ok 4096)) no_error
      (Some (mk_amr_encoder_data 0%nat 7 0 (repeat 5 160) 2)) in
  exists enc1 : amr_encoder nat,
    amr_encoder_finalize ok nat native enc = Some (MUX_OK, enc1) /\
    unread (enc_output enc1) = [5; 5] ++ repeat 0 11 /\
    amr_encoder_finalize ok nat native enc1 = Some (MUX_OK, enc1).
Proof.
  intros ok native enc.
  assert (Hout : buf_ok (enc_output enc)).
  { unfold buf_ok, buf_inv. cbn.
    repeat split; try lia; try discriminate; reflexivity. }
  destruct (amr_finalize_flushes_once ok (fun _ => eq_refl) nat native enc
              (mk_amr_encoder_data 0%nat 7 0 (repeat 5 160) 2)
              1%nat 13 ([5; 5] ++ repeat 0 30)
              eq_refl ltac:(split; by_computation) eq_refl
              (or_introl eq_refl) Hout ltac:(by_computation) eq_refl
              ltac:(intros _; split; [by_computation | reflexivity]))
    as [_ H].
  destruct (H ltac:(by_computation)) as (enc1 & E & Hun & _ & _ & Hagain).
  exists enc1. split; [exact E |]. split; [exact Hun | exact Hagain].
Defined.

Lemma amr_encode_native_failure_witness :
  let ok := fun _ : Z => true in
  let native := fun (st : nat) (_ : Z) (_ : list Z) (_ : Z) =>
                  (S st, - 1, repeat 0 32) in
  let enc :=
    mk_encoder MUX_CODEC_AMR (Some mux_codec_amr_ops) 8000 1 1
      (snd (mux_buffer_init ok 4096)) no_error
      (Some (mk_amr_encoder_data 0%nat 7 0 (repeat 5 160) 100)) in
  exists r : encode_result nat,
    amr_encoder_encode ok nat native enc (Some (repeat 1 460)) 460
      MUX_STREAM_AUDIO = Some r /\
    er_ret r = MUX_ERROR_ENCODE /\ er_input_consumed r = None /\
    enc_output (er_enc r) = enc_output enc.
Proof.
  intros ok native enc.
  destruct (amr_encode_native_failure ok nat native enc
              (mk_amr_encoder_data 0%nat 7 0 (repeat 5 160) 100)
              (repeat 1 460) 460 1%nat (- 1) (repeat 0 32)
              eq_refl ltac:(split; by_computation) eq_refl
              ltac:(split; by_computation) ltac:(by_computation)
              ltac:(by_computation) eq_refl ltac:(by_computation))
    as (r & E & Hret & Hcons & Hout & _).
  exists r. split; [exact E |]. split; [exact Hret |].
  split; [exact Hcons | exact Hout].
Defined.
